(** * Stablecoin risk engine: finality, quality, TCS, windows, reorgs

    A shallow embedding of the streaming risk-aggregation core
    (schema, chain profiles, finality tracker, quality pipeline, TCS
    calculator, block monitor, reorg handler, window manager and
    cross-chain aggregator) together with the properties stated for it.

    Conventions of the embedding.
    - A Python [float] is an exact rational ([Q]); comparisons, sums,
      products and quotients are the exact ones.
    - A naive [datetime] is its wall-clock value in microseconds ([Z]);
      a [timedelta] is a difference of such values, and
      [total_seconds] divides by 10^6.  Every call of
      [datetime.utcnow()] inside a function is an explicit argument
      [now] of its model.
    - A [str] is a [string] of bytes; [upper] and [lower] act on the
      ASCII letters.
    - A [dict] or [set] is a [gmap] or [gset]; a list of objects that
      are mutated through a second reference is a store indexed by
      position.
    - An awaited RPC is an oracle whose answer [None] stands for a
      raised exception. *)

From Stdlib Require Import ZArith QArith Qabs Lqa Lia Ascii String.
From stdpp Require Import gmap strings list pretty.

Local Open Scope Z_scope.

(** ** Time *)

Abbreviation datetime := Z.
Abbreviation timedelta := Z.

(** [timedelta(seconds=n)] *)
Definition timedelta_seconds (n : Z) : timedelta := n * 1000000.

(** [delta.total_seconds()] *)
Definition total_seconds (d : timedelta) : Q := Qmake d 1000000.

(** ** Float comparisons *)

Definition Qltb (x y : Q) : bool := negb (Qle_bool y x).
Definition Qleb (x y : Q) : bool := Qle_bool x y.

(** Python's two-argument [min(a, b)] and [max(a, b)]: the first
    argument wins a tie. *)
Definition py_min2 (a b : Q) : Q := if Qltb b a then b else a.
Definition py_max2 (a b : Q) : Q := if Qltb a b then b else a.

(** [min(xs)], [max(xs)] and [sum(xs)] over a non-empty list (the
    callers guard emptiness). *)
Definition py_min (x : Q) (xs : list Q) : Q := fold_left py_min2 xs x.
Definition py_max (x : Q) (xs : list Q) : Q := fold_left py_max2 xs x.
Definition py_sum (xs : list Q) : Q := fold_left Qplus xs (0 # 1).

(** [x is not None] *)
Definition is_not_None {A : Type} (o : option A) : bool :=
  match o with Some _ => true | None => false end.

(** Truthiness of a [str]. *)
Definition truthy (s : string) : bool := if decide (s = "") then false else true.

(** ** Schema (common/schema.py) *)

Module Schema.

Inductive FinalityTier : Type := TIER1 | TIER2 | TIER3.

Definition FinalityTier_value (t : FinalityTier) : string :=
  match t with TIER1 => "tier1" | TIER2 => "tier2" | TIER3 => "tier3" end.

Inductive WindowState : Type := OPEN | PROVISIONAL | FINAL.

Definition WindowState_value (s : WindowState) : string :=
  match s with OPEN => "OPEN" | PROVISIONAL => "PROVISIONAL" | FINAL => "FINAL" end.

#[global] Instance WindowState_eq_dec : EqDecision WindowState.
Proof. solve_decision. Defined.

#[global] Instance FinalityTier_eq_dec : EqDecision FinalityTier.
Proof. solve_decision. Defined.

Record ConfidenceBreakdown : Type := mkConfidenceBreakdown {
  cb_finality_weight : Q;
  cb_chain_confidence : Q;
  cb_completeness : Q;
  cb_staleness_penalty : Q;
  cb_temporal_confidence : Q
}.

(** The event record.  The fields [confidence_breakdown],
    [aggregation_level], [aggregated_from], [deduplication_count],
    [source_importance], [processing_latency_ms] and [tags] are read or
    written by none of the functions embedded below and are left out. *)
Record RiskEvent : Type := mkRiskEvent {
  event_id : string;
  timestamp : datetime;
  coin : string;
  chain : string;
  source : string;
  price : option Q;
  volume : option Q;
  liquidity_depth : option Q;
  net_supply_change : option Q;
  market_volatility : option Q;
  sentiment_score : option Q;
  block_number : option Z;
  tx_hash : option string;
  confirmation_count : Z;
  finality_tier : string;
  is_finalized : bool;
  finality_timestamp : option datetime;
  temporal_confidence : Q;
  window_id : string;
  window_state : string;
  window_start : option datetime;
  window_end : option datetime;
  event_version : Z;
  invalidated : bool;
  replacement_event_id : option string;
  reorg_detected_at : option datetime;
  original_block_number : option Z;
  is_outlier : bool;
  quality_score : Q
}.

Definition set_coin (v : string) (e : RiskEvent) : RiskEvent :=
  {| event_id := event_id e; timestamp := timestamp e; coin := v; chain := chain e;
     source := source e; price := price e; volume := volume e;
     liquidity_depth := liquidity_depth e; net_supply_change := net_supply_change e;
     market_volatility := market_volatility e; sentiment_score := sentiment_score e;
     block_number := block_number e; tx_hash := tx_hash e;
     confirmation_count := confirmation_count e; finality_tier := finality_tier e;
     is_finalized := is_finalized e; finality_timestamp := finality_timestamp e;
     temporal_confidence := temporal_confidence e; window_id := window_id e;
     window_state := window_state e; window_start := window_start e;
     window_end := window_end e; event_version := event_version e;
     invalidated := invalidated e; replacement_event_id := replacement_event_id e;
     reorg_detected_at := reorg_detected_at e;
     original_block_number := original_block_number e; is_outlier := is_outlier e;
     quality_score := quality_score e |}.

Definition set_chain (v : string) (e : RiskEvent) : RiskEvent :=
  {| event_id := event_id e; timestamp := timestamp e; coin := coin e; chain := v;
     source := source e; price := price e; volume := volume e;
     liquidity_depth := liquidity_depth e; net_supply_change := net_supply_change e;
     market_volatility := market_volatility e; sentiment_score := sentiment_score e;
     block_number := block_number e; tx_hash := tx_hash e;
     confirmation_count := confirmation_count e; finality_tier := finality_tier e;
     is_finalized := is_finalized e; finality_timestamp := finality_timestamp e;
     temporal_confidence := temporal_confidence e; window_id := window_id e;
     window_state := window_state e; window_start := window_start e;
     window_end := window_end e; event_version := event_version e;
     invalidated := invalidated e; replacement_event_id := replacement_event_id e;
     reorg_detected_at := reorg_detected_at e;
     original_block_number := original_block_number e; is_outlier := is_outlier e;
     quality_score := quality_score e |}.

Definition set_price (v : option Q) (e : RiskEvent) : RiskEvent :=
  {| event_id := event_id e; timestamp := timestamp e; coin := coin e; chain := chain e;
     source := source e; price := v; volume := volume e; liquidity_depth := liquidity_depth e;
     net_supply_change := net_supply_change e; market_volatility := market_volatility e;
     sentiment_score := sentiment_score e; block_number := block_number e;
     tx_hash := tx_hash e; confirmation_count := confirmation_count e;
     finality_tier := finality_tier e; is_finalized := is_finalized e;
     finality_timestamp := finality_timestamp e; temporal_confidence := temporal_confidence e;
     window_id := window_id e; window_state := window_state e; window_start := window_start e;
     window_end := window_end e; event_version := event_version e;
     invalidated := invalidated e; replacement_event_id := replacement_event_id e;
     reorg_detected_at := reorg_detected_at e;
     original_block_number := original_block_number e; is_outlier := is_outlier e;
     quality_score := quality_score e |}.

Definition set_quality_score (v : Q) (e : RiskEvent) : RiskEvent :=
  {| event_id := event_id e; timestamp := timestamp e; coin := coin e; chain := chain e;
     source := source e; price := price e; volume := volume e;
     liquidity_depth := liquidity_depth e; net_supply_change := net_supply_change e;
     market_volatility := market_volatility e; sentiment_score := sentiment_score e;
     block_number := block_number e; tx_hash := tx_hash e;
     confirmation_count := confirmation_count e; finality_tier := finality_tier e;
     is_finalized := is_finalized e; finality_timestamp := finality_timestamp e;
     temporal_confidence := temporal_confidence e; window_id := window_id e;
     window_state := window_state e; window_start := window_start e;
     window_end := window_end e; event_version := event_version e;
     invalidated := invalidated e; replacement_event_id := replacement_event_id e;
     reorg_detected_at := reorg_detected_at e;
     original_block_number := original_block_number e; is_outlier := is_outlier e;
     quality_score := v |}.

Definition set_is_outlier (v : bool) (e : RiskEvent) : RiskEvent :=
  {| event_id := event_id e; timestamp := timestamp e; coin := coin e; chain := chain e;
     source := source e; price := price e; volume := volume e;
     liquidity_depth := liquidity_depth e; net_supply_change := net_supply_change e;
     market_volatility := market_volatility e; sentiment_score := sentiment_score e;
     block_number := block_number e; tx_hash := tx_hash e;
     confirmation_count := confirmation_count e; finality_tier := finality_tier e;
     is_finalized := is_finalized e; finality_timestamp := finality_timestamp e;
     temporal_confidence := temporal_confidence e; window_id := window_id e;
     window_state := window_state e; window_start := window_start e;
     window_end := window_end e; event_version := event_version e;
     invalidated := invalidated e; replacement_event_id := replacement_event_id e;
     reorg_detected_at := reorg_detected_at e;
     original_block_number := original_block_number e; is_outlier := v;
     quality_score := quality_score e |}.

Definition set_invalidated (v : bool) (e : RiskEvent) : RiskEvent :=
  {| event_id := event_id e; timestamp := timestamp e; coin := coin e; chain := chain e;
     source := source e; price := price e; volume := volume e;
     liquidity_depth := liquidity_depth e; net_supply_change := net_supply_change e;
     market_volatility := market_volatility e; sentiment_score := sentiment_score e;
     block_number := block_number e; tx_hash := tx_hash e;
     confirmation_count := confirmation_count e; finality_tier := finality_tier e;
     is_finalized := is_finalized e; finality_timestamp := finality_timestamp e;
     temporal_confidence := temporal_confidence e; window_id := window_id e;
     window_state := window_state e; window_start := window_start e;
     window_end := window_end e; event_version := event_version e; invalidated := v;
     replacement_event_id := replacement_event_id e; reorg_detected_at := reorg_detected_at e;
     original_block_number := original_block_number e; is_outlier := is_outlier e;
     quality_score := quality_score e |}.

Definition set_reorg_detected_at (v : option datetime) (e : RiskEvent) : RiskEvent :=
  {| event_id := event_id e; timestamp := timestamp e; coin := coin e; chain := chain e;
     source := source e; price := price e; volume := volume e;
     liquidity_depth := liquidity_depth e; net_supply_change := net_supply_change e;
     market_volatility := market_volatility e; sentiment_score := sentiment_score e;
     block_number := block_number e; tx_hash := tx_hash e;
     confirmation_count := confirmation_count e; finality_tier := finality_tier e;
     is_finalized := is_finalized e; finality_timestamp := finality_timestamp e;
     temporal_confidence := temporal_confidence e; window_id := window_id e;
     window_state := window_state e; window_start := window_start e;
     window_end := window_end e; event_version := event_version e;
     invalidated := invalidated e; replacement_event_id := replacement_event_id e;
     reorg_detected_at := v; original_block_number := original_block_number e;
     is_outlier := is_outlier e; quality_score := quality_score e |}.

Definition set_original_block_number (v : option Z) (e : RiskEvent) : RiskEvent :=
  {| event_id := event_id e; timestamp := timestamp e; coin := coin e; chain := chain e;
     source := source e; price := price e; volume := volume e;
     liquidity_depth := liquidity_depth e; net_supply_change := net_supply_change e;
     market_volatility := market_volatility e; sentiment_score := sentiment_score e;
     block_number := block_number e; tx_hash := tx_hash e;
     confirmation_count := confirmation_count e; finality_tier := finality_tier e;
     is_finalized := is_finalized e; finality_timestamp := finality_timestamp e;
     temporal_confidence := temporal_confidence e; window_id := window_id e;
     window_state := window_state e; window_start := window_start e;
     window_end := window_end e; event_version := event_version e;
     invalidated := invalidated e; replacement_event_id := replacement_event_id e;
     reorg_detected_at := reorg_detected_at e; original_block_number := v;
     is_outlier := is_outlier e; quality_score := quality_score e |}.

Definition set_confirmation_count (v : Z) (e : RiskEvent) : RiskEvent :=
  {| event_id := event_id e; timestamp := timestamp e; coin := coin e; chain := chain e;
     source := source e; price := price e; volume := volume e;
     liquidity_depth := liquidity_depth e; net_supply_change := net_supply_change e;
     market_volatility := market_volatility e; sentiment_score := sentiment_score e;
     block_number := block_number e; tx_hash := tx_hash e; confirmation_count := v;
     finality_tier := finality_tier e; is_finalized := is_finalized e;
     finality_timestamp := finality_timestamp e; temporal_confidence := temporal_confidence e;
     window_id := window_id e; window_state := window_state e; window_start := window_start e;
     window_end := window_end e; event_version := event_version e;
     invalidated := invalidated e; replacement_event_id := replacement_event_id e;
     reorg_detected_at := reorg_detected_at e;
     original_block_number := original_block_number e; is_outlier := is_outlier e;
     quality_score := quality_score e |}.

Definition set_finality_tier (v : string) (e : RiskEvent) : RiskEvent :=
  {| event_id := event_id e; timestamp := timestamp e; coin := coin e; chain := chain e;
     source := source e; price := price e; volume := volume e;
     liquidity_depth := liquidity_depth e; net_supply_change := net_supply_change e;
     market_volatility := market_volatility e; sentiment_score := sentiment_score e;
     block_number := block_number e; tx_hash := tx_hash e;
     confirmation_count := confirmation_count e; finality_tier := v;
     is_finalized := is_finalized e; finality_timestamp := finality_timestamp e;
     temporal_confidence := temporal_confidence e; window_id := window_id e;
     window_state := window_state e; window_start := window_start e;
     window_end := window_end e; event_version := event_version e;
     invalidated := invalidated e; replacement_event_id := replacement_event_id e;
     reorg_detected_at := reorg_detected_at e;
     original_block_number := original_block_number e; is_outlier := is_outlier e;
     quality_score := quality_score e |}.

Definition set_temporal_confidence (v : Q) (e : RiskEvent) : RiskEvent :=
  {| event_id := event_id e; timestamp := timestamp e; coin := coin e; chain := chain e;
     source := source e; price := price e; volume := volume e;
     liquidity_depth := liquidity_depth e; net_supply_change := net_supply_change e;
     market_volatility := market_volatility e; sentiment_score := sentiment_score e;
     block_number := block_number e; tx_hash := tx_hash e;
     confirmation_count := confirmation_count e; finality_tier := finality_tier e;
     is_finalized := is_finalized e; finality_timestamp := finality_timestamp e;
     temporal_confidence := v; window_id := window_id e; window_state := window_state e;
     window_start := window_start e; window_end := window_end e;
     event_version := event_version e; invalidated := invalidated e;
     replacement_event_id := replacement_event_id e; reorg_detected_at := reorg_detected_at e;
     original_block_number := original_block_number e; is_outlier := is_outlier e;
     quality_score := quality_score e |}.

Definition set_is_finalized (v : bool) (e : RiskEvent) : RiskEvent :=
  {| event_id := event_id e; timestamp := timestamp e; coin := coin e; chain := chain e;
     source := source e; price := price e; volume := volume e;
     liquidity_depth := liquidity_depth e; net_supply_change := net_supply_change e;
     market_volatility := market_volatility e; sentiment_score := sentiment_score e;
     block_number := block_number e; tx_hash := tx_hash e;
     confirmation_count := confirmation_count e; finality_tier := finality_tier e;
     is_finalized := v; finality_timestamp := finality_timestamp e;
     temporal_confidence := temporal_confidence e; window_id := window_id e;
     window_state := window_state e; window_start := window_start e;
     window_end := window_end e; event_version := event_version e;
     invalidated := invalidated e; replacement_event_id := replacement_event_id e;
     reorg_detected_at := reorg_detected_at e;
     original_block_number := original_block_number e; is_outlier := is_outlier e;
     quality_score := quality_score e |}.

Definition set_finality_timestamp (v : option datetime) (e : RiskEvent) : RiskEvent :=
  {| event_id := event_id e; timestamp := timestamp e; coin := coin e; chain := chain e;
     source := source e; price := price e; volume := volume e;
     liquidity_depth := liquidity_depth e; net_supply_change := net_supply_change e;
     market_volatility := market_volatility e; sentiment_score := sentiment_score e;
     block_number := block_number e; tx_hash := tx_hash e;
     confirmation_count := confirmation_count e; finality_tier := finality_tier e;
     is_finalized := is_finalized e; finality_timestamp := v;
     temporal_confidence := temporal_confidence e; window_id := window_id e;
     window_state := window_state e; window_start := window_start e;
     window_end := window_end e; event_version := event_version e;
     invalidated := invalidated e; replacement_event_id := replacement_event_id e;
     reorg_detected_at := reorg_detected_at e;
     original_block_number := original_block_number e; is_outlier := is_outlier e;
     quality_score := quality_score e |}.

Definition set_window_id (v : string) (e : RiskEvent) : RiskEvent :=
  {| event_id := event_id e; timestamp := timestamp e; coin := coin e; chain := chain e;
     source := source e; price := price e; volume := volume e;
     liquidity_depth := liquidity_depth e; net_supply_change := net_supply_change e;
     market_volatility := market_volatility e; sentiment_score := sentiment_score e;
     block_number := block_number e; tx_hash := tx_hash e;
     confirmation_count := confirmation_count e; finality_tier := finality_tier e;
     is_finalized := is_finalized e; finality_timestamp := finality_timestamp e;
     temporal_confidence := temporal_confidence e; window_id := v;
     window_state := window_state e; window_start := window_start e;
     window_end := window_end e; event_version := event_version e;
     invalidated := invalidated e; replacement_event_id := replacement_event_id e;
     reorg_detected_at := reorg_detected_at e;
     original_block_number := original_block_number e; is_outlier := is_outlier e;
     quality_score := quality_score e |}.

Definition set_window_state (v : string) (e : RiskEvent) : RiskEvent :=
  {| event_id := event_id e; timestamp := timestamp e; coin := coin e; chain := chain e;
     source := source e; price := price e; volume := volume e;
     liquidity_depth := liquidity_depth e; net_supply_change := net_supply_change e;
     market_volatility := market_volatility e; sentiment_score := sentiment_score e;
     block_number := block_number e; tx_hash := tx_hash e;
     confirmation_count := confirmation_count e; finality_tier := finality_tier e;
     is_finalized := is_finalized e; finality_timestamp := finality_timestamp e;
     temporal_confidence := temporal_confidence e; window_id := window_id e; window_state := v;
     window_start := window_start e; window_end := window_end e;
     event_version := event_version e; invalidated := invalidated e;
     replacement_event_id := replacement_event_id e; reorg_detected_at := reorg_detected_at e;
     original_block_number := original_block_number e; is_outlier := is_outlier e;
     quality_score := quality_score e |}.

Definition set_window_start (v : option datetime) (e : RiskEvent) : RiskEvent :=
  {| event_id := event_id e; timestamp := timestamp e; coin := coin e; chain := chain e;
     source := source e; price := price e; volume := volume e;
     liquidity_depth := liquidity_depth e; net_supply_change := net_supply_change e;
     market_volatility := market_volatility e; sentiment_score := sentiment_score e;
     block_number := block_number e; tx_hash := tx_hash e;
     confirmation_count := confirmation_count e; finality_tier := finality_tier e;
     is_finalized := is_finalized e; finality_timestamp := finality_timestamp e;
     temporal_confidence := temporal_confidence e; window_id := window_id e;
     window_state := window_state e; window_start := v; window_end := window_end e;
     event_version := event_version e; invalidated := invalidated e;
     replacement_event_id := replacement_event_id e; reorg_detected_at := reorg_detected_at e;
     original_block_number := original_block_number e; is_outlier := is_outlier e;
     quality_score := quality_score e |}.

Definition set_window_end (v : option datetime) (e : RiskEvent) : RiskEvent :=
  {| event_id := event_id e; timestamp := timestamp e; coin := coin e; chain := chain e;
     source := source e; price := price e; volume := volume e;
     liquidity_depth := liquidity_depth e; net_supply_change := net_supply_change e;
     market_volatility := market_volatility e; sentiment_score := sentiment_score e;
     block_number := block_number e; tx_hash := tx_hash e;
     confirmation_count := confirmation_count e; finality_tier := finality_tier e;
     is_finalized := is_finalized e; finality_timestamp := finality_timestamp e;
     temporal_confidence := temporal_confidence e; window_id := window_id e;
     window_state := window_state e; window_start := window_start e; window_end := v;
     event_version := event_version e; invalidated := invalidated e;
     replacement_event_id := replacement_event_id e; reorg_detected_at := reorg_detected_at e;
     original_block_number := original_block_number e; is_outlier := is_outlier e;
     quality_score := quality_score e |}.

Definition set_replacement_event_id (v : option string) (e : RiskEvent) : RiskEvent :=
  {| event_id := event_id e; timestamp := timestamp e; coin := coin e; chain := chain e;
     source := source e; price := price e; volume := volume e;
     liquidity_depth := liquidity_depth e; net_supply_change := net_supply_change e;
     market_volatility := market_volatility e; sentiment_score := sentiment_score e;
     block_number := block_number e; tx_hash := tx_hash e;
     confirmation_count := confirmation_count e; finality_tier := finality_tier e;
     is_finalized := is_finalized e; finality_timestamp := finality_timestamp e;
     temporal_confidence := temporal_confidence e; window_id := window_id e;
     window_state := window_state e; window_start := window_start e;
     window_end := window_end e; event_version := event_version e;
     invalidated := invalidated e; replacement_event_id := v;
     reorg_detected_at := reorg_detected_at e;
     original_block_number := original_block_number e; is_outlier := is_outlier e;
     quality_score := quality_score e |}.

(** [RiskEvent(event_id=.., timestamp=.., ...)] with every other field
    at its declared default. *)
Definition RiskEvent_default (id : string) (ts : datetime) : RiskEvent :=
  {| event_id := id; timestamp := ts; coin := ""; chain := ""; source := "";
     price := None; volume := None; liquidity_depth := None;
     net_supply_change := None; market_volatility := None; sentiment_score := None;
     block_number := None; tx_hash := None; confirmation_count := 0;
     finality_tier := FinalityTier_value TIER1; is_finalized := false;
     finality_timestamp := None; temporal_confidence := (3 # 10)%Q;
     window_id := ""; window_state := WindowState_value OPEN;
     window_start := None; window_end := None;
     event_version := 1; invalidated := false; replacement_event_id := None;
     reorg_detected_at := None; original_block_number := None;
     is_outlier := false; quality_score := (1 # 1)%Q |}.

(** [RiskEvent.get_confidence_tier_value]: [tier_map.get(tier, 0.0)] *)
Definition get_confidence_tier_value (e : RiskEvent) : Q :=
  if decide (finality_tier e = "tier1") then (3 # 10)%Q
  else if decide (finality_tier e = "tier2") then (8 # 10)%Q
  else if decide (finality_tier e = "tier3") then (1 # 1)%Q
  else (0 # 1)%Q.

End Schema.

Import Schema.

(** ** Configuration (common/config.py) *)

Record ChainConfig : Type := mkChainConfig {
  name : string;
  block_time_ms : Z;
  tier1_confirmations : Z;
  tier2_confirmations : Z;
  tier3_confirmations : Z;
  tier1_time_sec : Z;
  tier2_time_sec : Z;
  tier3_time_sec : Z;
  max_reorg_depth : Z;
  reorg_probability : Q
}.

Record CoinConfig : Type := mkCoinConfig {
  symbol : string;
  depeg_threshold : Q;
  liquidity_min : Q;
  volatility_max : Q
}.

Module Config.

Definition ethereum : ChainConfig :=
  {| name := "ethereum"; block_time_ms := 12000;
     tier1_confirmations := 1; tier2_confirmations := 32; tier3_confirmations := 64;
     tier1_time_sec := 12; tier2_time_sec := 384; tier3_time_sec := 768;
     max_reorg_depth := 64; reorg_probability := (1 # 1000)%Q |}.

Definition arbitrum : ChainConfig :=
  {| name := "arbitrum"; block_time_ms := 250;
     tier1_confirmations := 1; tier2_confirmations := 50; tier3_confirmations := 256;
     tier1_time_sec := 1; tier2_time_sec := 13; tier3_time_sec := 900;
     max_reorg_depth := 256; reorg_probability := (2 # 1000)%Q |}.

Definition solana : ChainConfig :=
  {| name := "solana"; block_time_ms := 400;
     tier1_confirmations := 1; tier2_confirmations := 32; tier3_confirmations := 300;
     tier1_time_sec := 1; tier2_time_sec := 13; tier3_time_sec := 120;
     max_reorg_depth := 300; reorg_probability := (5 # 1000)%Q |}.

Definition CHAINS : gmap string ChainConfig :=
  <["ethereum" := ethereum]> (<["arbitrum" := arbitrum]> (<["solana" := solana]> ∅)).

Definition stablecoin (s : string) : CoinConfig :=
  {| symbol := s; depeg_threshold := (2 # 100)%Q;
     liquidity_min := (1000000 # 1)%Q; volatility_max := (5 # 100)%Q |}.

Definition COINS : gmap string CoinConfig :=
  <["USDC" := stablecoin "USDC"]>
    (<["USDT" := stablecoin "USDT"]> (<["DAI" := stablecoin "DAI"]> ∅)).

(** [TCS_CONFIG] *)
Definition expected_sources : list string :=
  ["price"; "liquidity"; "supply"; "volatility"; "sentiment"].
Definition staleness_fresh : Q := (300 # 1)%Q.
Definition staleness_acceptable : Q := (600 # 1)%Q.
Definition source_importance : gmap string Q :=
  <["price" := (1 # 1)%Q]> (<["liquidity" := (8 # 10)%Q]> (<["supply" := (9 # 10)%Q]>
    (<["volatility" := (7 # 10)%Q]> (<["sentiment" := (5 # 10)%Q]> ∅)))).
Definition attestation_threshold : Q := (8 # 10)%Q.
Definition cross_chain_grace_period : Z := 900.

(** [WINDOW_CONFIG] *)
Definition window_size_sec : Z := 300.
Definition provisional_delay_sec : Z := 60.
Definition finalization_delay_sec : Z := 900.

(** [QUALITY_CONFIG] *)
Definition outlier_z_threshold : Q := (3 # 1)%Q.
Definition price_bounds : Q * Q := ((95 # 100)%Q, (105 # 100)%Q).
Definition dedup_window_sec : Z := 60.

End Config.

(** ** TCS calculator (layer1_core/tcs/calculator.py) *)

Module TCS.

Record TCSCalculator : Type := mkTCSCalculator {
  expected_sources : gset string;
  source_importance : gmap string Q;
  staleness_fresh : Q;
  staleness_acceptable : Q
}.

(** [TCSCalculator.__init__] *)
Definition tcs_calculator : TCSCalculator :=
  {| expected_sources := list_to_set Config.expected_sources;
     source_importance := Config.source_importance;
     staleness_fresh := Config.staleness_fresh;
     staleness_acceptable := Config.staleness_acceptable |}.

Section Calculator.
Variable self : TCSCalculator.

Definition _infer_source_type (event : RiskEvent) : option string :=
  if is_not_None (price event) then Some "price"
  else if is_not_None (liquidity_depth event) then Some "liquidity"
  else if is_not_None (net_supply_change event) then Some "supply"
  else if is_not_None (market_volatility event) then Some "volatility"
  else if is_not_None (sentiment_score event) then Some "sentiment"
  else if truthy (source event) then Some (source event) else None.

(** [self.source_importance.get(source_type, 1.0)] *)
Definition importance_of (source_type : option string) : Q :=
  match source_type with
  | Some s => default (1 # 1)%Q (source_importance self !! s)
  | None => (1 # 1)%Q
  end.

(** One turn of the loop of [_calculate_finality_weight] on the pair
    [(weighted_sum, total_importance)]. *)
Definition finality_weight_step (acc : Q * Q) (event : RiskEvent) : Q * Q :=
  let finality_conf := get_confidence_tier_value event in
  let importance := importance_of (_infer_source_type event) in
  ((fst acc + finality_conf * importance)%Q, (snd acc + importance)%Q).

Definition _calculate_finality_weight (events : list RiskEvent) : Q :=
  match events with
  | [] => (0 # 1)%Q
  | _ =>
      let '(weighted_sum, total_importance) :=
        fold_left finality_weight_step events ((0 # 1)%Q, (0 # 1)%Q) in
      if Qeq_bool total_importance (0 # 1) then (0 # 1)%Q
      else (weighted_sum / total_importance)%Q
  end.

(** One turn of the loop of [_calculate_chain_confidence] on the
    dictionary [chain_finalities]. *)
Definition chain_finalities_step (chain_finalities : gmap string Q)
    (event : RiskEvent) : gmap string Q :=
  let finality_conf := get_confidence_tier_value event in
  match chain_finalities !! chain event with
  | None => <[chain event := finality_conf]> chain_finalities
  | Some cur => <[chain event := py_min2 cur finality_conf]> chain_finalities
  end.

Definition _calculate_chain_confidence (events : list RiskEvent) : Q :=
  match events with
  | [] => (0 # 1)%Q
  | _ =>
      let chain_finalities := fold_left chain_finalities_step events ∅ in
      match (map_to_list chain_finalities).*2 with
      | [] => (0 # 1)%Q
      | v :: vs => py_min v vs
      end
  end.

Definition present_sources_step (present_sources : gset string)
    (event : RiskEvent) : gset string :=
  match _infer_source_type event with
  | Some source_type =>
      if truthy source_type then present_sources ∪ {[source_type]}
      else present_sources
  | None => present_sources
  end.

Definition _calculate_completeness (events : list RiskEvent) : Q :=
  match events with
  | [] => (0 # 1)%Q
  | _ =>
      let present_sources := fold_left present_sources_step events ∅ in
      (inject_Z (Z.of_nat (size present_sources))
       / inject_Z (Z.of_nat (size (expected_sources self))))%Q
  end.

(** [min(events, key=lambda e: e.timestamp)]: the first event with
    the least timestamp. *)
Definition oldest_of (e : RiskEvent) (es : list RiskEvent) : RiskEvent :=
  fold_left (fun best x => if timestamp x <? timestamp best then x else best) es e.

Definition _calculate_staleness_penalty (events : list RiskEvent)
    (reference_time : datetime) : Q :=
  match events with
  | [] => (1 # 1)%Q
  | e :: es =>
      let oldest_event := oldest_of e es in
      let age_sec := total_seconds (reference_time - timestamp oldest_event) in
      if Qltb age_sec (staleness_fresh self) then (1 # 1)%Q
      else if Qltb age_sec (staleness_acceptable self) then (9 # 10)%Q
      else (7 # 10)%Q
  end.

(** [calculate_tcs(events, timestamp)]; [now] is the clock read when
    no reference time is passed. *)
Definition calculate_tcs (events : list RiskEvent) (timestamp : option datetime)
    (now : datetime) : ConfidenceBreakdown :=
  match events with
  | [] =>
      {| cb_finality_weight := (0 # 1)%Q; cb_chain_confidence := (0 # 1)%Q;
         cb_completeness := (0 # 1)%Q; cb_staleness_penalty := (1 # 1)%Q;
         cb_temporal_confidence := (0 # 1)%Q |}
  | _ =>
      let timestamp := default now timestamp in
      let finality_weight := _calculate_finality_weight events in
      let chain_confidence := _calculate_chain_confidence events in
      let completeness := _calculate_completeness events in
      let staleness_penalty := _calculate_staleness_penalty events timestamp in
      let temporal_confidence :=
        ((finality_weight * chain_confidence * completeness) / staleness_penalty)%Q in
      let temporal_confidence :=
        py_max2 (0 # 1)%Q (py_min2 (1 # 1)%Q temporal_confidence) in
      {| cb_finality_weight := finality_weight;
         cb_chain_confidence := chain_confidence;
         cb_completeness := completeness;
         cb_staleness_penalty := staleness_penalty;
         cb_temporal_confidence := temporal_confidence |}
  end.

Definition get_tcs_status (tcs : Q) : string :=
  if Qleb (9 # 10) tcs then "EXCELLENT"
  else if Qleb (8 # 10) tcs then "GOOD"
  else if Qleb (6 # 10) tcs then "MODERATE"
  else if Qleb (4 # 10) tcs then "LOW"
  else "POOR".

End Calculator.

End TCS.

(** ** Finality tracker (layer1_core/finality/tracker.py) *)

Module Finality.

(** What the chain answers while one refresh runs:
    [get_current_block_number()] and [check_block_exists(n)].  [None]
    is a raised exception. *)
Record Rpc : Type := mkRpc {
  get_current_block_number : option Z;
  check_block_exists : Z -> option bool
}.

(** The RPC methods of the three trackers of the repository raise
    [NotImplementedError]. *)
Definition not_implemented : Rpc :=
  {| get_current_block_number := None; check_block_exists := fun _ => None |}.

Record FinalityTracker : Type := mkFinalityTracker {
  chain_config : ChainConfig
}.

Section Tracker.
Variable self : FinalityTracker.

Definition calculate_finality_tier (confirmations : Z) : FinalityTier :=
  if tier3_confirmations (chain_config self) <=? confirmations then TIER3
  else if tier2_confirmations (chain_config self) <=? confirmations then TIER2
  else TIER1.

Definition get_finality_confidence (tier : FinalityTier) : Q :=
  match tier with
  | TIER1 => (3 # 10)%Q
  | TIER2 => (8 # 10)%Q
  | TIER3 => (1 # 1)%Q
  end.

Definition _update_offchain_finality (now : datetime) (event : RiskEvent) : RiskEvent :=
  let age := total_seconds (now - timestamp event) in
  if Qleb (inject_Z (tier3_time_sec (chain_config self))) age then
    let event := set_finality_tier (FinalityTier_value TIER3) event in
    let event := set_temporal_confidence (1 # 1)%Q event in
    let event := set_is_finalized true event in
    if is_not_None (finality_timestamp event) then event
    else set_finality_timestamp (Some now) event
  else if Qleb (inject_Z (tier2_time_sec (chain_config self))) age then
    let event := set_finality_tier (FinalityTier_value TIER2) event in
    set_temporal_confidence (8 # 10)%Q event
  else
    let event := set_finality_tier (FinalityTier_value TIER1) event in
    set_temporal_confidence (3 # 10)%Q event.

Definition update_event_finality (rpc : Rpc) (now : datetime) (event : RiskEvent)
    : RiskEvent :=
  match block_number event with
  | None => _update_offchain_finality now event
  | Some bn =>
      match get_current_block_number rpc with
      | None => event
      | Some current_block =>
          let confirmations := Z.max 0 (current_block - bn + 1) in
          match check_block_exists rpc bn with
          | None => event
          | Some false =>
              let event := set_invalidated true event in
              let event := set_reorg_detected_at (Some now) event in
              set_original_block_number (block_number event) event
          | Some true =>
              let event := set_confirmation_count confirmations event in
              let tier := calculate_finality_tier confirmations in
              let event := set_finality_tier (FinalityTier_value tier) event in
              let event := set_temporal_confidence (get_finality_confidence tier) event in
              if bool_decide (tier = TIER3) && negb (is_finalized event) then
                let event := set_is_finalized true event in
                set_finality_timestamp (Some now) event
              else event
          end
      end
  end.

End Tracker.

(** [FinalityTrackerRegistry]: one tracker per configured chain. *)
Definition trackers : gmap string FinalityTracker :=
  mkFinalityTracker <$> Config.CHAINS.

(** [FinalityTrackerRegistry.update_event_finality]; [world] gives the
    answers of each chain. *)
Definition registry_update_event_finality (world : string -> Rpc) (now : datetime)
    (event : RiskEvent) : RiskEvent :=
  match trackers !! chain event with
  | None => event
  | Some tracker => update_event_finality tracker (world (chain event)) now event
  end.

End Finality.

(** ** Reorg handler (layer3_multichain/reorg_handler/handler.py) *)

Module Reorg.

Record ReorgEvent : Type := mkReorgEvent {
  chain : string;
  timestamp : datetime;
  original_block : option Z;
  new_block : option Z;
  depth : Z;
  affected_events : list string
}.

Record ReorgHandler : Type := mkReorgHandler {
  reorg_history : gmap string (list ReorgEvent);
  event_versions : gmap string Z
}.

(** [ReorgHandler.__init__] *)
Definition reorg_handler : ReorgHandler :=
  {| reorg_history := <["ethereum" := []]> (<["arbitrum" := []]> (<["solana" := []]> ∅));
     event_versions := ∅ |}.

(** The test of the loop of [_find_replacement_event]. *)
Definition is_replacement_of (old_event new_event : RiskEvent) : bool :=
  bool_decide (coin new_event = coin old_event)
  && bool_decide (source new_event = source old_event)
  && Qltb (Qabs (total_seconds (Schema.timestamp new_event - Schema.timestamp old_event)))
          (60 # 1)%Q.

Definition _find_replacement_event (old_event : RiskEvent) (new_events : list RiskEvent)
    : option RiskEvent :=
  List.find (is_replacement_of old_event) new_events.

(** [self.event_versions.get(event_id, 1)] *)
Definition current_version (self : ReorgHandler) (id : string) : Z :=
  default 1 (event_versions self !! id).

Definition _create_correction_event (self : ReorgHandler) (old_event new_event : RiskEvent)
    : ReorgHandler * RiskEvent :=
  let new_version := current_version self (event_id old_event) + 1 in
  let self :=
    {| reorg_history := reorg_history self;
       event_versions := <[event_id old_event := new_version]> (event_versions self) |} in
  let d := RiskEvent_default (event_id old_event) (Schema.timestamp new_event) in
  let correction :=
    {| event_id := event_id old_event;
       event_version := new_version;
       Schema.timestamp := Schema.timestamp new_event;
       coin := coin new_event;
       Schema.chain := Schema.chain new_event;
       source := source new_event;
       price := price new_event;
       volume := volume new_event;
       liquidity_depth := liquidity_depth new_event;
       net_supply_change := net_supply_change new_event;
       market_volatility := market_volatility new_event;
       sentiment_score := sentiment_score new_event;
       block_number := block_number new_event;
       tx_hash := tx_hash new_event;
       confirmation_count := confirmation_count new_event;
       finality_tier := finality_tier new_event;
       is_finalized := false;
       invalidated := false;
       original_block_number := block_number old_event;
       finality_timestamp := finality_timestamp d;
       temporal_confidence := temporal_confidence d;
       window_id := window_id d;
       window_state := window_state d;
       window_start := window_start d;
       window_end := window_end d;
       replacement_event_id := replacement_event_id d;
       reorg_detected_at := reorg_detected_at d;
       is_outlier := is_outlier d;
       quality_score := quality_score d |} in
  (self, correction).

(** One turn of the loop of [handle_reorg] over [affected_events]:
    the handler, the invalidated event as the loop leaves it and the
    correction appended, if any. *)
Definition handle_one (now : datetime) (new_events : option (list RiskEvent))
    (self : ReorgHandler) (old_event : RiskEvent)
    : ReorgHandler * RiskEvent * option RiskEvent :=
  let old_event := set_invalidated true old_event in
  let old_event := set_reorg_detected_at (Some now) old_event in
  let replacement :=
    match new_events with
    | None | Some [] => None
    | Some news => _find_replacement_event old_event news
    end in
  match replacement with
  | Some replacement =>
      let '(self, correction) := _create_correction_event self old_event replacement in
      (self, set_replacement_event_id (Some (event_id correction)) old_event,
       Some correction)
  | None => (self, old_event, None)
  end.

(** The loop: handler, events as mutated, corrections in order. *)
Fixpoint handle_loop (now : datetime) (new_events : option (list RiskEvent))
    (self : ReorgHandler) (affected : list RiskEvent)
    : ReorgHandler * list RiskEvent * list RiskEvent :=
  match affected with
  | [] => (self, [], [])
  | old_event :: rest =>
      let '(self, old_event, correction) := handle_one now new_events self old_event in
      let '(self, rest, corrections) := handle_loop now new_events self rest in
      (self, old_event :: rest, from_option (fun c => c :: corrections) corrections correction)
  end.

Record Handled : Type := mkHandled {
  handler : ReorgHandler;          (* [self] after the call *)
  mutated : list RiskEvent;        (* [affected_events] after the call *)
  returned : option (list RiskEvent)  (* [None]: [KeyError] on [reorg_history[chain]] *)
}.

Definition handle_reorg (self : ReorgHandler) (now : datetime) (chain_name : string)
    (affected : list RiskEvent) (new_events : option (list RiskEvent)) : Handled :=
  let '(self, mutated_events, correction_events) :=
    handle_loop now new_events self affected in
  let reorg_record :=
    {| chain := chain_name;
       timestamp := now;
       original_block := match mutated_events with e :: _ => block_number e | [] => Some 0 end;
       new_block := match new_events with
                    | Some (e :: _) => block_number e
                    | _ => Some 0
                    end;
       depth := Z.of_nat (length affected);
       affected_events := event_id <$> mutated_events |} in
  match reorg_history self !! chain_name with
  | None => {| handler := self; mutated := mutated_events; returned := None |}
  | Some history =>
      {| handler :=
           {| reorg_history := <[chain_name := history ++ [reorg_record]]> (reorg_history self);
              event_versions := event_versions self |};
         mutated := mutated_events;
         returned := Some correction_events |}
  end.

Definition should_wait_for_finality (event : RiskEvent) (min_confirmations : Z) : bool :=
  match block_number event with
  | None => false
  | Some _ =>
      if is_finalized event then false
      else if confirmation_count event <? min_confirmations then true
      else false
  end.

End Reorg.

(** ** Block monitor (layer3_multichain/block_monitor/monitor.py) *)

Module Monitor.

Record BlockHeader : Type := mkBlockHeader {
  number : Z;
  hash : string;
  parent_hash : string;
  timestamp : Z
}.

(** The fields of [BlockMonitor] the fork handling reads or writes;
    the cache is looked up and cleared by height only, which a finite
    map gives. *)
Record BlockMonitor : Type := mkBlockMonitor {
  chain : string;
  block_cache : gmap Z BlockHeader;
  reorgs_detected : Z;
  last_reorg_time : option datetime;
  _event_store : list RiskEvent
}.

(** [get_block_header]: the headers the chain serves while the fork
    is handled ([None]: no such block, or the fetch failed). *)
Definition Chain : Type := Z -> option BlockHeader.

Section Monitor.
Variable live : Chain.

(** The test of the loop of [_find_fork_point] at one height. *)
Definition is_common_ancestor (self : BlockMonitor) (height : Z) : bool :=
  match block_cache self !! height with
  | None => false
  | Some cached_header =>
      match live height with
      | Some actual_header => bool_decide (hash actual_header = hash cached_header)
      | None => false
      end
  end.

(** [for height in range(start, stop, -1)] with [n] heights left. *)
Fixpoint backtrack (self : BlockMonitor) (n : nat) (height : Z) : option Z :=
  match n with
  | O => None
  | S n' =>
      if is_common_ancestor self height then Some height
      else backtrack self n' (height - 1)
  end.

Definition _find_fork_point (self : BlockMonitor) (start_height : Z) : Z :=
  let stop := Z.max 0 (start_height - 100) in
  match backtrack self (Z.to_nat (start_height - stop)) start_height with
  | Some height => height
  | None => Z.max 0 (start_height - 100)
  end.

(** The test of the loop of [_get_events_in_range]. *)
Definition in_range (self : BlockMonitor) (start_height end_height : Z) (event : RiskEvent)
    : bool :=
  match block_number event with
  | None => false
  | Some bn =>
      (start_height <=? bn) && (bn <=? end_height)
      && bool_decide (Schema.chain event = chain self)
  end.

Definition _get_events_in_range (self : BlockMonitor) (start_height end_height : Z)
    : list RiskEvent :=
  List.filter (in_range self start_height end_height) (_event_store self).

Definition register_event (self : BlockMonitor) (event : RiskEvent) : BlockMonitor :=
  if is_not_None (block_number event) && bool_decide (Schema.chain event = chain self)
  then {| chain := chain self; block_cache := block_cache self;
          reorgs_detected := reorgs_detected self;
          last_reorg_time := last_reorg_time self;
          _event_store := _event_store self ++ [event] |}
  else self.

(** [for height in range(start, end + 1): cache.pop(height, None)] *)
Definition _clear_cache_range (cache : gmap Z BlockHeader) (start end_ : Z)
    : gmap Z BlockHeader :=
  fold_left (fun c h => delete h c) (seqZ start (end_ + 1 - start)) cache.

(** The list [affected_events] that [_handle_fork] computes and, when
    it is not empty, passes to [reorg_handler.handle_reorg]. *)
Definition fork_affected_events (self : BlockMonitor) (fork_height : Z)
    : list RiskEvent :=
  let fork_point := _find_fork_point self fork_height in
  _get_events_in_range self fork_point fork_height.

(** The objects of the store are the ones the handler mutates: the
    events selected by [p] are replaced, in order, by their
    mutated versions. *)
Fixpoint write_back (p : RiskEvent -> bool) (store updated : list RiskEvent)
    : list RiskEvent :=
  match store with
  | [] => []
  | e :: store' =>
      if p e then
        match updated with
        | u :: updated' => u :: write_back p store' updated'
        | [] => e :: write_back p store' []
        end
      else e :: write_back p store' updated
  end.

(** [_handle_fork]; the boolean is [false] when the call is left by
    the [KeyError] of the handler, before the statistics and the
    cache are touched. *)
Definition _handle_fork (self : BlockMonitor) (handler : Reorg.ReorgHandler)
    (now : datetime) (fork_height : Z) (new_block : option BlockHeader)
    : BlockMonitor * Reorg.ReorgHandler * bool :=
  let fork_point := _find_fork_point self fork_height in
  let affected_events := _get_events_in_range self fork_point fork_height in
  let '(handler, store, completed) :=
    match affected_events with
    | [] => (handler, _event_store self, true)
    | _ =>
        let new_events : option (list RiskEvent) := None in
        let r := Reorg.handle_reorg handler now (chain self) affected_events new_events in
        (Reorg.handler r,
         write_back (in_range self fork_point fork_height) (_event_store self)
           (Reorg.mutated r),
         is_not_None (Reorg.returned r))
    end in
  if completed then
    ({| chain := chain self;
        block_cache := _clear_cache_range (block_cache self) fork_point fork_height;
        reorgs_detected := reorgs_detected self + 1;
        last_reorg_time := Some now;
        _event_store := store |}, handler, true)
  else
    ({| chain := chain self;
        block_cache := block_cache self;
        reorgs_detected := reorgs_detected self;
        last_reorg_time := last_reorg_time self;
        _event_store := store |}, handler, false).

End Monitor.

End Monitor.

(** ** Snapshots (common/schema.py, [AggregatedRiskSnapshot]) *)

Module Snapshot.

(** [snapshot_id] is a fresh UUID and is left out. *)
Record AggregatedRiskSnapshot : Type := mkAggregatedRiskSnapshot {
  timestamp : datetime;
  coin : string;
  chains : list string;
  window_id : string;
  window_state : string;
  avg_price : option Q;
  min_price : option Q;
  max_price : option Q;
  total_liquidity : option Q;
  total_volume : option Q;
  net_supply_change : option Q;
  market_volatility : option Q;
  sentiment_score : option Q;
  temporal_confidence : Q;
  confidence_breakdown : option (gmap string Q);
  num_events_aggregated : Z;
  sources_included : list string;
  event_ids : list string;
  is_depegged : bool;
  depeg_severity : option Q
}.

(** [AggregatedRiskSnapshot(window_id=.., window_state=.., timestamp=..)] *)
Definition empty (id state : string) (now : datetime) : AggregatedRiskSnapshot :=
  {| timestamp := now; coin := ""; chains := []; window_id := id; window_state := state;
     avg_price := None; min_price := None; max_price := None;
     total_liquidity := None; total_volume := None; net_supply_change := None;
     market_volatility := None; sentiment_score := None;
     temporal_confidence := (0 # 1)%Q; confidence_breakdown := None;
     num_events_aggregated := 0; sources_included := []; event_ids := [];
     is_depegged := false; depeg_severity := None |}.

(** [sum(xs) / len(xs) if xs else None] and its siblings. *)
Definition mean_or_None (xs : list Q) : option Q :=
  match xs with
  | [] => None
  | _ => Some (py_sum xs / inject_Z (Z.of_nat (length xs)))%Q
  end.
Definition sum_or_None (xs : list Q) : option Q :=
  match xs with [] => None | _ => Some (py_sum xs) end.
Definition min_or_None (xs : list Q) : option Q :=
  match xs with [] => None | x :: xs' => Some (py_min x xs') end.
Definition max_or_None (xs : list Q) : option Q :=
  match xs with [] => None | x :: xs' => Some (py_max x xs') end.

(** [list(set(xs))]; the order of the result is the set's. *)
Definition distinct (xs : list string) : list string :=
  elements (list_to_set xs : gset string).

End Snapshot.

(** ** Window state machine (layer1_core/pipeline/window_manager.py) *)

Module Window.

Record TimeWindow : Type := mkTimeWindow {
  window_id : string;
  window_start : datetime;
  window_end : datetime;
  state : WindowState;
  events : list RiskEvent;
  opened_at : datetime;
  closed_at : option datetime;
  provisional_at : option datetime;
  finalized_at : option datetime;
  snapshot : option Snapshot.AggregatedRiskSnapshot
}.

(** [TimeWindow.__init__] *)
Definition new_window (id : string) (start end_ now : datetime) : TimeWindow :=
  {| window_id := id; window_start := start; window_end := end_; state := OPEN;
     events := []; opened_at := now; closed_at := None; provisional_at := None;
     finalized_at := None; snapshot := None |}.

Definition with_state (s : WindowState) (evs : list RiskEvent) (self : TimeWindow)
    : TimeWindow :=
  {| window_id := window_id self; window_start := window_start self;
     window_end := window_end self; state := s; events := evs;
     opened_at := opened_at self; closed_at := closed_at self;
     provisional_at := provisional_at self; finalized_at := finalized_at self;
     snapshot := snapshot self |}.

Definition add_event (self : TimeWindow) (event : RiskEvent) : TimeWindow :=
  if bool_decide (state self = OPEN) then
    let event := set_window_id (window_id self) event in
    let event := set_window_state (WindowState_value (state self)) event in
    let event := set_window_start (Some (window_start self)) event in
    let event := set_window_end (Some (window_end self)) event in
    with_state (state self) (events self ++ [event]) self
  else self.

Definition is_expired (self : TimeWindow) (current_time : datetime) : bool :=
  window_end self <=? current_time.

Definition can_transition_to_provisional (self : TimeWindow) (current_time : datetime)
    : bool :=
  if negb (bool_decide (state self = OPEN)) then false
  else if negb (is_expired self current_time) then false
  else
    let delay := timedelta_seconds Config.provisional_delay_sec in
    window_end self + delay <=? current_time.

Definition can_transition_to_final (self : TimeWindow) (current_time : datetime) : bool :=
  if negb (bool_decide (state self = PROVISIONAL)) then false
  else
    let delay := timedelta_seconds Config.finalization_delay_sec in
    window_end self + delay <=? current_time.

Definition all_events_finalized (self : TimeWindow) : bool :=
  match events self with
  | [] => true
  | evs => forallb (fun e => is_finalized e || invalidated e) evs
  end.

Definition transition_to_provisional (self : TimeWindow) (now : datetime) : TimeWindow :=
  {| window_id := window_id self; window_start := window_start self;
     window_end := window_end self; state := PROVISIONAL;
     events := set_window_state (WindowState_value PROVISIONAL) <$> events self;
     opened_at := opened_at self; closed_at := Some now;
     provisional_at := Some now; finalized_at := finalized_at self;
     snapshot := snapshot self |}.

Definition _generate_snapshot (self : TimeWindow) (now : datetime)
    : Snapshot.AggregatedRiskSnapshot :=
  let valid_events := List.filter (fun e => negb (invalidated e)) (events self) in
  match valid_events with
  | [] => Snapshot.empty (window_id self) (WindowState_value FINAL) now
  | first :: _ =>
      let coin := coin first in
      let chains := Snapshot.distinct (chain <$> valid_events) in
      let sources := Snapshot.distinct (source <$> valid_events) in
      let prices := omap price valid_events in
      let liquidities := omap liquidity_depth valid_events in
      let volumes := omap volume valid_events in
      let supply_changes := omap net_supply_change valid_events in
      let volatilities := omap market_volatility valid_events in
      let sentiments := omap sentiment_score valid_events in
      let avg_price := Snapshot.mean_or_None prices in
      let tcs_breakdown := TCS.calculate_tcs TCS.tcs_calculator valid_events None now in
      let '(is_depegged, depeg_severity) :=
        match avg_price with
        | Some p =>
            let depeg_distance := Qabs (p - 1) in
            match Config.COINS !! coin with
            | Some cfg => (Qleb (depeg_threshold cfg) depeg_distance, Some depeg_distance)
            | None => (false, None)
            end
        | None => (false, None)
        end in
      {| Snapshot.timestamp := now;
         Snapshot.coin := coin;
         Snapshot.chains := chains;
         Snapshot.window_id := window_id self;
         Snapshot.window_state := WindowState_value FINAL;
         Snapshot.avg_price := avg_price;
         Snapshot.min_price := Snapshot.min_or_None prices;
         Snapshot.max_price := Snapshot.max_or_None prices;
         Snapshot.total_liquidity := Snapshot.sum_or_None liquidities;
         Snapshot.total_volume := Snapshot.sum_or_None volumes;
         Snapshot.net_supply_change := Snapshot.sum_or_None supply_changes;
         Snapshot.market_volatility := Snapshot.max_or_None volatilities;
         Snapshot.sentiment_score := Snapshot.mean_or_None sentiments;
         Snapshot.temporal_confidence := cb_temporal_confidence tcs_breakdown;
         Snapshot.confidence_breakdown :=
           Some (<["finality_weight" := cb_finality_weight tcs_breakdown]>
                (<["chain_confidence" := cb_chain_confidence tcs_breakdown]>
                (<["completeness" := cb_completeness tcs_breakdown]>
                (<["staleness_penalty" := cb_staleness_penalty tcs_breakdown]> ∅))));
         Snapshot.num_events_aggregated := Z.of_nat (length valid_events);
         Snapshot.sources_included := sources;
         Snapshot.event_ids := event_id <$> valid_events;
         Snapshot.is_depegged := is_depegged;
         Snapshot.depeg_severity := depeg_severity |}
  end.

Definition transition_to_final (self : TimeWindow) (now : datetime) : TimeWindow :=
  let self :=
    {| window_id := window_id self; window_start := window_start self;
       window_end := window_end self; state := FINAL;
       events := set_window_state (WindowState_value FINAL) <$> events self;
       opened_at := opened_at self; closed_at := closed_at self;
       provisional_at := provisional_at self; finalized_at := Some now;
       snapshot := snapshot self |} in
  {| window_id := window_id self; window_start := window_start self;
     window_end := window_end self; state := state self; events := events self;
     opened_at := opened_at self; closed_at := closed_at self;
     provisional_at := provisional_at self; finalized_at := finalized_at self;
     snapshot := Some (_generate_snapshot self now) |}.

(** [WindowManager._update_window_finality]: the refreshes gathered
    for the events that are neither finalized nor invalidated; each
    task writes its own event. *)
Definition _update_window_finality (world : string -> Finality.Rpc) (now : datetime)
    (window : TimeWindow) : TimeWindow :=
  with_state (state window)
    ((fun event =>
        if negb (is_finalized event) && negb (invalidated event)
        then Finality.registry_update_event_finality world now event
        else event) <$> events window)
    window.

(** [WindowManager._process_window] *)
Definition _process_window (world : string -> Finality.Rpc) (now : datetime)
    (window : TimeWindow) (current_time : datetime) : TimeWindow :=
  let window :=
    if can_transition_to_provisional window current_time
    then transition_to_provisional window now else window in
  let window :=
    if bool_decide (state window = PROVISIONAL)
    then _update_window_finality world now window else window in
  if can_transition_to_final window current_time then
    if all_events_finalized window then transition_to_final window now
    else window
  else window.

End Window.

(** ** Cross-chain aggregator (layer3_multichain/cross_chain/aggregator.py) *)

Module Aggregator.

(** The dictionary [events_by_chain] in the order of its iteration. *)
Definition items (events_by_chain : gmap string (list RiskEvent))
    : list (string * list RiskEvent) :=
  map_to_list events_by_chain.

Definition _calculate_chain_confidence (events_by_chain : gmap string (list RiskEvent))
    : Q :=
  let chain_confidences :=
    omap (fun kv : string * list RiskEvent =>
            match get_confidence_tier_value <$> snd kv with
            | [] => None
            | c :: cs => Some (py_min c cs)
            end) (items events_by_chain) in
  match chain_confidences with
  | [] => (0 # 1)%Q
  | c :: cs => py_min c cs
  end.

Definition aggregate_cross_chain (events_by_chain : gmap string (list RiskEvent))
    (window_id coin : string) (now : datetime) : option Snapshot.AggregatedRiskSnapshot :=
  match items events_by_chain with
  | [] => None
  | _ =>
      let all_events := concat ((items events_by_chain).*2) in
      match all_events with
      | [] => None
      | _ =>
          let tcs_breakdown := TCS.calculate_tcs TCS.tcs_calculator all_events None now in
          let chain_confidence := _calculate_chain_confidence events_by_chain in
          let adjusted_tcs := (cb_temporal_confidence tcs_breakdown * chain_confidence)%Q in
          let prices := omap price all_events in
          let liquidities := omap liquidity_depth all_events in
          let volumes := omap volume all_events in
          let supply_changes := omap net_supply_change all_events in
          let volatilities := omap market_volatility all_events in
          let sentiments := omap sentiment_score all_events in
          let avg_price := Snapshot.mean_or_None prices in
          let '(is_depegged, depeg_severity) :=
            match avg_price with
            | Some p =>
                if Qeq_bool p (0 # 1) then (false, None)
                else
                  let depeg_distance := Qabs (p - 1) in
                  match Config.COINS !! coin with
                  | Some cfg =>
                      (Qleb (depeg_threshold cfg) depeg_distance, Some depeg_distance)
                  | None => (false, None)
                  end
            | None => (false, None)
            end in
          Some
            {| Snapshot.timestamp := now;
               Snapshot.coin := coin;
               Snapshot.chains := (items events_by_chain).*1;
               Snapshot.window_id := window_id;
               Snapshot.window_state := WindowState_value PROVISIONAL;
               Snapshot.avg_price := avg_price;
               Snapshot.min_price := Snapshot.min_or_None prices;
               Snapshot.max_price := Snapshot.max_or_None prices;
               Snapshot.total_liquidity := Snapshot.sum_or_None liquidities;
               Snapshot.total_volume := Snapshot.sum_or_None volumes;
               Snapshot.net_supply_change := Snapshot.sum_or_None supply_changes;
               Snapshot.market_volatility := Snapshot.max_or_None volatilities;
               Snapshot.sentiment_score := Snapshot.mean_or_None sentiments;
               Snapshot.temporal_confidence := adjusted_tcs;
               Snapshot.confidence_breakdown :=
                 Some (<["finality_weight" := cb_finality_weight tcs_breakdown]>
                      (<["chain_confidence" := chain_confidence]>
                      (<["completeness" := cb_completeness tcs_breakdown]>
                      (<["staleness_penalty" := cb_staleness_penalty tcs_breakdown]>
                      (<["adjusted_tcs" := adjusted_tcs]> ∅)))));
               Snapshot.num_events_aggregated := Z.of_nat (length all_events);
               Snapshot.sources_included := Snapshot.distinct (source <$> all_events);
               Snapshot.event_ids := event_id <$> all_events;
               Snapshot.is_depegged := is_depegged;
               Snapshot.depeg_severity := depeg_severity |}
      end
  end.

End Aggregator.

(** ** Data quality pipeline (layer1_core/quality/pipeline.py) *)

Module Quality.

(** *** Strings and number formatting *)

Definition ascii_upper (c : ascii) : ascii :=
  let n := Ascii.nat_of_ascii c in
  if ((97 <=? n) && (n <=? 122))%nat then Ascii.ascii_of_nat (n - 32) else c.

Definition ascii_lower (c : ascii) : ascii :=
  let n := Ascii.nat_of_ascii c in
  if ((65 <=? n) && (n <=? 90))%nat then Ascii.ascii_of_nat (n + 32) else c.

Fixpoint string_map (f : ascii -> ascii) (s : string) : string :=
  match s with
  | EmptyString => EmptyString
  | String c s' => String (f c) (string_map f s')
  end.

Definition upper : string -> string := string_map ascii_upper.
Definition lower : string -> string := string_map ascii_lower.

(** The integer nearest to a non-negative rational, ties to even. *)
Definition round_half_even (q : Q) : Z :=
  let n := Qnum q in
  let d := Z.pos (Qden q) in
  let fl := n / d in
  let r2 := 2 * (n mod d) in
  if r2 <? d then fl
  else if d <? r2 then fl + 1
  else if Z.even fl then fl else fl + 1.

Fixpoint zeros (n : nat) : string :=
  match n with O => "" | S n' => String "0" (zeros n') end.

(** [f"{x:.<digits>f}"] for [digits > 0]. *)
Definition format_fixed (digits : nat) (x : Q) : string :=
  let scale := 10 ^ Z.of_nat digits in
  let n := round_half_even (Qabs x * inject_Z scale)%Q in
  let frac := pretty (n mod scale) in
  (if Qltb x (0 # 1) then "-" else "")
  +:+ pretty (n / scale) +:+ "." +:+ zeros (digits - String.length frac) +:+ frac.

(** *** Statistics *)

(** [statistics.mean] *)
Definition mean (xs : list Q) : Q := (py_sum xs / inject_Z (Z.of_nat (length xs)))%Q.

(** [statistics.variance]: the sample variance, so that
    [statistics.stdev(xs)] is its square root. *)
Definition variance (xs : list Q) : Q :=
  let m := mean xs in
  (py_sum ((fun x => (x - m) * (x - m)) <$> xs)
   / inject_Z (Z.of_nat (length xs) - 1))%Q.

(** [stdev > 0], on the variance. *)
Definition stdev_positive (xs : list Q) : bool := Qltb (0 # 1) (variance xs).

(** [abs(x - mean) / stdev > threshold] for [stdev > 0], with both
    sides squared so that no square root is taken: for a negative
    threshold the test holds, otherwise it is
    [(x - mean)^2 > threshold^2 * variance]. *)
Definition z_score_exceeds (xs : list Q) (x threshold : Q) : bool :=
  if Qltb threshold (0 # 1) then true
  else Qltb (threshold * threshold * variance xs) ((x - mean xs) * (x - mean xs)).

(** *** The pipeline *)

Record DataQualityPipeline : Type := mkDataQualityPipeline {
  dedup_window_sec : Z;
  seen_events : gmap string datetime;
  outlier_threshold : Q;
  price_min : Q;
  price_max : Q
}.

(** [DataQualityPipeline.__init__] *)
Definition quality_pipeline : DataQualityPipeline :=
  {| dedup_window_sec := Config.dedup_window_sec;
     seen_events := ∅;
     outlier_threshold := Config.outlier_z_threshold;
     price_min := fst Config.price_bounds;
     price_max := snd Config.price_bounds |}.

Definition with_seen_events (seen : gmap string datetime) (self : DataQualityPipeline)
    : DataQualityPipeline :=
  {| dedup_window_sec := dedup_window_sec self; seen_events := seen;
     outlier_threshold := outlier_threshold self;
     price_min := price_min self; price_max := price_max self |}.

Section Pipeline.
Variable self : DataQualityPipeline.

(** The body of the loop of [_normalize_events].  The timestamp is
    already the naive wall-clock value, which dropping a time zone
    leaves as it is. *)
Definition normalize_event (event : RiskEvent) : RiskEvent :=
  let event := set_coin (if truthy (coin event) then upper (coin event) else "") event in
  let event := set_chain (if truthy (chain event) then lower (chain event) else "") event in
  let event :=
    match price event with
    | Some p =>
        if Qltb p (price_min self) then set_price (Some (price_min self)) event
        else if Qltb (price_max self) p then set_price (Some (price_max self)) event
        else event
    | None => event
    end in
  set_quality_score (1 # 1)%Q event.

Definition _normalize_events (events : list RiskEvent) : list RiskEvent :=
  normalize_event <$> events.

Definition _event_signature (event : RiskEvent) : string :=
  String.concat "|"
    [ coin event; chain event; source event;
      from_option (format_fixed 6) "none" (price event);
      from_option (format_fixed 2) "none" (liquidity_depth event);
      from_option (format_fixed 2) "none" (volume event) ].

(** The loop of [_deduplicate_events]: the events kept and the
    dictionary of signatures as the loop leaves it. *)
Fixpoint dedup_loop (dedup_window : timedelta) (seen : gmap string datetime)
    (events : list RiskEvent) : list RiskEvent * gmap string datetime :=
  match events with
  | [] => ([], seen)
  | event :: rest =>
      let signature := _event_signature event in
      let duplicate :=
        match seen !! signature with
        | Some last_seen => timestamp event - last_seen <? dedup_window
        | None => false
        end in
      if duplicate then dedup_loop dedup_window seen rest
      else
        let '(unique_events, seen) :=
          dedup_loop dedup_window (<[signature := timestamp event]> seen) rest in
        (event :: unique_events, seen)
  end.

Definition _deduplicate_events (now : datetime) (events : list RiskEvent)
    : list RiskEvent * gmap string datetime :=
  let dedup_window := timedelta_seconds (dedup_window_sec self) in
  let current_time := now in
  let cutoff_time := current_time - dedup_window in
  let seen := filter (fun '(_, ts) => cutoff_time < ts) (seen_events self) in
  dedup_loop dedup_window seen events.

(** [event.is_outlier = True; event.quality_score *= 0.5] *)
Definition penalize (event : RiskEvent) : RiskEvent :=
  let event := set_is_outlier true event in
  set_quality_score (quality_score event * (5 # 10))%Q event.

(** The objects of a market are those of the batch: a market is the
    list of the positions of its events in the batch, and the loops
    below write the batch at these positions. *)
Definition values_at (metric : RiskEvent -> option Q) (store : list RiskEvent)
    (idxs : list nat) : list Q :=
  omap (fun i => store !! i ≫= metric) idxs.

(** One turn of the inner loop [for event in events] of a metric. *)
Definition flag_step (metric : RiskEvent -> option Q) (values : list Q)
    (store : list RiskEvent) (i : nat) : list RiskEvent :=
  match store !! i with
  | Some event =>
      match metric event with
      | Some x =>
          if z_score_exceeds values x (outlier_threshold self)
          then <[i := penalize event]> store
          else store
      | None => store
      end
  | None => store
  end.

(** The block of one metric in [_detect_outliers_in_market]. *)
Definition metric_pass (metric : RiskEvent -> option Q) (store : list RiskEvent)
    (idxs : list nat) : list RiskEvent :=
  let values := values_at metric store idxs in
  if (3 <=? length values)%nat then
    if stdev_positive values then fold_left (flag_step metric values) idxs store
    else store
  else store.

Definition _detect_outliers_in_market (store : list RiskEvent) (idxs : list nat)
    : list RiskEvent :=
  if (length idxs <? 3)%nat then store
  else
    let store := metric_pass price store idxs in
    metric_pass liquidity_depth store idxs.

(** [markets[(event.coin, event.chain)].append(event)] *)
Definition markets_step (markets : gmap (string * string) (list nat))
    (ie : nat * RiskEvent) : gmap (string * string) (list nat) :=
  let key := (coin ie.2, chain ie.2) in
  <[key := default [] (markets !! key) ++ [ie.1]]> markets.

(** [_detect_outliers]: the markets hold disjoint positions of the
    batch and are visited in the order of the finite map. *)
Definition _detect_outliers (events : list RiskEvent) : list RiskEvent :=
  if (length events <? 3)%nat then events
  else
    let markets := fold_left markets_step (imap pair events) ∅ in
    fold_left (fun store kv => _detect_outliers_in_market store kv.2)
      (map_to_list markets) events.

(** [process_events]: the batch returned and the pipeline with its
    dictionary of signatures updated. *)
Definition process_events (now : datetime) (events : list RiskEvent)
    : list RiskEvent * DataQualityPipeline :=
  match events with
  | [] => ([], self)
  | _ =>
      let events := _normalize_events events in
      let '(events, seen) := _deduplicate_events now events in
      let events := _detect_outliers events in
      (events, with_seen_events seen self)
  end.

End Pipeline.

End Quality.

(** ** Calendar dates and ISO strings *)

(** The civil date [(year, month, day)] of a day counted from
    1970-01-01, in the proleptic Gregorian calendar. *)
Definition civil_from_days (z : Z) : Z * Z * Z :=
  let z := z + 719468 in
  let era := z / 146097 in
  let doe := z - era * 146097 in
  let yoe := (doe - doe / 1460 + doe / 36524 - doe / 146096) / 365 in
  let y := yoe + era * 400 in
  let doy := doe - (365 * yoe + yoe / 4 - yoe / 100) in
  let mp := (5 * doy + 2) / 153 in
  let d := doy - (153 * mp + 2) / 5 + 1 in
  let m := if mp <? 10 then mp + 3 else mp - 9 in
  (if m <=? 2 then y + 1 else y, m, d).

(** [f"{n:0<width>d}"] for [n >= 0]. *)
Definition pad (width : nat) (n : Z) : string :=
  Quality.zeros (width - String.length (pretty n)) +:+ pretty n.

(** [datetime.isoformat()] of a naive datetime (years 1 to 9999). *)
Definition isoformat (t : datetime) : string :=
  let '(y, m, d) := civil_from_days (t / 86400000000) in
  let rem := t mod 86400000000 in
  let secs := rem / 1000000 in
  let us := rem mod 1000000 in
  pad 4 y +:+ "-" +:+ pad 2 m +:+ "-" +:+ pad 2 d +:+ "T"
  +:+ pad 2 (secs / 3600) +:+ ":" +:+ pad 2 (secs mod 3600 / 60) +:+ ":"
  +:+ pad 2 (secs mod 60)
  +:+ (if us =? 0 then "" else "." +:+ pad 6 us).
Arguments isoformat : simpl never.

(** [datetime.utcfromtimestamp(n)] for an integer [n]. *)
Definition utcfromtimestamp (n : Z) : datetime := n * 1000000.

(** [timedelta(hours=n)] *)
Definition timedelta_hours (n : Z) : timedelta := n * 3600000000.

(** [timedelta(minutes=n)] *)
Definition timedelta_minutes (n : Z) : timedelta := n * 60000000.

(** ** Methods of [RiskEvent] (common/schema.py) *)

Module Event.

(** [RiskEvent.is_stale(max_age_sec)]; [now] is the clock the call reads. *)
Definition is_stale (now : datetime) (self : RiskEvent) (max_age_sec : Z) : bool :=
  let age := total_seconds (now - timestamp self) in
  Qltb (inject_Z max_age_sec) age.

(** [RiskEvent.should_attest(min_tcs)] *)
Definition should_attest (self : RiskEvent) (min_tcs : Q) : bool :=
  Qleb min_tcs (temporal_confidence self)
  && bool_decide (finality_tier self ∈ [FinalityTier_value TIER2; FinalityTier_value TIER3])
  && negb (invalidated self).

End Event.

(** ** TCS calculator, continued (layer1_core/tcs/calculator.py) *)

Module Calculator.

(** [TCSCalculator.update_event_tcs]: the event with its TCS written
    and, beside it, the dictionary stored in [confidence_breakdown],
    a field the event record leaves out. *)
Definition update_event_tcs (self : TCS.TCSCalculator) (now : datetime)
    (event : RiskEvent) : RiskEvent * gmap string Q :=
  let breakdown := TCS.calculate_tcs self [event] None now in
  let event := set_temporal_confidence (cb_temporal_confidence breakdown) event in
  (event,
   <["finality_weight" := cb_finality_weight breakdown]>
     (<["chain_confidence" := cb_chain_confidence breakdown]>
     (<["completeness" := cb_completeness breakdown]>
     (<["staleness_penalty" := cb_staleness_penalty breakdown]> ∅)))).

(** [TCSCalculator.should_attest]; [self.tcs_config] is [config.TCS_CONFIG]. *)
Definition should_attest (tcs : Q) : bool := Qleb Config.attestation_threshold tcs.

End Calculator.

(** ** Registry of finality trackers (layer1_core/finality/tracker.py) *)

Module Registry.

(** [FinalityTrackerRegistry.get_tracker] *)
Definition get_tracker (chain : string) : option Finality.FinalityTracker :=
  Finality.trackers !! chain.

(** [not e.is_finalized and not e.invalidated] *)
Definition unfinalized (e : RiskEvent) : bool :=
  negb (is_finalized e) && negb (invalidated e).

(** One turn of the loop of [monitor_finality_upgrades]: the gathered
    refreshes of the unfinalized events; each task writes its own event. *)
Definition refresh_unfinalized (world : string -> Finality.Rpc) (now : datetime)
    (events : list RiskEvent) : list RiskEvent :=
  (fun e => if unfinalized e then Finality.registry_update_event_finality world now e
            else e) <$> events.

(** [monitor_finality_upgrades]: [rounds] gives, for each turn of the
    loop, the answers of the chains and the clock.  [Some events]: the
    loop is left with the events as they are then; [None]: the loop is
    still running when the rounds are used up. *)
Fixpoint monitor_finality_upgrades (rounds : list ((string -> Finality.Rpc) * datetime))
    (events : list RiskEvent) : option (list RiskEvent) :=
  match List.filter unfinalized events with
  | [] => Some events
  | _ =>
      match rounds with
      | [] => None
      | (world, now) :: rounds' =>
          monitor_finality_upgrades rounds' (refresh_unfinalized world now events)
      end
  end.

End Registry.

(** ** Window manager (layer1_core/pipeline/window_manager.py) *)

Module Manager.

(** [WindowManager]; [current_window] is written and never read, and
    is left out. *)
Record WindowManager : Type := mkWindowManager {
  window_size_sec : Z;
  windows : gmap string Window.TimeWindow
}.

(** [WindowManager.__init__] *)
Definition new_manager (window_size_sec : Z) : WindowManager :=
  {| window_size_sec := window_size_sec; windows := ∅ |}.

Definition with_windows (ws : gmap string Window.TimeWindow) (self : WindowManager)
    : WindowManager :=
  {| window_size_sec := window_size_sec self; windows := ws |}.

Section Zone.

(** The offset from UTC, in seconds, of the local time zone of the
    process: [timestamp.timestamp()] reads a naive datetime as local
    time. *)
Variable utc_offset : Z.

(** [int(timestamp.timestamp())]: the conversion truncates towards
    zero.  The float that [timestamp()] returns resolves microseconds
    up to 2^33 seconds after the epoch; for later times it can round up
    to the next second, which this exact quotient does not follow. *)
Definition epoch (timestamp : datetime) : Z :=
  Z.quot (timestamp - utc_offset * 1000000) 1000000.

(** [(epoch // self.window_size_sec) * self.window_size_sec] *)
Definition window_start_epoch (self : WindowManager) (timestamp : datetime) : Z :=
  epoch timestamp / window_size_sec self * window_size_sec self.

(** [get_window_id]; [None] is the [ZeroDivisionError] of a window
    size of zero. *)
Definition get_window_id (self : WindowManager) (timestamp : datetime) : option string :=
  if decide (window_size_sec self = 0) then None
  else Some (isoformat (utcfromtimestamp (window_start_epoch self timestamp))).

(** [get_or_create_window]: the manager and the key under which it
    holds the window returned; [now] is the clock read by
    [TimeWindow.__init__]. *)
Definition get_or_create_window (self : WindowManager) (now : datetime)
    (timestamp : datetime) : option (WindowManager * string) :=
  window_id ← get_window_id self timestamp;
  match windows self !! window_id with
  | Some _ => Some (self, window_id)
  | None =>
      let window_start := utcfromtimestamp (window_start_epoch self timestamp) in
      let window_end := window_start + timedelta_seconds (window_size_sec self) in
      let window := Window.new_window window_id window_start window_end now in
      Some (with_windows (<[window_id := window]> (windows self)) self, window_id)
  end.

(** [WindowManager.add_event] *)
Definition add_event (self : WindowManager) (now : datetime) (event : RiskEvent)
    : option WindowManager :=
  '(self, window_id) ← get_or_create_window self now (timestamp event);
  window ← windows self !! window_id;
  Some (with_windows (<[window_id := Window.add_event window event]> (windows self)) self).

End Zone.

(** One turn of the loop of [run_state_machine]: every window is
    processed at the clock reading [current_time]. *)
Definition run_state_machine_turn (world : string -> Finality.Rpc)
    (current_time : datetime) (self : WindowManager) : WindowManager :=
  with_windows
    ((fun window => Window._process_window world current_time window current_time)
       <$> windows self)
    self.

(** [get_finalized_snapshots]; a snapshot object is truthy. *)
Definition get_finalized_snapshots (self : WindowManager)
    : list Snapshot.AggregatedRiskSnapshot :=
  omap (fun kv : string * Window.TimeWindow =>
          if bool_decide (Window.state kv.2 = FINAL) then Window.snapshot kv.2 else None)
       (map_to_list (windows self)).

(** The test of the loop of [cleanup_old_windows]; [None] is the
    [TypeError] of comparing a [finalized_at] that is [None]. *)
Definition is_old (cutoff : datetime) (window : Window.TimeWindow) : option bool :=
  if bool_decide (Window.state window = FINAL) then
    match Window.finalized_at window with
    | Some t => Some (t <? cutoff)
    | None => None
    end
  else Some false.

(** [cleanup_old_windows(max_age_hours)] *)
Definition cleanup_old_windows (self : WindowManager) (now : datetime)
    (max_age_hours : Z) : option WindowManager :=
  let cutoff := now - timedelta_hours max_age_hours in
  to_remove ←
    mapM (fun kv : string * Window.TimeWindow =>
            old ← is_old cutoff kv.2; Some (if old : bool then [kv.1] else []))
         (map_to_list (windows self));
  Some (with_windows (foldr delete (windows self) (concat to_remove)) self).

End Manager.

(** ** Reorg statistics (layer3_multichain/reorg_handler/handler.py) *)

Module Stats.

(** [ReorgHandler.detect_reorg] *)
Definition detect_reorg (chain : string) (expected_block actual_block : Z) : bool :=
  negb (bool_decide (expected_block = actual_block)).

(** The dictionary returned by [get_reorg_stats]; the key
    [latest_reorg] is absent when the chain has no reorg on record. *)
Record ReorgStats : Type := mkReorgStats {
  chain : string;
  reorg_count : Z;
  total_affected_events : Z;
  max_depth : Z;
  latest_reorg : option string
}.

(** [sum(xs)] and [max(xs)] over integers. *)
Definition sum_Z (xs : list Z) : Z := fold_left Z.add xs 0.
Definition max_Z (x : Z) (xs : list Z) : Z := fold_left Z.max xs x.

Definition get_reorg_stats (self : Reorg.ReorgHandler) (chain_name : string) : ReorgStats :=
  let reorgs := default [] (Reorg.reorg_history self !! chain_name) in
  match reorgs with
  | [] =>
      {| chain := chain_name; reorg_count := 0; total_affected_events := 0;
         max_depth := 0; latest_reorg := None |}
  | r :: rs =>
      {| chain := chain_name;
         reorg_count := Z.of_nat (length reorgs);
         total_affected_events :=
           sum_Z ((fun r => Z.of_nat (length (Reorg.affected_events r))) <$> reorgs);
         max_depth := max_Z (Reorg.depth r) (Reorg.depth <$> rs);
         latest_reorg := isoformat <$> (Reorg.timestamp <$> last reorgs) |}
  end.

(** [get_all_reorg_stats] *)
Definition get_all_reorg_stats (self : Reorg.ReorgHandler) : list (string * ReorgStats) :=
  (fun chain_name => (chain_name, get_reorg_stats self chain_name))
    <$> ["ethereum"; "arbitrum"; "solana"].

End Stats.

(** ** Block cache and polling (layer3_multichain/block_monitor/monitor.py) *)

Module Cache.

(** The [OrderedDict] of cached headers, oldest insertion first. *)
Definition OrderedDict : Type := list (Z * Monitor.BlockHeader).

(** [cache[key] = value]: a key already present keeps its place. *)
Fixpoint setitem (key : Z) (value : Monitor.BlockHeader) (cache : OrderedDict)
    : OrderedDict :=
  match cache with
  | [] => [(key, value)]
  | (k, v) :: rest =>
      if decide (k = key) then (key, value) :: rest
      else (k, v) :: setitem key value rest
  end.

(** [while len(cache) > max_cache_size: cache.popitem(last=False)];
    [None] is the [KeyError] of popping from an empty dictionary. *)
Fixpoint evict (max_cache_size : Z) (cache : OrderedDict) : option OrderedDict :=
  if max_cache_size <? Z.of_nat (length cache) then
    match cache with
    | [] => None
    | _ :: rest => evict max_cache_size rest
    end
  else Some cache.

(** [BlockMonitor._add_to_cache] *)
Definition _add_to_cache (max_cache_size : Z) (cache : OrderedDict)
    (header : Monitor.BlockHeader) : option OrderedDict :=
  evict max_cache_size (setitem (Monitor.number header) header cache).

(** The cache as the fork handling reads it: by height. *)
Definition by_height (cache : OrderedDict) : gmap Z Monitor.BlockHeader :=
  list_to_map cache.

Section Polling.
Variable live : Monitor.Chain.

(** The loop of [_check_for_reorg] over the heights that are left:
    the first height whose cached hash is not the one the chain serves,
    with the header served. *)
Fixpoint first_mismatch (self : Monitor.BlockMonitor) (heights : list Z)
    : option (Z * option Monitor.BlockHeader) :=
  match heights with
  | [] => None
  | height :: rest =>
      match Monitor.block_cache self !! height with
      | None => first_mismatch self rest
      | Some cached_header =>
          match live height with
          | None => Some (height, None)
          | Some actual_header =>
              if bool_decide (Monitor.hash actual_header = Monitor.hash cached_header)
              then first_mismatch self rest
              else Some (height, Some actual_header)
          end
      end
  end.

(** [for height in range(start_height, current_height)] *)
Definition checked_heights (self : Monitor.BlockMonitor) (current_height : Z) : list Z :=
  let check_range := Z.min 10 (Z.of_nat (size (Monitor.block_cache self))) in
  let start_height := Z.max (current_height - check_range) 0 in
  seqZ start_height (current_height - start_height).

(** [BlockMonitor._check_for_reorg]; the boolean is that of
    [_handle_fork]. *)
Definition _check_for_reorg (self : Monitor.BlockMonitor) (handler : Reorg.ReorgHandler)
    (now : datetime) (current_height : Z)
    : Monitor.BlockMonitor * Reorg.ReorgHandler * bool :=
  match first_mismatch self (checked_heights self current_height) with
  | Some (height, actual_header) =>
      Monitor._handle_fork live self handler now height actual_header
  | None => (self, handler, true)
  end.

End Polling.

End Cache.

(** ** Cross-chain aggregator, continued
       (layer3_multichain/cross_chain/aggregator.py) *)

Module CrossChain.

(** [a < b] on [str]. *)
Definition str_lt (a b : string) : bool :=
  match String.compare a b with Lt => true | _ => false end.

(** [min(xs)] over strings, for a non-empty list. *)
Definition str_min (x : string) (xs : list string) : string :=
  fold_left (fun best y => if str_lt y best then y else best) xs x.

(** [self.grace_period_sec] *)
Definition grace_period_sec : Z := Config.cross_chain_grace_period.

(** [self.chain_finality_times.get(c, 0)] *)
Definition chain_finality_times : gmap string Z :=
  <["ethereum" := tier3_time_sec Config.ethereum]>
    (<["arbitrum" := tier3_time_sec Config.arbitrum]>
    (<["solana" := tier3_time_sec Config.solana]> ∅)).

Definition finality_time (c : string) : Z := default 0 (chain_finality_times !! c).

(** The test of the loop of [check_cross_chain_readiness] for one chain. *)
Definition chain_ready (events : list RiskEvent) : bool :=
  match finality_tier <$> events with
  | [] => true
  | tier :: tiers => negb (bool_decide (str_min tier tiers = "tier1"))
  end.

Definition check_cross_chain_readiness (events_by_chain : gmap string (list RiskEvent))
    (window_end now : datetime) : bool :=
  let current_time := now in
  let grace_period_elapsed :=
    window_end + timedelta_seconds grace_period_sec <=? current_time in
  if negb grace_period_elapsed then false
  else forallb (fun kv : string * list RiskEvent => chain_ready kv.2)
               (Aggregator.items events_by_chain).

(** One entry of the list [divergences]. *)
Record Divergence : Type := mkDivergence {
  chain1 : string;
  chain2 : string;
  price1 : Q;
  price2 : Q;
  difference : Q;
  percentage : Q
}.

(** The dictionary returned by [detect_cross_chain_divergence]: with
    fewer than two priced chains it has the key [divergence_detected]
    only. *)
Inductive DivergenceReport : Type :=
  | NoComparison
  | Report (divergence_detected : bool) (divergence_count : Z)
      (divergences : list Divergence) (chain_prices : list (string * Q)).

(** [chain_prices]: the average price of each chain that has a price,
    in the order of the chains. *)
Definition chain_prices_of (events_by_chain : gmap string (list RiskEvent))
    : list (string * Q) :=
  omap (fun kv : string * list RiskEvent =>
          match omap price kv.2 with
          | [] => None
          | prices => Some (kv.1, (py_sum prices / inject_Z (Z.of_nat (length prices)))%Q)
          end)
       (Aggregator.items events_by_chain).

(** The body of the inner loop for the pair [(chain1, chain2)]: the
    entry appended, if any; [None] is the [ZeroDivisionError] of the
    percentage or of the logged ratio. *)
Definition compare_pair (threshold : Q) (c1 c2 : string * Q)
    : option (list Divergence) :=
  let diff := Qabs (c1.2 - c2.2) in
  if Qltb threshold diff then
    if Qeq_bool ((c1.2 + c2.2) / (2 # 1)) (0 # 1) then None
    else if Qeq_bool c1.2 (0 # 1) then None
    else
      Some [ {| chain1 := c1.1; chain2 := c2.1; price1 := c1.2; price2 := c2.2;
                difference := diff;
                percentage := (diff / ((c1.2 + c2.2) / (2 # 1)) * (100 # 1))%Q |} ]
  else Some [].

(** [for i, chain1 in enumerate(chains): for chain2 in chains[i+1:]] *)
Fixpoint compare_all (threshold : Q) (chains : list (string * Q))
    : option (list Divergence) :=
  match chains with
  | [] => Some []
  | c1 :: rest =>
      here ← mapM (compare_pair threshold c1) rest;
      later ← compare_all threshold rest;
      Some (concat here ++ later)
  end.

(** [detect_cross_chain_divergence(events_by_chain, threshold)] *)
Definition detect_cross_chain_divergence
    (events_by_chain : gmap string (list RiskEvent)) (threshold : Q)
    : option DivergenceReport :=
  let chain_prices := chain_prices_of events_by_chain in
  if (length chain_prices <? 2)%nat then Some NoComparison
  else
    divergences ← compare_all threshold chain_prices;
    Some (Report (0 <? length divergences)%nat (Z.of_nat (length divergences))
            divergences chain_prices).

(** [max(chains, key=...)]: the first chain with the largest time;
    [None] is the [ValueError] of an empty list. *)
Definition get_slowest_chain (chains : list string) : option string :=
  match chains with
  | [] => None
  | c :: cs =>
      Some (fold_left (fun best x => if finality_time best <? finality_time x then x
                                     else best) cs c)
  end.

(** [max(... for c in chains)] *)
Definition calculate_cross_chain_grace_period (chains : list string) : option Z :=
  match finality_time <$> chains with
  | [] => None
  | t :: ts => Some (Stats.max_Z t ts)
  end.

End CrossChain.

(** ** Backpressure handler (layer1_core/quality/pipeline.py) *)

Module Backpressure.

Record BackpressureHandler : Type := mkBackpressureHandler {
  failure_counts : gmap string Z;
  circuit_open : gmap string datetime;
  max_retries : Z;
  backoff_base : Z;
  circuit_breaker_threshold : Z
}.

(** [BackpressureHandler.__init__] *)
Definition backpressure_handler : BackpressureHandler :=
  {| failure_counts := ∅; circuit_open := ∅;
     max_retries := 3; backoff_base := 2; circuit_breaker_threshold := 10 |}.

Definition with_state (counts : gmap string Z) (circuits : gmap string datetime)
    (self : BackpressureHandler) : BackpressureHandler :=
  {| failure_counts := counts; circuit_open := circuits;
     max_retries := max_retries self; backoff_base := backoff_base self;
     circuit_breaker_threshold := circuit_breaker_threshold self |}.

(** [self.failure_counts[source_id]] of the [defaultdict(int)] *)
Definition failures (self : BackpressureHandler) (source_id : string) : Z :=
  default 0 (failure_counts self !! source_id).

(** [_is_circuit_open] *)
Definition _is_circuit_open (self : BackpressureHandler) (now : datetime)
    (source_id : string) : BackpressureHandler * bool :=
  match circuit_open self !! source_id with
  | None => (self, false)
  | Some opened =>
      let circuit_duration := timedelta_minutes 5 in
      if circuit_duration <? now - opened then
        (with_state (<[source_id := 0]> (failure_counts self))
                    (delete source_id (circuit_open self)) self, false)
      else (self, true)
  end.

(** [_open_circuit] *)
Definition _open_circuit (self : BackpressureHandler) (now : datetime)
    (source_id : string) : BackpressureHandler :=
  with_state (failure_counts self) (<[source_id := now]> (circuit_open self)) self.

(** How a call of [execute_with_backoff] ends. *)
Inductive Outcome (A : Type) : Type :=
  | Returned (result : A)       (* the result of [coro_func] *)
  | ReturnedNone                (* all retries failed *)
  | CircuitBreakerOpen.         (* the exception raised *)
Arguments Returned {A} result.
Arguments ReturnedNone {A}.
Arguments CircuitBreakerOpen {A}.

(** What a call leaves behind: the handler, how it ended, how often
    [coro_func] was awaited and the seconds slept between attempts. *)
Record Run (A : Type) : Type := mkRun {
  handler : BackpressureHandler;
  outcome : Outcome A;
  calls : nat;
  slept : list Z
}.
Arguments mkRun {A}.
Arguments handler {A}.
Arguments outcome {A}.
Arguments calls {A}.
Arguments slept {A}.

Section Execute.
Context {A : Type}.

(** What [coro_func] does when awaited in attempt [attempt]: a result,
    or [None] for an exception. *)
Variable coro_func : Z -> option A.

(** The clock [_open_circuit] reads when called in attempt [attempt]. *)
Variable clock : Z -> datetime.

Variable source_id : string.

(** [for attempt in range(self.max_retries)], with [n] attempts left. *)
Fixpoint attempts (n : nat) (attempt : Z) (self : BackpressureHandler) : Run A :=
  match n with
  | O => mkRun self ReturnedNone 0 []
  | S n' =>
      match coro_func attempt with
      | Some result =>
          let self := with_state (<[source_id := 0]> (failure_counts self))
                                 (circuit_open self) self in
          mkRun self (Returned result) 1 []
      | None =>
          let self := with_state (<[source_id := failures self source_id + 1]>
                                    (failure_counts self))
                                 (circuit_open self) self in
          if circuit_breaker_threshold self <=? failures self source_id then
            mkRun (_open_circuit self (clock attempt) source_id) CircuitBreakerOpen 1 []
          else if decide (attempt = max_retries self - 1) then
            mkRun self ReturnedNone 1 []
          else
            let backoff_sec := backoff_base self ^ attempt in
            let r := attempts n' (attempt + 1) self in
            mkRun (handler r) (outcome r) (S (calls r)) (backoff_sec :: slept r)
      end
  end.

(** [execute_with_backoff(source_id, coro_func)]; [now] is the clock
    read on entry. *)
Definition execute_with_backoff (self : BackpressureHandler) (now : datetime) : Run A :=
  let '(self, is_open) := _is_circuit_open self now source_id in
  if is_open then mkRun self CircuitBreakerOpen 0 []
  else attempts (Z.to_nat (max_retries self)) 0 self.

End Execute.

End Backpressure.

(** ** Concrete events for the examples *)

Module Sample.

(** [RiskEvent(event_id=.., timestamp=.., coin=.., chain=.., source=..,
    price=.., volume=.., liquidity_depth=.., net_supply_change=..,
    market_volatility=.., sentiment_score=.., block_number=..,
    finality_tier=..)], the other fields at their defaults. *)
Definition RiskEvent_new (id : string) (ts : datetime) (coin chain source : string)
    (price volume liquidity_depth net_supply_change market_volatility
       sentiment_score : option Q)
    (block_number : option Z) (finality_tier : string) : RiskEvent :=
  let d := RiskEvent_default id ts in
  {| event_id := id; timestamp := ts; coin := coin; chain := chain; source := source;
     price := price; volume := volume; liquidity_depth := liquidity_depth;
     net_supply_change := net_supply_change; market_volatility := market_volatility;
     sentiment_score := sentiment_score;
     block_number := block_number; tx_hash := Schema.tx_hash d;
     confirmation_count := Schema.confirmation_count d;
     finality_tier := finality_tier; is_finalized := Schema.is_finalized d;
     finality_timestamp := Schema.finality_timestamp d;
     temporal_confidence := Schema.temporal_confidence d;
     window_id := Schema.window_id d; window_state := Schema.window_state d;
     window_start := Schema.window_start d; window_end := Schema.window_end d;
     event_version := Schema.event_version d; invalidated := Schema.invalidated d;
     replacement_event_id := Schema.replacement_event_id d;
     reorg_detected_at := Schema.reorg_detected_at d;
     original_block_number := Schema.original_block_number d;
     is_outlier := Schema.is_outlier d; quality_score := Schema.quality_score d |}.

(** An off-chain observation of one payload field. *)
Definition price_event (id : string) (ts : datetime) (tier : string) (p : Q) : RiskEvent :=
  RiskEvent_new id ts "USDC" "ethereum" "coingecko"
    (Some p) None None None None None None tier.
Definition liquidity_event (id : string) (ts : datetime) (tier : string) (x : Q)
    : RiskEvent :=
  RiskEvent_new id ts "USDC" "ethereum" "uniswap_v3"
    None None (Some x) None None None None tier.
Definition supply_event (id : string) (ts : datetime) (tier : string) (x : Q)
    : RiskEvent :=
  RiskEvent_new id ts "USDC" "ethereum" "supply_monitor"
    None None None (Some x) None None None tier.
Definition volatility_event (id : string) (ts : datetime) (tier : string) (x : Q)
    : RiskEvent :=
  RiskEvent_new id ts "USDC" "ethereum" "volatility"
    None None None None (Some x) None None tier.
Definition sentiment_event (id : string) (ts : datetime) (tier : string) (x : Q)
    : RiskEvent :=
  RiskEvent_new id ts "USDC" "ethereum" "twitter"
    None None None None None (Some x) None tier.
Definition volume_event (id : string) (ts : datetime) (x : Q) : RiskEvent :=
  RiskEvent_new id ts "USDC" "ethereum" "exchange"
    None (Some x) None None None None None "tier1".

(** The five source types of scenario S2, all observed at [ts] and
    all at TIER3. *)
Definition five_sources (ts : datetime) : list RiskEvent :=
  [ price_event "A" ts "tier3" (10003 # 10000)%Q;
    liquidity_event "B" ts "tier3" (200000000 # 1)%Q;
    supply_event "C" ts "tier3" (-500000 # 1)%Q;
    volatility_event "D" ts "tier3" (4 # 10000)%Q;
    sentiment_event "E" ts "tier3" (3 # 10)%Q ].

(** An on-chain price observation anchored at a block. *)
Definition onchain_event (id : string) (ts : datetime) (chain : string) (bn : Z) (p : Q)
    : RiskEvent :=
  RiskEvent_new id ts "USDC" chain "chainlink"
    (Some p) None None None None None (Some bn) "tier1".

(** Scenario S6: one coin on three chains; Ethereum and Arbitrum at
    TIER3, Solana with one TIER1 event. *)
Definition ethereum_events : list RiskEvent :=
  [ RiskEvent_new "E1" 0 "USDC" "ethereum" "chainlink"
      (Some (1 # 1)%Q) None None None None None (Some 100) "tier3" ].
Definition arbitrum_events : list RiskEvent :=
  [ RiskEvent_new "A1" 0 "USDC" "arbitrum" "chainlink"
      (Some (1 # 1)%Q) None None None None None (Some 200) "tier3" ].
Definition solana_events : list RiskEvent :=
  [ RiskEvent_new "S1" 0 "USDC" "solana" "pyth"
      (Some (1 # 1)%Q) None None None None None (Some 300) "tier1";
    RiskEvent_new "S2" 0 "USDC" "solana" "orca"
      None None (Some (5 # 1)%Q) None None None (Some 301) "tier3" ].
Definition three_chains : gmap string (list RiskEvent) :=
  <["ethereum" := ethereum_events]>
    (<["arbitrum" := arbitrum_events]> (<["solana" := solana_events]> ∅)).

(** A window holding events of two chains, one of them invalidated. *)
Definition mixed_window : Window.TimeWindow :=
  Window.with_state PROVISIONAL
    [ RiskEvent_new "E1" 0 "USDC" "ethereum" "chainlink"
        (Some (1 # 1)%Q) None None None None None (Some 100) "tier3";
      set_invalidated true
        (RiskEvent_new "E2" 0 "USDC" "ethereum" "chainlink"
           (Some (1 # 1)%Q) None None None None None (Some 101) "tier1");
      RiskEvent_new "S1" 0 "USDC" "solana" "pyth"
        (Some (1 # 1)%Q) None None None None None (Some 300) "tier2" ]
    (Window.new_window "1970-01-01T00:00:00" 0 (timedelta_seconds 300) 0).

(** Scenario S1/S2 as a window: the five off-chain observations of
    [five_sources], made 10 s into the window [0 s, 300 s). *)
Definition open_window : Window.TimeWindow :=
  fold_left Window.add_event (five_sources (timedelta_seconds 10))
    (Window.new_window "1970-01-01T00:00:00" 0 (timedelta_seconds 300) 0).

(** No chain answers: the state of the trackers of the repository. *)
Definition silent_world : string -> Finality.Rpc := fun _ => Finality.not_implemented.

(** Scenario S5: event [E1] (id X, version 1, block 100, price 1.0,
    source S) and its replacement [E2] in block 101 (price 0.999). *)
Definition E1 : RiskEvent :=
  RiskEvent_new "X" 0 "USDC" "ethereum" "S"
    (Some (1 # 1)%Q) None None None None None (Some 100) "tier1".
Definition E2 : RiskEvent :=
  RiskEvent_new "Y" (timedelta_seconds 12) "USDC" "ethereum" "S"
    (Some (999 # 1000)%Q) None None None None None (Some 101) "tier1".

(** The same replacement once its own finality has been tracked up
    to TIER3. *)
Definition E2_final : RiskEvent :=
  set_is_finalized true (set_finality_tier "tier3" E2).

Definition ethereum_tracker : Finality.FinalityTracker :=
  Finality.mkFinalityTracker Config.ethereum.

(** A chain at height [head] on which every block asked for exists. *)
Definition chain_at (head : Z) : Finality.Rpc :=
  {| Finality.get_current_block_number := Some head;
     Finality.check_block_exists := fun _ => Some true |}.

(** A fork on Ethereum.  The monitor has cached blocks 97..100; on the
    live chain blocks 97..99 kept their hashes and block 100 has a new
    one.  The store holds one registered event in each of the blocks
    98, 99 and 100. *)
Definition header (n : Z) (h : string) : Monitor.BlockHeader :=
  {| Monitor.number := n; Monitor.hash := h; Monitor.parent_hash := "";
     Monitor.timestamp := 0 |}.

Definition forked_monitor : Monitor.BlockMonitor :=
  fold_left Monitor.register_event
    [ onchain_event "e98" 0 "ethereum" 98 (1 # 1)%Q;
      onchain_event "e99" 0 "ethereum" 99 (1 # 1)%Q;
      onchain_event "e100" 0 "ethereum" 100 (1 # 1)%Q ]
    {| Monitor.chain := "ethereum";
       Monitor.block_cache :=
         <[97 := header 97 "0xa97"]> (<[98 := header 98 "0xa98"]>
           (<[99 := header 99 "0xa99"]> (<[100 := header 100 "0xa100"]> ∅)));
       Monitor.reorgs_detected := 0;
       Monitor.last_reorg_time := None;
       Monitor._event_store := [] |}.

Definition forked_chain : Monitor.Chain :=
  fun n =>
    if decide (n = 97) then Some (header 97 "0xa97")
    else if decide (n = 98) then Some (header 98 "0xa98")
    else if decide (n = 99) then Some (header 99 "0xa99")
    else if decide (n = 100) then Some (header 100 "0xb100")
    else if decide (n = 101) then Some (header 101 "0xb101")
    else None.

(** Eleven observations of one market (USDC on Ethereum): ten with the
    value 1 and one with the value 1000, as volumes and as prices. *)
Definition eleven_values : list Q := replicate 10 (1 # 1)%Q ++ [(1000 # 1)%Q].

Definition volume_batch : list RiskEvent :=
  imap (fun i x => volume_event (pretty i) 0 x) eleven_values.

Definition price_batch : list RiskEvent :=
  imap (fun i x => price_event (pretty i) 0 "tier1" x) eleven_values.

End Sample.

(** ** Definitions that follow the wording of the stated properties *)

Module Stated.

(** The payload fields in the priority order price, liquidity,
    supply, volatility, sentiment. *)
Definition payload_priority : list (string * (RiskEvent -> option Q)) :=
  [ ("price", price); ("liquidity", liquidity_depth); ("supply", net_supply_change);
    ("volatility", market_volatility); ("sentiment", sentiment_score) ].

(** The name of the first populated field in that order. *)
Definition first_populated (e : RiskEvent) : option string :=
  fst <$> List.find (fun p => is_not_None (p.2 e)) payload_priority.

(** The one source type of an event: the first populated field, or
    the source string when no field is populated. *)
Definition source_type (e : RiskEvent) : string :=
  from_option id (source e) (first_populated e).

(** The minimum tier confidence over the events of chain [c] in a
    set of events ([None] when the set has no event of [c]). *)
Definition min_confidence_of_chain (c : string) (events : list RiskEvent) : option Q :=
  Snapshot.min_or_None
    (get_confidence_tier_value <$> List.filter (fun e => bool_decide (chain e = c)) events).

(** The chain-confidence component recorded in a snapshot. *)
Definition chain_confidence_component (snap : Snapshot.AggregatedRiskSnapshot)
    : option Q :=
  Snapshot.confidence_breakdown snap ≫= (fun d => d !! "chain_confidence").

(** [is_finalized] or [invalidated]. *)
Definition settled (e : RiskEvent) : Prop :=
  is_finalized e = true \/ invalidated e = true.

(** [is_finalized] if and only if the tier is TIER3. *)
Definition finalized_iff_tier3 (e : RiskEvent) : Prop :=
  is_finalized e = true <-> finality_tier e = FinalityTier_value TIER3.

(** The order of the tiers (a string that names no tier ranks below
    all of them). *)
Definition tier_rank (tier : string) : Z :=
  if decide (tier = "tier1") then 1
  else if decide (tier = "tier2") then 2
  else if decide (tier = "tier3") then 3
  else 0.

(** The chain answered the requests of a refresh of [e]: no RPC call
    raised. *)
Definition answered (rpc : Finality.Rpc) (e : RiskEvent) : Prop :=
  match block_number e with
  | None => True
  | Some bn =>
      is_Some (Finality.get_current_block_number rpc)
      /\ is_Some (Finality.check_block_exists rpc bn)
  end.

(** The head height observed by the second refresh is not below the
    one observed by the first. *)
Definition head_not_below (rpc1 rpc2 : Finality.Rpc) : Prop :=
  forall h1 h2,
    Finality.get_current_block_number rpc1 = Some h1 ->
    Finality.get_current_block_number rpc2 = Some h2 -> h1 <= h2.

(** A replacement matches an affected event: same coin and source,
    timestamps less than 60 seconds apart. *)
Definition matches (old_event new_event : RiskEvent) : Prop :=
  coin new_event = coin old_event
  /\ source new_event = source old_event
  /\ Z.abs (timestamp new_event - timestamp old_event) < timedelta_seconds 60.

(** The version the handler has on record for [id] when it reaches
    position [i] of the affected events (1 when it has none). *)
Definition version_on_record (self : Reorg.ReorgHandler) (now : datetime)
    (new_events : option (list RiskEvent)) (affected : list RiskEvent) (i : nat)
    (id : string) : Z :=
  Reorg.current_version (Reorg.handle_loop now new_events self (take i affected)).1.1 id.

(** The registered events whose block lies in the affected range
    [[fork_point + 1, detected_height]]. *)
Definition events_in_affected_range (self : Monitor.BlockMonitor)
    (fork_point detected_height : Z) : list RiskEvent :=
  List.filter
    (fun e => match block_number e with
              | Some bn => (fork_point + 1 <=? bn) && (bn <=? detected_height)
              | None => false
              end)
    (Monitor._event_store self).

(** An event with the two fields the outlier stage writes put back to
    their defaults: what remains is what the stage only reads. *)
Definition erase (e : RiskEvent) : RiskEvent :=
  set_quality_score (1 # 1)%Q (set_is_outlier false e).

(** Every event of a batch was observed within the dedup window before
    the clock reading [now]. *)
Definition recent (window : timedelta) (now : datetime) (events : list RiskEvent) : Prop :=
  Forall (fun e => now - window < timestamp e) events.

End Stated.

(** An event that no refresh of the repository's trackers can settle:
    it is neither finalized nor invalidated, and it is anchored in a
    block or belongs to a chain without tracker. *)
Definition unsettleable (e : RiskEvent) : Prop :=
  is_finalized e = false /\ invalidated e = false
  /\ (is_Some (block_number e) \/ Registry.get_tracker (chain e) = None).

(** The answers of the three trackers of the repository, whose RPC
    methods raise [NotImplementedError]. *)
Definition not_implemented_world : string -> Finality.Rpc :=
  fun _ => Finality.not_implemented.

(** An event the finality monitor can settle by age alone at the clock
    reading [now]: an off-chain event of a chain with a tracker,
    observed at least the TIER3 time of the chain ago. *)
Definition ripe (now : datetime) (e : RiskEvent) : Prop :=
  block_number e = None
  /\ exists tracker, Registry.get_tracker (chain e) = Some tracker
       /\ timestamp e + timedelta_seconds (tier3_time_sec (Finality.chain_config tracker))
          <= now.

(** An event whose tier is one of the three tiers of the schema. *)
Definition valid_tier (e : RiskEvent) : Prop :=
  finality_tier e = "tier1" \/ finality_tier e = "tier2" \/ finality_tier e = "tier3".

(** Two of the priced chains, the first earlier in the order of the
    chains, whose average prices differ by more than the threshold. *)
Definition diverging (threshold : Q) (prices : list (string * Q)) : Prop :=
  exists (i j : nat) (c1 c2 : string * Q),
    (i < j)%nat /\ prices !! i = Some c1 /\ prices !! j = Some c2
    /\ (threshold < Qabs (c1.2 - c2.2))%Q.

(** The events of a batch that belong to the same market (coin and
    chain) and carry a value of the metric carry the same value. *)
Definition agree (metric : RiskEvent -> option Q) (events : list RiskEvent) : Prop :=
  forall e1 e2 x1 x2,
    e1 ∈ events -> e2 ∈ events ->
    coin e1 = coin e2 -> chain e1 = chain e2 ->
    metric e1 = Some x1 -> metric e2 = Some x2 ->
    (x1 == x2)%Q.

(** The positions [idxs] of a batch hold events of the market [key]. *)
Definition in_market (events : list RiskEvent) (key : string * string)
    (idxs : list nat) : Prop :=
  forall i, i ∈ idxs -> exists e, events !! i = Some e /\ (coin e, chain e) = key.

(** The seconds slept before the retries that follow the first [n]
    failed attempts: [backoff_base ** attempt] for attempts [0 .. n-1]. *)
Definition backoffs (self : Backpressure.BackpressureHandler) (n : Z) : list Z :=
  (fun attempt => Backpressure.backoff_base self ^ attempt) <$> seqZ 0 n.

(** No source has more consecutive failures on record than the
    threshold of the circuit breaker, and a source that has reached the
    threshold has its circuit open. *)
Definition bounded_failures (self : Backpressure.BackpressureHandler) : Prop :=
  forall source_id,
    Backpressure.failures self source_id <= Backpressure.circuit_breaker_threshold self
    /\ (Backpressure.failures self source_id = Backpressure.circuit_breaker_threshold self ->
        is_Some (Backpressure.circuit_open self !! source_id)).

(** What a call for [source_id] leaves of the handler it started from:
    the configuration and everything recorded for other sources. *)
Definition frame (source_id : string) (self after : Backpressure.BackpressureHandler)
    : Prop :=
  Backpressure.max_retries after = Backpressure.max_retries self
  /\ Backpressure.backoff_base after = Backpressure.backoff_base self
  /\ Backpressure.circuit_breaker_threshold after
     = Backpressure.circuit_breaker_threshold self
  /\ forall other, other <> source_id ->
       Backpressure.failure_counts after !! other
       = Backpressure.failure_counts self !! other
       /\ Backpressure.circuit_open after !! other
          = Backpressure.circuit_open self !! other.

(** How often a position of the batch occurs in the markets. *)
Definition occurrences {K : Type} (p : nat) (groups : list (K * list nat)) : nat :=
  count_occ Nat.eq_dec (concat groups.*2) p.

(** The second store holds, at every position of the first, the same
    event penalized at most [c] times, [c] depending on the position. *)
Definition penalized_at_most (c : nat -> nat) (store store' : list RiskEvent) : Prop :=
  forall p a, store !! p = Some a ->
    exists n, (n <= c p)%nat /\ store' !! p = Some (Nat.iter n Quality.penalize a).

(** [event.event_version = v] *)
Definition set_event_version (v : Z) (e : RiskEvent) : RiskEvent :=
  {| event_id := event_id e; timestamp := timestamp e; coin := coin e; chain := chain e;
     source := source e; price := price e; volume := volume e;
     liquidity_depth := liquidity_depth e; net_supply_change := net_supply_change e;
     market_volatility := market_volatility e; sentiment_score := sentiment_score e;
     block_number := block_number e; tx_hash := tx_hash e;
     confirmation_count := confirmation_count e; finality_tier := finality_tier e;
     is_finalized := is_finalized e; finality_timestamp := finality_timestamp e;
     temporal_confidence := temporal_confidence e; window_id := window_id e;
     window_state := window_state e; window_start := window_start e;
     window_end := window_end e; event_version := v;
     invalidated := invalidated e; replacement_event_id := replacement_event_id e;
     reorg_detected_at := reorg_detected_at e;
     original_block_number := original_block_number e; is_outlier := is_outlier e;
     quality_score := quality_score e |}.

(** ** Relations used in the proofs *)

(** Two events that agree on the inferred source type and on the tier. *)
Definition same_contribution (a b : RiskEvent) : Prop :=
  TCS._infer_source_type a = TCS._infer_source_type b
  /\ finality_tier a = finality_tier b.

(** The accumulator [(weighted_sum, total_importance)] of the finality
    weight: a non-negative sum below the total. *)
Definition weight_ok (acc : Q * Q) : Prop := (0 <= acc.1 /\ acc.1 <= acc.2)%Q.

(** The price bounds as [normalize_event] applies them. *)
Definition clamp_price (self : Quality.DataQualityPipeline) (p : option Q) : option Q :=
  match p with
  | Some x =>
      if Qltb x (Quality.price_min self) then Some (Quality.price_min self)
      else if Qltb (Quality.price_max self) x then Some (Quality.price_max self)
      else Some x
  | None => None
  end.

(** The duplicate test of the loop of [_deduplicate_events]. *)
Definition is_duplicate (w : timedelta) (seen : gmap string datetime) (e : RiskEvent)
    : bool :=
  match seen !! Quality._event_signature e with
  | Some last_seen => timestamp e - last_seen <? w
  | None => false
  end.

(** A property [Q], by position, of every event of a store. *)
Definition holds (Q : nat -> RiskEvent -> Prop) (store : list RiskEvent) : Prop :=
  forall i a, store !! i = Some a -> Q i a.

(** Two events with the same data and quality score, the second
    carrying in addition the flag that [cs] gives for the position. *)
Definition alike (cs : list bool) (i : nat) (a b : RiskEvent) : Prop :=
  Stated.erase a = Stated.erase b
  /\ quality_score a = quality_score b
  /\ is_outlier b = is_outlier a || default false (cs !! i).

(** Two stores of the same length, alike position by position. *)
Definition lockstep (cs : list bool) (S T : list RiskEvent) : Prop :=
  length S = length T
  /\ forall i a b, S !! i = Some a -> T !! i = Some b -> alike cs i a b.

(** * Properties *)

(** ** Rational comparisons *)

Lemma Qltb_lt (x y : Q) : Qltb x y = true <-> (x < y)%Q.
Proof.
  unfold Qltb. rewrite negb_true_iff, <- not_true_iff_false, Qle_bool_iff.
  split; [apply Qnot_le_lt | apply Qlt_not_le].
Qed.

Lemma Qltb_ge (x y : Q) : Qltb x y = false <-> (y <= x)%Q.
Proof.
  unfold Qltb. rewrite negb_false_iff. apply Qle_bool_iff.
Qed.

Lemma Qleb_le (x y : Q) : Qleb x y = true <-> (x <= y)%Q.
Proof. apply Qle_bool_iff. Qed.

Lemma py_min2_cases (a b : Q) :
  (py_min2 a b = a /\ (a <= b)%Q) \/ (py_min2 a b = b /\ (b < a)%Q).
Proof.
  unfold py_min2. destruct (Qltb b a) eqn:E.
  - right. split; [done | by apply Qltb_lt].
  - left. split; [done | by apply Qltb_ge].
Qed.

Lemma py_max2_cases (a b : Q) :
  (py_max2 a b = a /\ (b <= a)%Q) \/ (py_max2 a b = b /\ (a < b)%Q).
Proof.
  unfold py_max2. destruct (Qltb a b) eqn:E.
  - right. split; [done | by apply Qltb_lt].
  - left. split; [done | by apply Qltb_ge].
Qed.

Lemma py_min_le_head (x : Q) (xs : list Q) : (py_min x xs <= x)%Q.
Proof.
  unfold py_min. revert x. induction xs as [|y ys IH]; intros x; simpl.
  - lra.
  - specialize (IH (py_min2 x y)).
    destruct (py_min2_cases x y) as [[E ?]|[E ?]]; rewrite E in *; lra.
Qed.

Lemma py_min_le_elem (x : Q) (xs : list Q) (y : Q) :
  y ∈ xs -> (py_min x xs <= y)%Q.
Proof.
  unfold py_min. revert x. induction xs as [|z zs IH]; intros x Hy; simpl.
  - by apply elem_of_nil in Hy.
  - apply elem_of_cons in Hy as [->|Hy]; [|by apply IH].
    pose proof (py_min_le_head (py_min2 x z) zs) as H. unfold py_min in H.
    destruct (py_min2_cases x z) as [[E ?]|[E ?]]; rewrite E in *; lra.
Qed.

Lemma py_min_le_all (x : Q) (xs : list Q) (y : Q) :
  y ∈ x :: xs -> (py_min x xs <= y)%Q.
Proof.
  intros [->|H]%elem_of_cons; [apply py_min_le_head | by apply py_min_le_elem].
Qed.

(** [min] returns one of its arguments. *)
Lemma py_min_elem (x : Q) (xs : list Q) : py_min x xs ∈ x :: xs.
Proof.
  unfold py_min. revert x. induction xs as [|y ys IH]; intros x; simpl.
  - apply elem_of_cons; by left.
  - specialize (IH (py_min2 x y)). rewrite !elem_of_cons in *.
    destruct IH as [->|IH]; [|by auto].
    destruct (py_min2_cases x y) as [[-> ?]|[-> ?]]; auto.
Qed.

(** ** Source-type inference (C10) *)

Lemma infer_source_type_first_populated (e : RiskEvent) :
  TCS._infer_source_type e =
    match Stated.first_populated e with
    | Some n => Some n
    | None => if decide (source e = "") then None else Some (source e)
    end.
Proof.
  unfold TCS._infer_source_type, Stated.first_populated, Stated.payload_priority, truthy.
  simpl.
  destruct (price e); [done|]. destruct (liquidity_depth e); [done|].
  destruct (net_supply_change e); [done|]. destruct (market_volatility e); [done|].
  destruct (sentiment_score e); [done|]. simpl. by destruct (decide (source e = "")).
Qed.

Section SameType.
Variable self : TCS.TCSCalculator.

Lemma finality_weight_fold_same (l l' : list RiskEvent) (acc : Q * Q) :
  Forall2 same_contribution l l' ->
  fold_left (TCS.finality_weight_step self) l acc
  = fold_left (TCS.finality_weight_step self) l' acc.
Proof.
  intros H. revert acc. induction H as [|a b l l' [Ht Hf] _ IH]; intros acc; [done|].
  simpl. rewrite <- IH. f_equal.
  unfold TCS.finality_weight_step, get_confidence_tier_value. by rewrite Ht, Hf.
Qed.

Lemma present_sources_fold_same (l l' : list RiskEvent) (acc : gset string) :
  Forall2 same_contribution l l' ->
  fold_left TCS.present_sources_step l acc = fold_left TCS.present_sources_step l' acc.
Proof.
  intros H. revert acc. induction H as [|a b l l' [Ht Hf] _ IH]; intros acc; [done|].
  simpl. rewrite <- IH. f_equal. unfold TCS.present_sources_step. by rewrite Ht.
Qed.

Lemma calculate_same_contribution (l l' : list RiskEvent) :
  Forall2 same_contribution l l' ->
  TCS._calculate_completeness self l = TCS._calculate_completeness self l'
  /\ TCS._calculate_finality_weight self l = TCS._calculate_finality_weight self l'.
Proof.
  intros H. unfold TCS._calculate_completeness, TCS._calculate_finality_weight.
  rewrite (present_sources_fold_same l l' ∅ H).
  rewrite (finality_weight_fold_same l l' _ H).
  by destruct H.
Qed.

Lemma same_contribution_refl (l : list RiskEvent) : Forall2 same_contribution l l.
Proof. induction l; constructor; [by split | done]. Qed.

End SameType.

(** C10, as stated, fails: an event with no payload field and an empty
    source string (the default of the schema) gets no source type at all,
    not its source string. *)
Lemma infer_source_type_not_always_one :
  ~ (forall e : RiskEvent, TCS._infer_source_type e = Some (Stated.source_type e)).
Proof.
  intros H. specialize (H (RiskEvent_default "X" 0)). vm_compute in H. discriminate.
Qed.

(** C10, amended.  The source type of an event is the first populated
    field in the order price, liquidity, supply, volatility, sentiment;
    with no such field it is the source string when that string is not
    empty, and there is no type when it is empty.  Completeness and the
    importance-weighted finality average see an event only through this
    type (and its tier): exchanging an event for one with the same
    inferred type and tier, such as the event stripped of its
    lower-priority fields, changes neither; an event without a type adds
    nothing to the present sources and weighs 1.0. *)
Theorem infer_source_type_priority (self : TCS.TCSCalculator) (e : RiskEvent) :
  TCS._infer_source_type e =
    match Stated.first_populated e with
    | Some n => Some n
    | None => if decide (source e = "") then None else Some (source e)
    end
  /\ (forall (e' : RiskEvent) (before after : list RiskEvent),
        TCS._infer_source_type e' = TCS._infer_source_type e ->
        finality_tier e' = finality_tier e ->
        TCS._calculate_completeness self (before ++ e' :: after)
        = TCS._calculate_completeness self (before ++ e :: after)
        /\ TCS._calculate_finality_weight self (before ++ e' :: after)
           = TCS._calculate_finality_weight self (before ++ e :: after))
  /\ (TCS._infer_source_type e = None ->
      (forall present, TCS.present_sources_step present e = present)
      /\ TCS.importance_of self (TCS._infer_source_type e) = (1 # 1)%Q).
Proof.
  split; [apply infer_source_type_first_populated|]. split.
  - intros e' before after Ht Hf. apply calculate_same_contribution.
    apply Forall2_app; [apply same_contribution_refl|].
    constructor; [by split | apply same_contribution_refl].
  - intros HN. split.
    + intros present. unfold TCS.present_sources_step. by rewrite HN.
    + by rewrite HN.
Qed.

(** An event carrying a price and a sentiment score counts as a price
    event, exactly like the same observation without the sentiment. *)
Lemma infer_source_type_priority_witness :
  let both :=
    Sample.RiskEvent_new "A" 0 "USDC" "ethereum" "feed"
      (Some (1 # 1)%Q) None None None None (Some (3 # 10)%Q) None "tier2" in
  let only_price := Sample.price_event "A" 0 "tier2" (1 # 1)%Q in
  let rest := [Sample.sentiment_event "E" 0 "tier3" (3 # 10)%Q] in
  TCS._infer_source_type both = Some "price"
  /\ TCS._calculate_completeness TCS.tcs_calculator (only_price :: rest)
     = TCS._calculate_completeness TCS.tcs_calculator (both :: rest)
  /\ TCS._calculate_finality_weight TCS.tcs_calculator (only_price :: rest)
     = TCS._calculate_finality_weight TCS.tcs_calculator (both :: rest).
Proof.
  intros both only_price rest.
  destruct (infer_source_type_priority TCS.tcs_calculator both) as (H1 & H2 & _).
  split; [exact H1|].
  apply (H2 only_price [] rest); reflexivity.
Defined.

(** ** The PROVISIONAL-to-FINAL transition (C1) *)

Lemma all_events_finalized_settled (w : Window.TimeWindow) :
  Window.all_events_finalized w = true <-> Forall Stated.settled (Window.events w).
Proof.
  unfold Window.all_events_finalized.
  assert (forall l, forallb (fun e => is_finalized e || invalidated e) l = true
                    <-> Forall Stated.settled l) as H.
  { induction l as [|e l IH]; simpl.
    - split; [constructor | done].
    - rewrite andb_true_iff, IH, Forall_cons, orb_true_iff. reflexivity. }
  destruct (Window.events w) as [|e l] eqn:E.
  - split; [constructor | done].
  - apply H.
Qed.

Lemma transition_to_final_settled (w : Window.TimeWindow) (now : datetime) :
  Forall Stated.settled (Window.events w) ->
  Forall Stated.settled (Window.events (Window.transition_to_final w now)).
Proof.
  simpl. intros H. apply Forall_fmap. eapply Forall_impl; [exact H|].
  intros e He. exact He.
Qed.

Lemma update_window_finality_state world now (w : Window.TimeWindow) :
  Window.state (Window._update_window_finality world now w) = Window.state w
  /\ Window.window_end (Window._update_window_finality world now w) = Window.window_end w.
Proof. done. Qed.

(** What one tick does to a PROVISIONAL window. *)
Lemma process_window_provisional world now (w : Window.TimeWindow) (t : datetime) :
  Window.state w = PROVISIONAL ->
  let refreshed := Window._update_window_finality world now w in
  Window._process_window world now w t =
    if (Window.window_end w + timedelta_seconds Config.finalization_delay_sec <=? t)
       && Window.all_events_finalized refreshed
    then Window.transition_to_final refreshed now
    else refreshed.
Proof.
  intros Hs refreshed. unfold Window._process_window.
  unfold Window.can_transition_to_provisional.
  rewrite (bool_decide_eq_false_2 (Window.state w = OPEN)) by congruence.
  rewrite (bool_decide_eq_true_2 (Window.state w = PROVISIONAL)) by done.
  cbn [negb]. fold refreshed.
  unfold Window.can_transition_to_final.
  rewrite (bool_decide_eq_true_2 (Window.state refreshed = PROVISIONAL)) by done.
  cbn [negb]. change (Window.window_end refreshed) with (Window.window_end w).
  by destruct (_ <=? t).
Qed.

(** What one tick does to an OPEN window: it is closed when the
    provisional delay has elapsed and then treated as PROVISIONAL. *)
Lemma process_window_open world now (w : Window.TimeWindow) (t : datetime) :
  Window.state w = OPEN ->
  Window._process_window world now w t =
    if Window.can_transition_to_provisional w t
    then Window._process_window world now (Window.transition_to_provisional w now) t
    else w.
Proof.
  intros Hs. unfold Window._process_window at 1.
  destruct (Window.can_transition_to_provisional w t) eqn:E.
  - reflexivity.
  - rewrite (bool_decide_eq_false_2 (Window.state w = PROVISIONAL)) by congruence.
    unfold Window.can_transition_to_final.
    rewrite (bool_decide_eq_false_2 (Window.state w = PROVISIONAL)) by congruence.
    done.
Qed.

Lemma process_window_final world now (w : Window.TimeWindow) (t : datetime) :
  Window.state w = FINAL -> Window._process_window world now w t = w.
Proof.
  intros Hs. unfold Window._process_window, Window.can_transition_to_provisional.
  rewrite (bool_decide_eq_false_2 (Window.state w = OPEN)) by congruence.
  rewrite (bool_decide_eq_false_2 (Window.state w = PROVISIONAL)) by congruence.
  cbn [negb]. unfold Window.can_transition_to_final.
  rewrite (bool_decide_eq_false_2 (Window.state w = PROVISIONAL)) by congruence.
  done.
Qed.

(** C1.  A tick moves a window to FINAL only when the finalization delay
    after the end of the window has elapsed and every event the window
    holds at that moment is finalized or invalidated; a PROVISIONAL
    window for which this does not hold stays PROVISIONAL, with its
    finality refreshed and nothing forced; a FINAL window is left as it
    is by later ticks and accepts no event. *)
Theorem window_final_only_when_settled (world : string -> Finality.Rpc)
    (now current_time : datetime) (w : Window.TimeWindow) :
  let w' := Window._process_window world now w current_time in
  let deadline := Window.window_end w + timedelta_seconds Config.finalization_delay_sec in
  (Window.state w <> FINAL -> Window.state w' = FINAL ->
   deadline <= current_time /\ Forall Stated.settled (Window.events w'))
  /\ (Window.state w = PROVISIONAL ->
      let refreshed := Window._update_window_finality world now w in
      (deadline <= current_time /\ Forall Stated.settled (Window.events refreshed) ->
       w' = Window.transition_to_final refreshed now /\ Window.state w' = FINAL)
      /\ (~ (deadline <= current_time /\ Forall Stated.settled (Window.events refreshed)) ->
          w' = refreshed /\ Window.state w' = PROVISIONAL))
  /\ (Window.state w = FINAL ->
      w' = w /\ forall e, Window.add_event w e = w).
Proof.
  intros w' deadline.
  assert (forall v : Window.TimeWindow, Window.state v = PROVISIONAL ->
            let refreshed := Window._update_window_finality world now v in
            let d := Window.window_end v + timedelta_seconds Config.finalization_delay_sec in
            (d <= current_time /\ Forall Stated.settled (Window.events refreshed) ->
             Window._process_window world now v current_time
             = Window.transition_to_final refreshed now)
            /\ (~ (d <= current_time /\ Forall Stated.settled (Window.events refreshed)) ->
                Window._process_window world now v current_time = refreshed)) as Hprov.
  { intros v Hv refreshed d. rewrite (process_window_provisional _ _ _ _ Hv).
    fold refreshed. fold d. split.
    - intros [Hd Hall]. apply Z.leb_le in Hd. rewrite Hd.
      apply all_events_finalized_settled in Hall. by rewrite Hall.
    - intros Hn. destruct (d <=? current_time) eqn:Ed; [|done].
      destruct (Window.all_events_finalized refreshed) eqn:Ea; [|done].
      exfalso. apply Hn. split; [by apply Z.leb_le|].
      by apply all_events_finalized_settled. }
  assert (forall v : Window.TimeWindow, Window.state v = PROVISIONAL ->
            Window.state (Window._process_window world now v current_time) = FINAL ->
            Window.window_end v + timedelta_seconds Config.finalization_delay_sec
              <= current_time
            /\ Forall Stated.settled
                 (Window.events (Window._process_window world now v current_time)))
    as Hsafe.
  { intros v Hv. destruct (Hprov v Hv) as [Hyes Hno].
    set (refreshed := Window._update_window_finality world now v) in *.
    destruct (decide (Window.window_end v
                      + timedelta_seconds Config.finalization_delay_sec <= current_time
                      /\ Forall Stated.settled (Window.events refreshed))) as [Hd|Hd].
    - rewrite (Hyes Hd). intros _. split; [apply Hd|].
      apply transition_to_final_settled, Hd.
    - rewrite (Hno Hd). simpl. rewrite Hv. discriminate. }
  split; [|split].
  - intros Hnf Hf. subst w' deadline. destruct (Window.state w) eqn:Hs; [| |done].
    + rewrite (process_window_open _ _ _ _ Hs) in Hf |- *.
      destruct (Window.can_transition_to_provisional w current_time);
        [|congruence].
      apply (Hsafe (Window.transition_to_provisional w now)); done.
    + by apply Hsafe.
  - intros Hs refreshed. destruct (Hprov w Hs) as [Hyes Hno]. split.
    + intros Hd. subst w'. rewrite (Hyes Hd). done.
    + intros Hd. subst w'. rewrite (Hno Hd). split; [done|]. simpl. exact Hs.
  - intros Hs. split; [by apply process_window_final|].
    intros e. unfold Window.add_event.
    rewrite (bool_decide_eq_false_2 (Window.state w = OPEN)) by congruence. done.
Qed.

(** Scenario S2 as a run: the five observations enter an OPEN window
    [0 s, 300 s); the tick at 1200 s = 300 s + 900 s closes the window,
    refreshes the off-chain events (aged 1190 s, beyond the 768 s of
    Ethereum) to TIER3 and finalizes the window. *)
Lemma window_final_only_when_settled_witness :
  let w' := Window._process_window Sample.silent_world (timedelta_seconds 1200)
              Sample.open_window (timedelta_seconds 1200) in
  Window.state w' = FINAL
  /\ timedelta_seconds 300 + timedelta_seconds 900 <= timedelta_seconds 1200
  /\ Forall Stated.settled (Window.events w').
Proof.
  intros w'. split; [reflexivity|].
  apply (window_final_only_when_settled Sample.silent_world (timedelta_seconds 1200)
           (timedelta_seconds 1200) Sample.open_window); [discriminate | reflexivity].
Defined.

(** ** The TCS calculator (C2) *)

Lemma get_confidence_tier_value_range (e : RiskEvent) :
  (0 <= get_confidence_tier_value e <= 1)%Q.
Proof.
  unfold get_confidence_tier_value. repeat case_decide; lra.
Qed.

Lemma importance_of_positive (source_type : option string) :
  (0 < TCS.importance_of TCS.tcs_calculator source_type)%Q.
Proof.
  destruct source_type as [s|]; simpl; [|lra].
  unfold Config.source_importance.
  repeat (rewrite lookup_insert; case_decide; [simpl; lra|]).
  rewrite lookup_empty. simpl. lra.
Qed.

Lemma finality_weight_fold_ok (events : list RiskEvent) (acc : Q * Q) :
  weight_ok acc ->
  weight_ok (fold_left (TCS.finality_weight_step TCS.tcs_calculator) events acc).
Proof.
  revert acc. induction events as [|e es IH]; intros acc Hacc; [done|].
  simpl. apply IH. destruct Hacc as [H0 H1]. unfold TCS.finality_weight_step.
  pose proof (get_confidence_tier_value_range e) as [Hc0 Hc1].
  pose proof (importance_of_positive (TCS._infer_source_type e)) as Hi.
  split; simpl; nra.
Qed.

Lemma finality_weight_range (events : list RiskEvent) :
  (0 <= TCS._calculate_finality_weight TCS.tcs_calculator events <= 1)%Q.
Proof.
  unfold TCS._calculate_finality_weight. destruct events as [|e es]; [lra|].
  pose proof (finality_weight_fold_ok (e :: es) ((0 # 1)%Q, (0 # 1)%Q)) as H.
  destruct (fold_left _ (e :: es) _) as [ws ti].
  destruct H as [H0 H1]; [split; simpl; lra|]. simpl in H0, H1.
  destruct (Qeq_bool ti (0 # 1)) eqn:E; [lra|].
  apply Qeq_bool_neq in E.
  assert (0 < ti)%Q as Hti by (apply Qle_lteq in H1; apply Qle_lteq in H0; lra).
  split.
  - apply Qle_shift_div_l; [done | lra].
  - apply Qle_shift_div_r; [done | lra].
Qed.

Lemma chain_finalities_fold_range (events : list RiskEvent) (m : gmap string Q) :
  map_Forall (fun _ v => (0 <= v <= 1)%Q) m ->
  map_Forall (fun _ v => (0 <= v <= 1)%Q) (fold_left TCS.chain_finalities_step events m).
Proof.
  revert m. induction events as [|e es IH]; intros m Hm; [done|].
  simpl. apply IH. unfold TCS.chain_finalities_step.
  pose proof (get_confidence_tier_value_range e) as Hc.
  destruct (m !! chain e) as [cur|] eqn:E.
  - apply map_Forall_insert_2; [|done].
    specialize (Hm _ _ E). simpl in Hm.
    destruct (py_min2_cases cur (get_confidence_tier_value e)) as [[-> _]|[-> _]]; done.
  - by apply map_Forall_insert_2.
Qed.

Lemma chain_confidence_range (events : list RiskEvent) :
  (0 <= TCS._calculate_chain_confidence events <= 1)%Q.
Proof.
  unfold TCS._calculate_chain_confidence. destruct events as [|e es]; [lra|].
  pose proof (chain_finalities_fold_range (e :: es) ∅ (map_Forall_empty _)) as H.
  destruct ((map_to_list _).*2) as [|v vs] eqn:E; [lra|].
  pose proof (py_min_elem v vs) as Hin. rewrite <- E in Hin.
  apply list_elem_of_fmap in Hin as ([k w] & -> & Hin).
  apply elem_of_map_to_list in Hin. exact (H _ _ Hin).
Qed.

Lemma completeness_nonneg (events : list RiskEvent) :
  (0 <= TCS._calculate_completeness TCS.tcs_calculator events)%Q.
Proof.
  unfold TCS._calculate_completeness. destruct events as [|e es]; [lra|].
  apply Qle_shift_div_l; [reflexivity|].
  rewrite Qmult_0_l. unfold Qle. simpl. lia.
Qed.

Lemma staleness_penalty_cases (events : list RiskEvent) (t : datetime) :
  let s := TCS._calculate_staleness_penalty TCS.tcs_calculator events t in
  s = (1 # 1)%Q \/ s = (9 # 10)%Q \/ s = (7 # 10)%Q.
Proof.
  unfold TCS._calculate_staleness_penalty. destruct events; [by left|].
  simpl. repeat case_match; auto.
Qed.

(** The clamp [max(0.0, min(1.0, q))]. *)
Ltac clamp_cases :=
  unfold py_max2, py_min2;
  repeat match goal with
         | |- context [Qltb ?a ?b] =>
             let E := fresh "E" in
             destruct (Qltb a b) eqn:E;
             [apply Qltb_lt in E | apply Qltb_ge in E]
         | H : context [Qltb ?a ?b] |- _ =>
             let E := fresh "E" in
             destruct (Qltb a b) eqn:E;
             [apply Qltb_lt in E | apply Qltb_ge in E]
         end.

Lemma clamp_range (q : Q) : (0 <= py_max2 (0 # 1) (py_min2 (1 # 1) q) <= 1)%Q.
Proof. clamp_cases; lra. Qed.

Lemma clamp_one (q : Q) : (py_max2 (0 # 1) (py_min2 (1 # 1) q) == 1 <-> 1 <= q)%Q.
Proof. clamp_cases; split; lra. Qed.

(** For every list of events and every reference time the TCS lies in
    [0,1], and it is 0 for the empty list. *)
Lemma calculate_tcs_in_unit_interval (events : list RiskEvent)
    (timestamp : option datetime) (now : datetime) :
  let b := TCS.calculate_tcs TCS.tcs_calculator events timestamp now in
  (0 <= cb_temporal_confidence b <= 1)%Q
  /\ (events = [] -> cb_temporal_confidence b = (0 # 1)%Q).
Proof.
  destruct events as [|e es]; [split; [cbn; lra|done]|].
  split; [|done].
  cbv beta iota zeta delta [TCS.calculate_tcs]. cbn [cb_temporal_confidence].
  apply clamp_range.
Qed.

(** C2.  The staleness penalty raises the score it is meant to lower:
    [calculate_tcs] divides by a penalty that is at most 1.  Five TIER3
    events of the five source types observed 400 s before the reference
    time have the penalty 0.9 and the TCS 1, so a TCS of 1 does not
    need fresh data; and four of them, the sentiment source missing,
    score 0.8 when fresh and 1 when they are 700 s old, with the
    penalty 0.7 and the completeness 0.8. *)
Theorem staleness_penalty_raises_tcs :
  let calculate_tcs := TCS.calculate_tcs TCS.tcs_calculator in
  let five := Sample.five_sources 0 in
  let four := take 4 five in
  let aged := calculate_tcs five (Some (timedelta_seconds 400)) 0 in
  let fresh := calculate_tcs four (Some 0) 0 in
  let stale := calculate_tcs four (Some (timedelta_seconds 700)) 0 in
  (cb_staleness_penalty aged = (9 # 10)%Q /\ (cb_temporal_confidence aged == 1)%Q)
  /\ (cb_staleness_penalty fresh = (1 # 1)%Q
      /\ (cb_completeness fresh == 8 # 10)%Q
      /\ (cb_temporal_confidence fresh == 8 # 10)%Q)
  /\ (cb_staleness_penalty stale = (7 # 10)%Q
      /\ (cb_completeness stale == 8 # 10)%Q
      /\ (cb_temporal_confidence stale == 1)%Q)
  /\ (cb_temporal_confidence fresh < cb_temporal_confidence stale)%Q.
Proof.
  intros calculate_tcs five four aged fresh stale.
  assert (cb_temporal_confidence fresh == 8 # 10)%Q as Hfresh by (vm_compute; reflexivity).
  assert (cb_temporal_confidence stale == 1)%Q as Hstale by (vm_compute; reflexivity).
  split; [split; vm_compute; reflexivity|].
  split; [split; [|split]; first [exact Hfresh | vm_compute; reflexivity]|].
  split; [split; [|split]; first [exact Hstale | vm_compute; reflexivity]|].
  rewrite Hfresh, Hstale. reflexivity.
Qed.

(** ** Chain confidence of a snapshot (C3) *)

Lemma chain_finalities_fold_decreases (events : list RiskEvent) (m : gmap string Q)
    (k : string) (v : Q) :
  m !! k = Some v ->
  exists v', fold_left TCS.chain_finalities_step events m !! k = Some v' /\ (v' <= v)%Q.
Proof.
  revert m v. induction events as [|e es IH]; intros m v Hk; simpl.
  - exists v. split; [done | lra].
  - unfold TCS.chain_finalities_step at 2.
    destruct (decide (chain e = k)) as [->|Hne].
    + rewrite Hk.
      destruct (IH (<[k := py_min2 v (get_confidence_tier_value e)]> m)
                  (py_min2 v (get_confidence_tier_value e))) as (v' & Hv' & Hle).
      { apply lookup_insert_eq. }
      exists v'. split; [done|].
      destruct (py_min2_cases v (get_confidence_tier_value e)) as [[E ?]|[E ?]];
        rewrite E in Hle; lra.
    + destruct (m !! chain e);
        (apply IH; by rewrite lookup_insert_ne).
Qed.

Lemma chain_finalities_fold_covers (events : list RiskEvent) (m : gmap string Q)
    (e : RiskEvent) :
  e ∈ events ->
  exists v, fold_left TCS.chain_finalities_step events m !! chain e = Some v
            /\ (v <= get_confidence_tier_value e)%Q.
Proof.
  revert m. induction events as [|x xs IH]; intros m Hin.
  - by apply elem_of_nil in Hin.
  - apply elem_of_cons in Hin as [<-|Hin]; [|by apply IH].
    simpl.
    assert (exists v, TCS.chain_finalities_step m e !! chain e = Some v
                      /\ (v <= get_confidence_tier_value e)%Q) as (v & Hv & Hle).
    { unfold TCS.chain_finalities_step. destruct (m !! chain e) as [cur|].
      - eexists. split; [apply lookup_insert_eq|].
        destruct (py_min2_cases cur (get_confidence_tier_value e)) as [[-> ?]|[-> ?]]; lra.
      - eexists. split; [apply lookup_insert_eq | lra]. }
    destruct (chain_finalities_fold_decreases xs _ _ _ Hv) as (v' & Hv' & Hle').
    exists v'. split; [done | lra].
Qed.

(** The calculator's chain confidence is below the confidence of every
    event of the batch. *)
Lemma tcs_chain_confidence_le (events : list RiskEvent) (e : RiskEvent) :
  e ∈ events ->
  (TCS._calculate_chain_confidence events <= get_confidence_tier_value e)%Q.
Proof.
  intros Hin. unfold TCS._calculate_chain_confidence.
  destruct events as [|x xs]; [by apply elem_of_nil in Hin|].
  destruct (chain_finalities_fold_covers (x :: xs) ∅ e Hin) as (v & Hv & Hle).
  apply elem_of_map_to_list in Hv.
  apply (list_elem_of_fmap_2 snd) in Hv. simpl in Hv.
  destruct ((map_to_list _).*2) as [|w ws]; [by apply elem_of_nil in Hv|].
  pose proof (py_min_le_all w ws v Hv). lra.
Qed.

(** The aggregator's chain confidence is below the confidence of every
    event of every chain. *)
Lemma aggregator_chain_confidence_le (events_by_chain : gmap string (list RiskEvent))
    (e : RiskEvent) :
  e ∈ concat ((Aggregator.items events_by_chain).*2) ->
  (Aggregator._calculate_chain_confidence events_by_chain
   <= get_confidence_tier_value e)%Q.
Proof.
  intros Hin. apply list_elem_of_In, in_concat in Hin as (evs & Hevs & He).
  apply list_elem_of_In in Hevs, He.
  apply list_elem_of_fmap in Hevs as ([k evs'] & -> & Hkv). simpl in He.
  unfold Aggregator._calculate_chain_confidence.
  destruct evs' as [|x xs]; [by apply elem_of_nil in He|].
  set (f := fun kv : string * list RiskEvent =>
              match get_confidence_tier_value <$> kv.2 with
              | [] => None
              | c :: cs => Some (py_min c cs)
              end).
  assert (py_min (get_confidence_tier_value x) (get_confidence_tier_value <$> xs)
          ∈ omap f (Aggregator.items events_by_chain)) as Hmin.
  { apply list_elem_of_omap. exists (k, x :: xs). split; [done|]. reflexivity. }
  assert (py_min (get_confidence_tier_value x) (get_confidence_tier_value <$> xs)
          <= get_confidence_tier_value e)%Q as Hle.
  { apply py_min_le_all. rewrite <- fmap_cons. by apply list_elem_of_fmap_2. }
  destruct (omap f _) as [|c cs]; [by apply elem_of_nil in Hmin|].
  pose proof (py_min_le_all c cs _ Hmin). lra.
Qed.

Lemma min_confidence_of_chain_attained (c : string) (events : list RiskEvent) (m : Q) :
  Stated.min_confidence_of_chain c events = Some m ->
  exists e, e ∈ events /\ chain e = c /\ m = get_confidence_tier_value e.
Proof.
  unfold Stated.min_confidence_of_chain, Snapshot.min_or_None. intros H.
  destruct (get_confidence_tier_value <$> _) as [|x xs] eqn:E; [done|].
  injection H as <-.
  pose proof (py_min_elem x xs) as Hin. rewrite <- E in Hin.
  apply list_elem_of_fmap in Hin as (e & -> & Hin).
  apply list_elem_of_In, filter_In in Hin as [Hin Hc].
  apply bool_decide_eq_true in Hc. apply list_elem_of_In in Hin. eauto.
Qed.

(** C3.  In the snapshot generated by a window from its valid events,
    and in the snapshot produced by the cross-chain aggregator from the
    events of all chains, the chain-confidence component of the
    confidence breakdown is at most the minimum tier confidence over
    the events of any chain present in the aggregated set. *)
Theorem snapshot_chain_confidence_le_chain_min (c : string) (m : Q) :
  (forall (w : Window.TimeWindow) (now : datetime),
     let aggregated := List.filter (fun e => negb (invalidated e)) (Window.events w) in
     Stated.min_confidence_of_chain c aggregated = Some m ->
     exists cc,
       Stated.chain_confidence_component (Window._generate_snapshot w now) = Some cc
       /\ (cc <= m)%Q)
  /\ (forall (events_by_chain : gmap string (list RiskEvent)) (window_id coin : string)
        (now : datetime) (snap : Snapshot.AggregatedRiskSnapshot),
        let aggregated := concat ((Aggregator.items events_by_chain).*2) in
        Aggregator.aggregate_cross_chain events_by_chain window_id coin now = Some snap ->
        Stated.min_confidence_of_chain c aggregated = Some m ->
        exists cc,
          Stated.chain_confidence_component snap = Some cc /\ (cc <= m)%Q).
Proof.
  split.
  - intros w now aggregated Hm.
    destruct (min_confidence_of_chain_attained _ _ _ Hm) as (e & Hin & _ & ->).
    unfold Window._generate_snapshot. fold aggregated.
    destruct aggregated as [|x xs] eqn:E; [by apply elem_of_nil in Hin|].
    exists (TCS._calculate_chain_confidence (x :: xs)). split.
    + unfold Stated.chain_confidence_component.
      destruct (Snapshot.mean_or_None _) as [p|]; [destruct (Config.COINS !! _)|];
        reflexivity.
    + by apply tcs_chain_confidence_le.
  - intros ebc wid coin now snap aggregated Hs Hm.
    destruct (min_confidence_of_chain_attained _ _ _ Hm) as (e & Hin & _ & ->).
    unfold Aggregator.aggregate_cross_chain in Hs. fold aggregated in Hs.
    destruct (Aggregator.items ebc) as [|kv kvs] eqn:Ei; [done|].
    destruct aggregated as [|x xs] eqn:E; [done|].
    exists (Aggregator._calculate_chain_confidence ebc). split.
    + destruct (Snapshot.mean_or_None _) as [p|];
        [destruct (Qeq_bool p 0); [|destruct (Config.COINS !! _)]|];
        injection Hs as <-; reflexivity.
    + apply aggregator_chain_confidence_le. unfold aggregated in E.
      rewrite Ei, E. done.
Qed.

(** Scenario S6 for the aggregator (Solana holds a TIER1 event, so the
    component is at most 0.3) and a window whose valid events are one
    Ethereum TIER3 and one Solana TIER2 event. *)
Lemma snapshot_chain_confidence_le_chain_min_witness :
  (exists cc,
     Stated.chain_confidence_component
       (Window._generate_snapshot Sample.mixed_window 0) = Some cc
     /\ (cc <= 8 # 10)%Q)
  /\ (exists snap cc,
        Aggregator.aggregate_cross_chain Sample.three_chains "w" "USDC" 0 = Some snap
        /\ Stated.chain_confidence_component snap = Some cc
        /\ (cc <= 3 # 10)%Q).
Proof.
  destruct (snapshot_chain_confidence_le_chain_min "solana" (8 # 10)%Q) as [HW _].
  destruct (snapshot_chain_confidence_le_chain_min "solana" (3 # 10)%Q) as [_ HA].
  split.
  - apply (HW Sample.mixed_window 0). vm_compute. reflexivity.
  - eexists. 
    assert (Aggregator.aggregate_cross_chain Sample.three_chains "w" "USDC" 0 = Some
      (default (Snapshot.empty "" "" 0)
         (Aggregator.aggregate_cross_chain Sample.three_chains "w" "USDC" 0))) as Hs
      by (vm_compute; reflexivity).
    destruct (HA _ _ _ _ _ Hs) as (cc & Hcc & Hle); [vm_compute; reflexivity|].
    exists cc. split; [exact Hs|]. split; [exact Hcc | exact Hle].
Defined.

(** ** Finality flag and tier (C4) *)

(** A refresh of an event that is not yet finalized (the only events
    the window manager and the finality monitor refresh) keeps
    [is_finalized] equivalent to TIER3. *)
Lemma refresh_keeps_finalized_iff_tier3 (tracker : Finality.FinalityTracker)
    (rpc : Finality.Rpc) (now : datetime) (e : RiskEvent) :
  is_finalized e = false ->
  Stated.finalized_iff_tier3 e ->
  Stated.finalized_iff_tier3 (Finality.update_event_finality tracker rpc now e).
Proof.
  intros Hnf Hinv. unfold Finality.update_event_finality.
  destruct (block_number e) as [bn|].
  - destruct (Finality.get_current_block_number rpc) as [h|]; [|done].
    destruct (Finality.check_block_exists rpc bn) as [[]|]; [|done|done].
    cbn [is_finalized set_finality_tier set_temporal_confidence set_confirmation_count].
    rewrite Hnf. cbn [negb]. rewrite andb_true_r.
    destruct (Finality.calculate_finality_tier tracker _);
      case_bool_decide; try done;
      unfold Stated.finalized_iff_tier3; cbn; rewrite ?Hnf; split; done.
  - unfold Finality._update_offchain_finality.
    repeat case_match; unfold Stated.finalized_iff_tier3; cbn; rewrite ?Hnf;
      split; done.
Qed.

(** C4 fails on the code.  In scenario S5 with a replacement that has
    already reached TIER3, the correction event emitted by the handler
    carries [finality_tier = "tier3"] (copied from the replacement)
    together with [is_finalized = false] (reset): the equivalence of
    [is_finalized] and TIER3 does not hold for it. *)
Theorem correction_event_tier3_not_finalized :
  let r := Reorg.handle_reorg Reorg.reorg_handler 0 "ethereum"
             [Sample.E1] (Some [Sample.E2_final]) in
  exists correction,
    Reorg.returned r = Some [correction]
    /\ finality_tier correction = FinalityTier_value TIER3
    /\ is_finalized correction = false
    /\ ~ Stated.finalized_iff_tier3 correction.
Proof.
  eexists. split; [reflexivity|]. split; [reflexivity|]. split; [reflexivity|].
  unfold Stated.finalized_iff_tier3. cbn. intros [_ H]. discriminate H. reflexivity.
Qed.

(** ** Monotone tiers and idempotent refresh (C5) *)

Lemma tier_rank_value (t : FinalityTier) :
  Stated.tier_rank (FinalityTier_value t)
  = match t with TIER1 => 1 | TIER2 => 2 | TIER3 => 3 end.
Proof. by destruct t. Qed.

Lemma calculate_finality_tier_mono (tracker : Finality.FinalityTracker) (c1 c2 : Z) :
  c1 <= c2 ->
  Stated.tier_rank (FinalityTier_value (Finality.calculate_finality_tier tracker c1))
  <= Stated.tier_rank (FinalityTier_value (Finality.calculate_finality_tier tracker c2)).
Proof.
  intros H. rewrite !tier_rank_value. unfold Finality.calculate_finality_tier.
  repeat match goal with
         | |- context [?a <=? ?b] => destruct (Z.leb_spec a b)
         end; lia.
Qed.

(** The tier an off-chain refresh writes. *)
Lemma offchain_tier (tracker : Finality.FinalityTracker) (now : datetime) (e : RiskEvent) :
  finality_tier (Finality._update_offchain_finality tracker now e)
  = FinalityTier_value
      (if Qleb (inject_Z (tier3_time_sec (Finality.chain_config tracker)))
               (total_seconds (now - timestamp e)) then TIER3
       else if Qleb (inject_Z (tier2_time_sec (Finality.chain_config tracker)))
                    (total_seconds (now - timestamp e)) then TIER2
       else TIER1).
Proof.
  unfold Finality._update_offchain_finality. repeat case_match; reflexivity.
Qed.

Lemma total_seconds_mono (d1 d2 : timedelta) :
  d1 <= d2 -> (total_seconds d1 <= total_seconds d2)%Q.
Proof. intros H. unfold total_seconds, Qle. simpl. lia. Qed.

Lemma offchain_tier_mono (tracker : Finality.FinalityTracker) (now1 now2 : datetime)
    (e1 e2 : RiskEvent) :
  now1 <= now2 -> timestamp e1 = timestamp e2 ->
  Stated.tier_rank (finality_tier (Finality._update_offchain_finality tracker now1 e1))
  <= Stated.tier_rank (finality_tier (Finality._update_offchain_finality tracker now2 e2)).
Proof.
  intros Hn Ht. rewrite !offchain_tier, !tier_rank_value, Ht.
  assert (total_seconds (now1 - timestamp e2)%Z <= total_seconds (now2 - timestamp e2)%Z)%Q
    as Hage by (apply total_seconds_mono; lia).
  repeat match goal with
         | |- context [Qleb ?a ?b] =>
             let E := fresh "E" in
             destruct (Qleb a b) eqn:E;
             [apply Qleb_le in E
             |apply not_true_iff_false in E; rewrite Qleb_le in E]
         end; try lia; exfalso; apply E0 || apply E1 || apply E; lra.
Qed.

(** The fields a refresh never writes. *)
Lemma refresh_keeps_anchor (tracker : Finality.FinalityTracker) (rpc : Finality.Rpc)
    (now : datetime) (e : RiskEvent) :
  let e' := Finality.update_event_finality tracker rpc now e in
  block_number e' = block_number e /\ timestamp e' = timestamp e
  /\ (invalidated e = true -> invalidated e' = true).
Proof.
  unfold Finality.update_event_finality, Finality._update_offchain_finality.
  repeat case_match; done.
Qed.

(** The refresh is idempotent: with the same answers of the chain and
    the same clock, a second application changes nothing. *)
Lemma refresh_idempotent (tracker : Finality.FinalityTracker) (rpc : Finality.Rpc)
    (now : datetime) (e : RiskEvent) :
  Finality.update_event_finality tracker rpc now
    (Finality.update_event_finality tracker rpc now e)
  = Finality.update_event_finality tracker rpc now e.
Proof.
  destruct e. unfold Finality.update_event_finality, Finality._update_offchain_finality.
  cbn. repeat (case_match; simplify_eq/=; try done).
Qed.

(** The tier an on-chain refresh writes when the chain answers and the
    block exists. *)
Lemma onchain_tier (tracker : Finality.FinalityTracker) (rpc : Finality.Rpc)
    (now : datetime) (e : RiskEvent) (bn h : Z) :
  block_number e = Some bn ->
  Finality.get_current_block_number rpc = Some h ->
  Finality.check_block_exists rpc bn = Some true ->
  finality_tier (Finality.update_event_finality tracker rpc now e)
  = FinalityTier_value (Finality.calculate_finality_tier tracker (Z.max 0 (h - bn + 1))).
Proof.
  intros Hbn Hh Hb. unfold Finality.update_event_finality. rewrite Hbn, Hh, Hb.
  cbv zeta. by case_match.
Qed.

(** An on-chain refresh either writes the tier of the observed head or
    leaves the tier as it is. *)
Lemma onchain_tier_cases (tracker : Finality.FinalityTracker) (rpc : Finality.Rpc)
    (now : datetime) (e : RiskEvent) (bn : Z) :
  block_number e = Some bn ->
  (exists h, Finality.get_current_block_number rpc = Some h
             /\ finality_tier (Finality.update_event_finality tracker rpc now e)
                = FinalityTier_value
                    (Finality.calculate_finality_tier tracker (Z.max 0 (h - bn + 1))))
  \/ finality_tier (Finality.update_event_finality tracker rpc now e) = finality_tier e.
Proof.
  intros Hbn.
  destruct (Finality.get_current_block_number rpc) as [h|] eqn:Hh.
  - destruct (Finality.check_block_exists rpc bn) as [[]|] eqn:Hb.
    + left. exists h. split; [done|]. by apply onchain_tier.
    + right. unfold Finality.update_event_finality. by rewrite Hbn, Hh, Hb.
    + right. unfold Finality.update_event_finality. by rewrite Hbn, Hh, Hb.
  - right. unfold Finality.update_event_finality. by rewrite Hbn, Hh.
Qed.

Lemma onchain_reorg (tracker : Finality.FinalityTracker) (rpc : Finality.Rpc)
    (now : datetime) (e : RiskEvent) (bn h : Z) :
  block_number e = Some bn ->
  Finality.get_current_block_number rpc = Some h ->
  Finality.check_block_exists rpc bn = Some false ->
  invalidated (Finality.update_event_finality tracker rpc now e) = true.
Proof.
  intros Hbn Hh Hb. unfold Finality.update_event_finality. by rewrite Hbn, Hh, Hb.
Qed.

(** C5, as stated, fails: an Ethereum event anchored at block 100 is
    refreshed at head 163 (64 confirmations, TIER3) and then at head
    120 (21 confirmations); the block exists both times, the event is
    not invalidated, and its tier drops to TIER1. *)
Lemma refresh_downgrades_on_lower_head :
  ~ (forall (tracker : Finality.FinalityTracker) (rpc1 rpc2 : Finality.Rpc)
       (now1 now2 : datetime) (e : RiskEvent),
       let e1 := Finality.update_event_finality tracker rpc1 now1 e in
       let e2 := Finality.update_event_finality tracker rpc2 now2 e1 in
       invalidated e2 = false ->
       Stated.tier_rank (finality_tier e1) <= Stated.tier_rank (finality_tier e2)).
Proof.
  intros H.
  specialize (H Sample.ethereum_tracker (Sample.chain_at 163) (Sample.chain_at 120)
                0 (timedelta_seconds 10) Sample.E1).
  vm_compute in H. apply H; reflexivity.
Qed.

(** C5, amended.  For two successive refreshes of an event, the first of
    which was answered by the chain, such that the head height observed
    by the second is not below the one observed by the first and the
    clock has not gone back, the tier after the second refresh is not
    below the tier after the first unless the event is invalidated (a
    lower head height downgrades the tier); and the refresh is
    idempotent: repeated with the same answers and the same clock it
    leaves the event as the first application left it. *)
Theorem refresh_tier_monotone (tracker : Finality.FinalityTracker)
    (rpc1 rpc2 : Finality.Rpc) (now1 now2 : datetime) (e : RiskEvent) :
  let e1 := Finality.update_event_finality tracker rpc1 now1 e in
  let e2 := Finality.update_event_finality tracker rpc2 now2 e1 in
  (Stated.answered rpc1 e ->
   Stated.head_not_below rpc1 rpc2 ->
   now1 <= now2 ->
   invalidated e2 = false ->
   Stated.tier_rank (finality_tier e1) <= Stated.tier_rank (finality_tier e2))
  /\ Finality.update_event_finality tracker rpc1 now1 e1 = e1.
Proof.
  intros e1 e2. split; [|apply refresh_idempotent].
  intros Hans Hhead Hnow Hinv.
  pose proof (refresh_keeps_anchor tracker rpc1 now1 e) as (Hb1 & Ht1 & _).
  pose proof (refresh_keeps_anchor tracker rpc2 now2 e1) as (_ & _ & Hi2).
  fold e1 in Hb1, Ht1. fold e2 in Hi2.
  unfold Stated.answered in Hans.
  destruct (block_number e) as [bn|] eqn:Hbn.
  - destruct Hans as [[h1 Hh1] [b1 Hb]]. destruct b1.
    + pose proof (onchain_tier tracker rpc1 now1 e bn h1 Hbn Hh1 Hb) as Htier1.
      fold e1 in Htier1.
      destruct (onchain_tier_cases tracker rpc2 now2 e1 bn Hb1)
        as [(h2 & Hh2 & Htier2) | Hsame]; fold e2 in Htier2 || fold e2 in Hsame.
      * rewrite Htier1, Htier2. apply calculate_finality_tier_mono.
        specialize (Hhead h1 h2 Hh1 Hh2). lia.
      * rewrite Hsame. lia.
    + pose proof (onchain_reorg tracker rpc1 now1 e bn h1 Hbn Hh1 Hb) as Hi.
      fold e1 in Hi. specialize (Hi2 Hi). congruence.
  - assert (e1 = Finality._update_offchain_finality tracker now1 e) as He1.
    { unfold e1, Finality.update_event_finality. by rewrite Hbn. }
    assert (e2 = Finality._update_offchain_finality tracker now2 e1) as He2.
    { unfold e2, Finality.update_event_finality. by rewrite Hb1. }
    pose proof (offchain_tier_mono tracker now1 now2 e e1 Hnow (eq_sym Ht1)) as H.
    rewrite <- He1, <- He2 in H. exact H.
Qed.

(** An Ethereum event anchored at block 100, refreshed at head 131 (32
    confirmations, TIER2) and then at head 163 (64 confirmations,
    TIER3). *)
Lemma refresh_tier_monotone_witness :
  let e1 := Finality.update_event_finality Sample.ethereum_tracker
              (Sample.chain_at 131) 0 Sample.E1 in
  let e2 := Finality.update_event_finality Sample.ethereum_tracker
              (Sample.chain_at 163) (timedelta_seconds 384) e1 in
  finality_tier e1 = "tier2" /\ finality_tier e2 = "tier3"
  /\ Stated.tier_rank (finality_tier e1) <= Stated.tier_rank (finality_tier e2).
Proof.
  intros e1 e2. split; [reflexivity|]. split; [reflexivity|].
  apply (refresh_tier_monotone Sample.ethereum_tracker (Sample.chain_at 131)
           (Sample.chain_at 163) 0 (timedelta_seconds 384) Sample.E1).
  - split; eexists; reflexivity.
  - intros h1 h2 H1 H2. injection H1 as <-. injection H2 as <-. lia.
  - vm_compute. discriminate.
  - reflexivity.
Defined.

(** ** Corrections emitted by the reorg handler (C6) *)

Lemma is_replacement_of_matches (old_event new_event : RiskEvent) :
  Reorg.is_replacement_of old_event new_event = true <-> Stated.matches old_event new_event.
Proof.
  unfold Reorg.is_replacement_of, Stated.matches.
  rewrite !andb_true_iff, !bool_decide_eq_true, Qltb_lt.
  assert ((Qabs (total_seconds (timestamp new_event - timestamp old_event)%Z) < 60 # 1)%Q
          <-> Z.abs (timestamp new_event - timestamp old_event) < timedelta_seconds 60) as ->.
  { unfold total_seconds, timedelta_seconds, Qlt. simpl.
    generalize (timestamp new_event - timestamp old_event). intros d. lia. }
  tauto.
Qed.

Lemma find_replacement_some (old_event : RiskEvent) (new_events : list RiskEvent) :
  (exists r, r ∈ new_events /\ Stated.matches old_event r) ->
  exists r, Reorg._find_replacement_event old_event new_events = Some r.
Proof.
  intros (r & Hin & Hm). unfold Reorg._find_replacement_event.
  destruct (List.find _ new_events) as [r'|] eqn:E; [by eexists|].
  exfalso. apply list_elem_of_In in Hin.
  pose proof (find_none _ _ E r Hin) as H.
  apply is_replacement_of_matches in Hm. congruence.
Qed.

(** One affected event with a matching replacement. *)
Lemma handle_one_matched (now : datetime) (news : list RiskEvent)
    (self : Reorg.ReorgHandler) (old_event : RiskEvent) :
  news <> [] ->
  (exists r, r ∈ news /\ Stated.matches old_event r) ->
  exists self' old' c,
    Reorg.handle_one now (Some news) self old_event = (self', old', Some c)
    /\ invalidated old' = true
    /\ replacement_event_id old' = Some (event_id old_event)
    /\ event_id c = event_id old_event
    /\ event_version c = Reorg.current_version self (event_id old_event) + 1
    /\ is_finalized c = false
    /\ original_block_number c = block_number old_event
    /\ Reorg.event_versions self'
       = <[event_id old_event := Reorg.current_version self (event_id old_event) + 1]>
           (Reorg.event_versions self).
Proof.
  intros Hne Hm. unfold Reorg.handle_one. cbv zeta.
  destruct news as [|n ns]; [done|].
  set (old1 := set_reorg_detected_at (Some now) (set_invalidated true old_event)).
  destruct (find_replacement_some old1 (n :: ns)) as [r Hr].
  { destruct Hm as (r & Hin & Hc & Hs & Ht). exists r. repeat split; done. }
  rewrite Hr. cbn. do 3 eexists. split; [reflexivity|]. repeat split.
Qed.

Lemma handle_loop_cons (now : datetime) (news : option (list RiskEvent))
    (self self1 : Reorg.ReorgHandler) (old_event old' : RiskEvent) (c : option RiskEvent)
    (rest : list RiskEvent) :
  Reorg.handle_one now news self old_event = (self1, old', c) ->
  Reorg.handle_loop now news self (old_event :: rest)
  = let '(self2, rest', corrections) := Reorg.handle_loop now news self1 rest in
    (self2, old' :: rest', from_option (fun x => x :: corrections) corrections c).
Proof. intros H. cbn [Reorg.handle_loop]. by rewrite H. Qed.

(** The loop over affected events that all have a matching replacement. *)
Lemma handle_loop_matched (now : datetime) (news affected : list RiskEvent)
    (self : Reorg.ReorgHandler) :
  news <> [] ->
  Forall (fun old_event => exists r, r ∈ news /\ Stated.matches old_event r) affected ->
  exists self' mutated corrections,
    Reorg.handle_loop now (Some news) self affected = (self', mutated, corrections)
    /\ length mutated = length affected
    /\ length corrections = length affected
    /\ forall (i : nat) (old_event : RiskEvent),
         affected !! i = Some old_event ->
         exists old' c,
           mutated !! i = Some old'
           /\ corrections !! i = Some c
           /\ invalidated old' = true
           /\ replacement_event_id old' = Some (event_id old_event)
           /\ event_id c = event_id old_event
           /\ event_version c
              = Stated.version_on_record self now (Some news) affected i
                  (event_id old_event) + 1
           /\ is_finalized c = false
           /\ original_block_number c = block_number old_event.
Proof.
  intros Hne Hall. revert self.
  induction Hall as [|old_event rest Hm _ IH]; intros self.
  - exists self, [], []. split; [done|]. split; [done|]. split; [done|].
    intros i o Hi. by rewrite lookup_nil in Hi.
  - destruct (handle_one_matched now news self old_event Hne Hm)
      as (self1 & old' & c & H1 & Hinv & Hrep & Hid & Hver & Hfin & Horig & _).
    destruct (IH self1) as (self2 & mutated & corrections & H2 & Hl1 & Hl2 & Hrest).
    exists self2, (old' :: mutated), (c :: corrections).
    split; [by rewrite (handle_loop_cons _ _ _ _ _ _ _ _ H1), H2|].
    split; [simpl; lia|]. split; [simpl; lia|].
    intros [|i] o Hi.
    + injection Hi as <-. exists old', c. repeat split; done.
    + destruct (Hrest i o Hi) as (o' & c' & ? & ? & ? & ? & ? & Hv & ? & ?).
      exists o', c'. repeat split; try done.
      rewrite Hv. unfold Stated.version_on_record.
      cbn [take]. rewrite (handle_loop_cons _ _ _ _ _ _ _ _ H1).
      by destruct (Reorg.handle_loop now (Some news) self1 (take i rest)) as [[? ?] ?].
Qed.

(** The handler touches the recorded version of no other event id. *)
Lemma handle_loop_versions_other (now : datetime) (news : option (list RiskEvent))
    (affected : list RiskEvent) (self : Reorg.ReorgHandler) (id : string) :
  id ∉ event_id <$> affected ->
  Reorg.current_version (Reorg.handle_loop now news self affected).1.1 id
  = Reorg.current_version self id.
Proof.
  revert self. induction affected as [|old_event rest IH]; intros self Hid; [done|].
  rewrite fmap_cons, not_elem_of_cons in Hid. destruct Hid as [Hne Hid].
  destruct (Reorg.handle_one now news self old_event) as [[self1 old'] c] eqn:H1.
  rewrite (handle_loop_cons _ _ _ _ _ _ _ _ H1).
  specialize (IH self1 Hid).
  destruct (Reorg.handle_loop now news self1 rest) as [[self2 ?] ?]. simpl in *.
  rewrite IH. unfold Reorg.handle_one in H1. cbv zeta in H1.
  destruct (match news with | Some (_ :: _ as l) => _ | _ => None end) as [r|].
  - cbn in H1. injection H1 as <- _ _. unfold Reorg.current_version. cbn.
    by rewrite lookup_insert_ne.
  - by injection H1 as <- _ _.
Qed.

(** What does hold of the corrections.  When a reorg is handled (for a
    chain the handler keeps a log of) with a non-empty replacement set in which every affected event
    has a match (same coin and source, timestamps less than 60 seconds
    apart), the call returns exactly one correction per affected event,
    in order; every affected event ends with [invalidated = true] and
    [replacement_event_id] set to its own id; its correction shares its
    [event_id], has [is_finalized = false], takes [original_block_number]
    from the invalidated event's block, and carries as [event_version]
    the version the handler had on record for that id (1 when none)
    plus one, which is the version on record when the call started if
    the id did not occur earlier among the affected events. *)
Theorem handle_reorg_one_correction_each (self : Reorg.ReorgHandler) (now : datetime)
    (chain_name : string) (affected news : list RiskEvent) :
  news <> [] ->
  Forall (fun old_event => exists r, r ∈ news /\ Stated.matches old_event r) affected ->
  is_Some (Reorg.reorg_history self !! chain_name) ->
  let r := Reorg.handle_reorg self now chain_name affected (Some news) in
  exists corrections,
    Reorg.returned r = Some corrections
    /\ length corrections = length affected
    /\ length (Reorg.mutated r) = length affected
    /\ forall (i : nat) (old_event : RiskEvent),
         affected !! i = Some old_event ->
         exists old' c,
           Reorg.mutated r !! i = Some old'
           /\ corrections !! i = Some c
           /\ invalidated old' = true
           /\ replacement_event_id old' = Some (event_id old_event)
           /\ event_id c = event_id old_event
           /\ event_version c
              = Stated.version_on_record self now (Some news) affected i
                  (event_id old_event) + 1
           /\ (event_id old_event ∉ event_id <$> take i affected ->
               event_version c = Reorg.current_version self (event_id old_event) + 1)
           /\ is_finalized c = false
           /\ original_block_number c = block_number old_event.
Proof.
  intros Hne Hall [history Hh] r.
  destruct (handle_loop_matched now news affected self Hne Hall)
    as (self' & mutated & corrections & Hloop & Hl1 & Hl2 & Hspec).
  assert (r = {| Reorg.handler :=
                   {| Reorg.reorg_history := Reorg.reorg_history
                        (Reorg.handler r);
                      Reorg.event_versions := Reorg.event_versions self' |};
                 Reorg.mutated := mutated;
                 Reorg.returned := Some corrections |}) as Hr.
  { subst r. unfold Reorg.handle_reorg. rewrite Hloop.
    assert (Reorg.reorg_history self' = Reorg.reorg_history self) as Hsame.
    { clear -Hloop. revert self self' mutated corrections Hloop.
      induction affected as [|o rest IH]; intros self self' mutated corrections Hloop.
      - by injection Hloop as <- _ _.
      - destruct (Reorg.handle_one now (Some news) self o) as [[s1 o'] c] eqn:H1.
        rewrite (handle_loop_cons _ _ _ _ _ _ _ _ H1) in Hloop.
        destruct (Reorg.handle_loop now (Some news) s1 rest) as [[s2 m2] c2] eqn:H2.
        injection Hloop as <- _ _. rewrite (IH _ _ _ _ H2).
        unfold Reorg.handle_one in H1. cbv zeta in H1.
        destruct (match news with | [] => None | _ => _ end) as [x|].
        + cbn in H1. by injection H1 as <- _ _.
        + by injection H1 as <- _ _. }
    rewrite Hsame, Hh. reflexivity. }
  exists corrections. rewrite Hr. cbn [Reorg.returned Reorg.mutated].
  split; [done|]. split; [done|]. split; [done|].
  intros i o Hi. destruct (Hspec i o Hi) as (o' & c & ? & ? & ? & ? & ? & Hv & ? & ?).
  exists o', c. repeat split; try done.
  intros Hfresh. rewrite Hv. f_equal. unfold Stated.version_on_record.
  by apply handle_loop_versions_other.
Qed.

(** Scenario S5: [E1] (id X, version 1, block 100) with replacement
    [E2] (block 101, price 0.999) gives one correction with id X,
    version 2, block 101, price 0.999 and original block 100. *)
Example scenario_S5 :
  let r := Reorg.handle_reorg Reorg.reorg_handler 0 "ethereum"
             [Sample.E1] (Some [Sample.E2]) in
  exists old' c,
    Reorg.returned r = Some [c]
    /\ Reorg.mutated r = [old']
    /\ invalidated old' = true
    /\ replacement_event_id old' = Some "X"
    /\ event_id c = "X"
    /\ event_version c = 2
    /\ is_finalized c = false
    /\ original_block_number c = Some 100
    /\ block_number c = Some 101
    /\ price c = Some (999 # 1000)%Q.
Proof. do 2 eexists. repeat split; reflexivity. Qed.

Lemma handle_reorg_one_correction_each_witness :
  let r := Reorg.handle_reorg Reorg.reorg_handler 0 "ethereum"
             [Sample.E1] (Some [Sample.E2]) in
  exists corrections,
    Reorg.returned r = Some corrections
    /\ length corrections = 1%nat
    /\ length (Reorg.mutated r) = 1%nat
    /\ forall (i : nat) (old_event : RiskEvent),
         [Sample.E1] !! i = Some old_event ->
         exists old' c,
           Reorg.mutated r !! i = Some old'
           /\ corrections !! i = Some c
           /\ invalidated old' = true
           /\ replacement_event_id old' = Some (event_id old_event)
           /\ event_id c = event_id old_event
           /\ event_version c
              = Stated.version_on_record Reorg.reorg_handler 0 (Some [Sample.E2])
                  [Sample.E1] i (event_id old_event) + 1
           /\ (event_id old_event ∉ event_id <$> take i [Sample.E1] ->
               event_version c
               = Reorg.current_version Reorg.reorg_handler (event_id old_event) + 1)
           /\ is_finalized c = false
           /\ original_block_number c = block_number old_event.
Proof.
  apply (handle_reorg_one_correction_each Reorg.reorg_handler 0 "ethereum"
           [Sample.E1] [Sample.E2]).
  - discriminate.
  - constructor; [|constructor]. exists Sample.E2.
    split; [apply elem_of_cons; by left|]. repeat split; vm_compute; reflexivity.
  - eexists. reflexivity.
Defined.

(** C6.  The version of a correction is not the version of the event it
    corrects plus one.  [_create_correction_event] counts from the
    handler's own record of the [event_id], 1 when it has none, and
    never reads [event_version] of the invalidated event: an event at
    version 5 that the handler has no record of gets a correction at
    version 2; and a correction at version 2, invalidated in its turn
    and handled by a handler that has just been created, gets a
    correction that is again at version 2, with the same [event_id]. *)
Theorem correction_version_ignores_event_version :
  let old5 := set_event_version 5 Sample.E1 in
  let r5 := Reorg.handle_reorg Reorg.reorg_handler 0 "ethereum"
              [old5] (Some [Sample.E2]) in
  let r1 := Reorg.handle_reorg Reorg.reorg_handler 0 "ethereum"
              [Sample.E1] (Some [Sample.E2]) in
  let E3 := Sample.RiskEvent_new "Z" (timedelta_seconds 24) "USDC" "ethereum" "S"
              (Some (998 # 1000)%Q) None None None None None (Some 102) "tier1" in
  (exists c,
     Reorg.returned r5 = Some [c]
     /\ event_id c = event_id old5
     /\ event_version old5 = 5
     /\ event_version c = 2)
  /\ (exists c1 c2,
        Reorg.returned r1 = Some [c1]
        /\ event_version c1 = 2
        /\ Reorg.returned (Reorg.handle_reorg Reorg.reorg_handler
                             (timedelta_seconds 30) "ethereum" [c1] (Some [E3]))
           = Some [c2]
        /\ event_id c2 = event_id c1
        /\ event_version c2 = 2).
Proof.
  intros old5 r5 r1 E3. split.
  - eexists. split; [reflexivity|]. by split_and!.
  - do 2 eexists. split; [reflexivity|]. split; [reflexivity|].
    split; [reflexivity|]. by split.
Qed.

(** ** The outlier stage writes two fields of the events it flags *)

Lemma erase_penalize (e : RiskEvent) :
  Stated.erase (Quality.penalize e) = Stated.erase e.
Proof. reflexivity. Qed.

Lemma erase_inj (a b : RiskEvent) :
  Stated.erase a = Stated.erase b ->
  quality_score a = quality_score b ->
  is_outlier a = is_outlier b ->
  a = b.
Proof.
  destruct a, b. unfold Stated.erase. cbn. intros H Hq Ho.
  injection H as -> -> -> -> -> -> -> -> -> -> -> -> -> -> -> -> -> -> -> -> -> -> -> ->
    -> -> ->.
  by rewrite Hq, Ho.
Qed.

Section StoreInvariant.
Variable self : Quality.DataQualityPipeline.

(** A property of the events of the store, by position, that flagging
    an event keeps. *)
Variable Q : nat -> RiskEvent -> Prop.
Hypothesis Q_penalize : forall i a, Q i a -> Q i (Quality.penalize a).

Lemma flag_step_holds metric values store i :
  holds Q store -> holds Q (Quality.flag_step self metric values store i).
Proof.
  intros H. unfold Quality.flag_step.
  destruct (store !! i) as [a|] eqn:Ea; [|done].
  destruct (metric a); [|done].
  destruct (Quality.z_score_exceeds _ _ _); [|done].
  intros j b Hj. destruct (decide (i = j)) as [<-|Hne].
  - rewrite list_lookup_insert_eq in Hj by (by eapply lookup_lt_Some).
    injection Hj as <-. by apply Q_penalize, H.
  - rewrite list_lookup_insert_ne in Hj by done. by apply H.
Qed.

Lemma flag_step_length metric values store i :
  length (Quality.flag_step self metric values store i) = length store.
Proof.
  unfold Quality.flag_step. repeat case_match; by rewrite ?length_insert.
Qed.

Lemma flag_fold_holds metric values idxs store :
  holds Q store -> holds Q (fold_left (Quality.flag_step self metric values) idxs store).
Proof.
  revert store. induction idxs as [|i idxs IH]; intros store H; [done|].
  simpl. by apply IH, flag_step_holds.
Qed.

Lemma flag_fold_length metric values idxs store :
  length (fold_left (Quality.flag_step self metric values) idxs store) = length store.
Proof.
  revert store. induction idxs as [|i idxs IH]; intros store; [done|].
  simpl. by rewrite IH, flag_step_length.
Qed.

Lemma metric_pass_holds metric store idxs :
  holds Q store -> holds Q (Quality.metric_pass self metric store idxs).
Proof.
  intros H. unfold Quality.metric_pass. repeat case_match; try done.
  by apply flag_fold_holds.
Qed.

Lemma metric_pass_length metric store idxs :
  length (Quality.metric_pass self metric store idxs) = length store.
Proof.
  unfold Quality.metric_pass. repeat case_match; try done. apply flag_fold_length.
Qed.

Lemma detect_in_market_holds store idxs :
  holds Q store -> holds Q (Quality._detect_outliers_in_market self store idxs).
Proof.
  intros H. unfold Quality._detect_outliers_in_market. case_match; [done|].
  by do 2 apply metric_pass_holds.
Qed.

Lemma detect_in_market_length store idxs :
  length (Quality._detect_outliers_in_market self store idxs) = length store.
Proof.
  unfold Quality._detect_outliers_in_market. case_match; [done|].
  by rewrite !metric_pass_length.
Qed.

Lemma detect_markets_holds (groups : list (string * string * list nat)) store :
  holds Q store ->
  holds Q (fold_left (fun st kv => Quality._detect_outliers_in_market self st kv.2)
             groups store).
Proof.
  revert store. induction groups as [|g groups IH]; intros store H; [done|].
  simpl. by apply IH, detect_in_market_holds.
Qed.

Lemma detect_markets_length (groups : list (string * string * list nat)) store :
  length (fold_left (fun st kv => Quality._detect_outliers_in_market self st kv.2)
            groups store) = length store.
Proof.
  revert store. induction groups as [|g groups IH]; intros store; [done|].
  simpl. by rewrite IH, detect_in_market_length.
Qed.

Lemma detect_outliers_holds events :
  holds Q events -> holds Q (Quality._detect_outliers self events).
Proof.
  intros H. unfold Quality._detect_outliers. case_match; [done|].
  by apply detect_markets_holds.
Qed.

Lemma detect_outliers_length events :
  length (Quality._detect_outliers self events) = length events.
Proof.
  unfold Quality._detect_outliers. case_match; [done|]. apply detect_markets_length.
Qed.

End StoreInvariant.

(** Outliers are retained: the stage returns the events of the batch,
    in order, changed in [is_outlier] and [quality_score] at most, and
    never resets a flag. *)
Lemma detect_outliers_retains (self : Quality.DataQualityPipeline)
    (events : list RiskEvent) :
  length (Quality._detect_outliers self events) = length events
  /\ forall i a b,
       events !! i = Some a ->
       Quality._detect_outliers self events !! i = Some b ->
       Stated.erase b = Stated.erase a
       /\ (is_outlier a = true -> is_outlier b = true).
Proof.
  split; [apply detect_outliers_length|].
  intros i a b Ha Hb.
  pose proof (detect_outliers_holds self
                (fun i b => forall a, events !! i = Some a ->
                   Stated.erase b = Stated.erase a
                   /\ (is_outlier a = true -> is_outlier b = true))) as H.
  apply (H) with (events := events) (i := i) (a := b); try done.
  - intros j x Hx y Hy. destruct (Hx y Hy) as [He Ho]. split; [|done].
    by rewrite erase_penalize.
  - intros j x Hx y Hy. rewrite Hx in Hy. by injection Hy as <-.
Qed.

(** ** Two runs of the outlier stage on batches with the same data *)

Section Lockstep.
Variable self : Quality.DataQualityPipeline.

(** [cs] gives, by position, a flag the events of the second batch
    carry from the start. *)
Variable cs : list bool.

Lemma alike_penalize i a b :
  alike cs i a b -> alike cs i (Quality.penalize a) (Quality.penalize b).
Proof.
  intros (He & Hq & Ho). split; [by rewrite !erase_penalize|].
  split; [cbn; by rewrite Hq | done].
Qed.

Lemma alike_metric (metric : RiskEvent -> option Q) i a b :
  (forall e, metric (Stated.erase e) = metric e) ->
  alike cs i a b -> metric a = metric b.
Proof. intros Hm (He & _). by rewrite <- (Hm a), <- (Hm b), He. Qed.

Lemma lockstep_lookup S T i :
  lockstep cs S T ->
  match S !! i, T !! i with
  | Some a, Some b => alike cs i a b
  | None, None => True
  | _, _ => False
  end.
Proof.
  intros [Hl H]. destruct (S !! i) as [a|] eqn:Ea, (T !! i) as [b|] eqn:Eb.
  - by apply H.
  - apply lookup_lt_Some in Ea. apply lookup_ge_None in Eb. lia.
  - apply lookup_ge_None in Ea. apply lookup_lt_Some in Eb. lia.
  - done.
Qed.

Lemma values_at_lockstep metric S T idxs :
  (forall e, metric (Stated.erase e) = metric e) ->
  lockstep cs S T ->
  Quality.values_at metric S idxs = Quality.values_at metric T idxs.
Proof.
  intros Hm H. unfold Quality.values_at.
  induction idxs as [|i idxs IH]; [done|]. cbn [omap list_omap]. rewrite IH.
  pose proof (lockstep_lookup S T i H) as Hi.
  destruct (S !! i) as [a|], (T !! i) as [b|]; try done.
  cbn. by rewrite (alike_metric metric i a b Hm Hi).
Qed.

Lemma flag_step_lockstep metric values S T i :
  (forall e, metric (Stated.erase e) = metric e) ->
  lockstep cs S T ->
  lockstep cs (Quality.flag_step self metric values S i)
              (Quality.flag_step self metric values T i).
Proof.
  intros Hm H. unfold Quality.flag_step.
  pose proof (lockstep_lookup S T i H) as Hi.
  destruct (S !! i) as [a|] eqn:Ea, (T !! i) as [b|] eqn:Eb; try done.
  rewrite <- (alike_metric metric i a b Hm Hi).
  destruct (metric a); [|done].
  destruct (Quality.z_score_exceeds _ _ _); [|done].
  destruct H as [Hl H]. split; [by rewrite !length_insert|].
  intros j x y Hx Hy. destruct (decide (i = j)) as [<-|Hne].
  - rewrite list_lookup_insert_eq in Hx by (by eapply lookup_lt_Some).
    rewrite list_lookup_insert_eq in Hy by (by eapply lookup_lt_Some).
    injection Hx as <-. injection Hy as <-. by apply alike_penalize.
  - rewrite list_lookup_insert_ne in Hx, Hy by done. by apply H.
Qed.

Lemma flag_fold_lockstep metric values idxs S T :
  (forall e, metric (Stated.erase e) = metric e) ->
  lockstep cs S T ->
  lockstep cs (fold_left (Quality.flag_step self metric values) idxs S)
              (fold_left (Quality.flag_step self metric values) idxs T).
Proof.
  intros Hm. revert S T. induction idxs as [|i idxs IH]; intros S T H; [done|].
  simpl. by apply IH, flag_step_lockstep.
Qed.

Lemma metric_pass_lockstep metric S T idxs :
  (forall e, metric (Stated.erase e) = metric e) ->
  lockstep cs S T ->
  lockstep cs (Quality.metric_pass self metric S idxs)
              (Quality.metric_pass self metric T idxs).
Proof.
  intros Hm H. unfold Quality.metric_pass.
  rewrite <- (values_at_lockstep metric S T idxs Hm H).
  repeat case_match; try done. by apply flag_fold_lockstep.
Qed.

Lemma detect_in_market_lockstep S T idxs :
  lockstep cs S T ->
  lockstep cs (Quality._detect_outliers_in_market self S idxs)
              (Quality._detect_outliers_in_market self T idxs).
Proof.
  intros H. unfold Quality._detect_outliers_in_market. case_match; [done|].
  apply metric_pass_lockstep; [done|]. by apply metric_pass_lockstep.
Qed.

Lemma detect_markets_lockstep (groups : list (string * string * list nat)) S T :
  lockstep cs S T ->
  lockstep cs
    (fold_left (fun st kv => Quality._detect_outliers_in_market self st kv.2) groups S)
    (fold_left (fun st kv => Quality._detect_outliers_in_market self st kv.2) groups T).
Proof.
  revert S T. induction groups as [|g groups IH]; intros S T H; [done|].
  simpl. by apply IH, detect_in_market_lockstep.
Qed.

(** The markets of two batches with the same coins and chains. *)
Lemma markets_same_keys (g : nat -> nat) (S T : list RiskEvent)
    (m : gmap (string * string) (list nat)) :
  Forall2 (fun a b => coin a = coin b /\ chain a = chain b) S T ->
  fold_left Quality.markets_step (imap (fun i e => (g i, e)) S) m
  = fold_left Quality.markets_step (imap (fun i e => (g i, e)) T) m.
Proof.
  intros H. revert g m. induction H as [|a b S T [Hc Hh] _ IH]; intros g m; [done|].
  cbn [imap fold_left].
  assert (Quality.markets_step m (g 0%nat, a) = Quality.markets_step m (g 0%nat, b)) as ->.
  { unfold Quality.markets_step. cbn [fst snd]. by rewrite Hc, Hh. }
  apply (IH (g ∘ Datatypes.S)).
Qed.

Lemma detect_outliers_lockstep (S T : list RiskEvent) :
  lockstep cs S T ->
  lockstep cs (Quality._detect_outliers self S) (Quality._detect_outliers self T).
Proof.
  intros H. unfold Quality._detect_outliers.
  destruct H as [Hl H]. rewrite <- Hl. case_match; [done|].
  assert (Forall2 (fun a b => coin a = coin b /\ chain a = chain b) S T) as Hk.
  { apply Forall2_same_length_lookup. split; [done|]. intros i a b Ha Hb.
    destruct (H i a b Ha Hb) as (He & _).
    split; [exact (f_equal coin He) | exact (f_equal chain He)]. }
  pose proof (markets_same_keys id S T ∅ Hk) as Hm.
  change (imap (fun i e => (id i, e)) S) with (imap pair S) in Hm.
  change (imap (fun i e => (id i, e)) T) with (imap pair T) in Hm.
  rewrite <- Hm. by apply detect_markets_lockstep.
Qed.

End Lockstep.

(** ** Normalization *)

Lemma ascii_upper_idem (c : ascii) :
  Quality.ascii_upper (Quality.ascii_upper c) = Quality.ascii_upper c.
Proof. destruct c as [[] [] [] [] [] [] [] []]; reflexivity. Qed.

Lemma ascii_lower_idem (c : ascii) :
  Quality.ascii_lower (Quality.ascii_lower c) = Quality.ascii_lower c.
Proof. destruct c as [[] [] [] [] [] [] [] []]; reflexivity. Qed.

Lemma string_map_idem (f : ascii -> ascii) (s : string) :
  (forall c, f (f c) = f c) ->
  Quality.string_map f (Quality.string_map f s) = Quality.string_map f s.
Proof. intros Hf. induction s as [|c s IH]; simpl; [done|]. by rewrite Hf, IH. Qed.

Lemma truthy_string_map (f : ascii -> ascii) (s : string) :
  (if truthy s then Quality.string_map f s else "") = Quality.string_map f s.
Proof. by destruct s. Qed.

Lemma normalize_event_fields (self : Quality.DataQualityPipeline) (e : RiskEvent) :
  Quality.normalize_event self e
  = set_quality_score (1 # 1)%Q
      (set_price (clamp_price self (price e))
         (set_chain (Quality.lower (chain e))
            (set_coin (Quality.upper (coin e)) e))).
Proof.
  unfold Quality.normalize_event, Quality.upper, Quality.lower. cbv zeta.
  rewrite !truthy_string_map. cbn [price set_chain set_coin].
  destruct e. cbn. unfold clamp_price. repeat case_match; reflexivity.
Qed.

Lemma clamp_price_idem (self : Quality.DataQualityPipeline) (p : option Q) :
  (Quality.price_min self <= Quality.price_max self)%Q ->
  clamp_price self (clamp_price self p) = clamp_price self p.
Proof.
  intros Hb. destruct p as [x|]; [|done]. unfold clamp_price.
  destruct (Qltb x (Quality.price_min self)) eqn:E1.
  - destruct (Qltb (Quality.price_min self) (Quality.price_min self)) eqn:E2.
    { apply Qltb_lt in E2. lra. }
    destruct (Qltb (Quality.price_max self) (Quality.price_min self)) eqn:E3; [|done].
    apply Qltb_lt in E3. lra.
  - destruct (Qltb (Quality.price_max self) x) eqn:E2.
    + destruct (Qltb (Quality.price_max self) (Quality.price_min self)) eqn:E3.
      { apply Qltb_lt in E3. lra. }
      destruct (Qltb (Quality.price_max self) (Quality.price_max self)) eqn:E4; [|done].
      apply Qltb_lt in E4. lra.
    + by rewrite E1, E2.
Qed.

Lemma normalize_event_idem (self : Quality.DataQualityPipeline) (e : RiskEvent) :
  (Quality.price_min self <= Quality.price_max self)%Q ->
  Quality.normalize_event self (Quality.normalize_event self e)
  = Quality.normalize_event self e.
Proof.
  intros Hb. rewrite (normalize_event_fields self (Quality.normalize_event self e)).
  rewrite (normalize_event_fields self e). cbn.
  unfold Quality.upper, Quality.lower.
  rewrite (string_map_idem _ _ ascii_upper_idem), (string_map_idem _ _ ascii_lower_idem).
  rewrite clamp_price_idem by done. reflexivity.
Qed.

(** Normalizing an event that differs from a normalized one in the
    fields of the outlier stage only resets its quality score. *)
Lemma normalize_event_of_normalized (self : Quality.DataQualityPipeline)
    (a b : RiskEvent) :
  Quality.normalize_event self a = a ->
  Stated.erase b = Stated.erase a ->
  Quality.normalize_event self b = set_quality_score (1 # 1)%Q b.
Proof.
  intros Ha He. rewrite normalize_event_fields in Ha |- *.
  assert (coin b = coin a) as Hc by exact (f_equal coin He).
  assert (chain b = chain a) as Hh by exact (f_equal chain He).
  assert (price b = price a) as Hp by exact (f_equal price He).
  assert (Quality.upper (coin a) = coin a) as Hc' by exact (f_equal coin Ha).
  assert (Quality.lower (chain a) = chain a) as Hh' by exact (f_equal chain Ha).
  assert (clamp_price self (price a) = price a) as Hp' by exact (f_equal price Ha).
  rewrite Hc, Hh, Hp, Hc', Hh', Hp', <- Hc, <- Hh, <- Hp. by destruct b.
Qed.

Lemma signature_erase (e : RiskEvent) :
  Quality._event_signature (Stated.erase e) = Quality._event_signature e.
Proof. reflexivity. Qed.

(** ** Deduplication *)

Lemma dedup_loop_cons (w : timedelta) (seen : gmap string datetime) (e : RiskEvent)
    (rest : list RiskEvent) :
  Quality.dedup_loop w seen (e :: rest)
  = if is_duplicate w seen e
    then Quality.dedup_loop w seen rest
    else
      let r := Quality.dedup_loop w (<[Quality._event_signature e := timestamp e]> seen)
                 rest in
      (e :: r.1, r.2).
Proof.
  cbn [Quality.dedup_loop]. unfold is_duplicate.
  destruct (seen !! Quality._event_signature e) as [last_seen|];
    [destruct (timestamp e - last_seen <? w)|]; try done;
    by destruct (Quality.dedup_loop w _ rest).
Qed.

Lemma dedup_loop_length (w : timedelta) (seen : gmap string datetime)
    (events : list RiskEvent) :
  (length (Quality.dedup_loop w seen events).1 <= length events)%nat.
Proof.
  revert seen. induction events as [|e rest IH]; intros seen; [done|].
  rewrite dedup_loop_cons. case_match.
  - specialize (IH seen). simpl. lia.
  - specialize (IH (<[Quality._event_signature e := timestamp e]> seen)). simpl in *. lia.
Qed.

(** The survivors of one pass all survive a pass that starts from a
    dictionary knowing nothing but what the first pass knew. *)
Lemma dedup_loop_refeed (w : timedelta) (events : list RiskEvent)
    (seen seen2 : gmap string datetime) :
  (forall g, seen2 !! g = None \/ seen2 !! g = seen !! g) ->
  (Quality.dedup_loop w seen2 (Quality.dedup_loop w seen events).1).1
  = (Quality.dedup_loop w seen events).1.
Proof.
  revert seen seen2. induction events as [|e rest IH]; intros seen seen2 Hsub; [done|].
  rewrite (dedup_loop_cons w seen). 
  destruct (is_duplicate w seen e) eqn:Edup.
  - by apply IH.
  - cbn [fst]. rewrite dedup_loop_cons.
    assert (is_duplicate w seen2 e = false) as ->.
    { unfold is_duplicate in *.
      destruct (Hsub (Quality._event_signature e)) as [-> | ->]; done. }
    cbn [fst]. f_equal. apply IH. intros g.
    destruct (decide (Quality._event_signature e = g)) as [<-|Hne].
    + right. by rewrite !lookup_insert_eq.
    + rewrite !lookup_insert_ne by done. apply Hsub.
Qed.

(** The loop looks at signatures and timestamps only. *)
Lemma dedup_loop_keeps_all (w : timedelta) (A B : list RiskEvent)
    (seen : gmap string datetime) :
  Forall2 (fun a b => Quality._event_signature a = Quality._event_signature b
                      /\ timestamp a = timestamp b) A B ->
  (Quality.dedup_loop w seen A).1 = A ->
  (Quality.dedup_loop w seen B).1 = B.
Proof.
  intros H. revert seen. induction H as [|a b A B [Hs Ht] _ IH]; intros seen HA; [done|].
  rewrite dedup_loop_cons in HA |- *.
  assert (is_duplicate w seen b = is_duplicate w seen a) as ->
    by (unfold is_duplicate; by rewrite Hs, Ht).
  destruct (is_duplicate w seen a).
  - pose proof (dedup_loop_length w seen A) as Hl. rewrite HA in Hl. simpl in Hl. lia.
  - cbn [fst] in *. injection HA as HA. f_equal. rewrite <- Hs, <- Ht. by apply IH.
Qed.

(** After a pass, the dictionary holds for the signature of every
    survivor a time that is not before the survivor's timestamp, and
    the recorded times only move forward. *)
Lemma dedup_loop_last_seen (w : timedelta) (events : list RiskEvent)
    (seen : gmap string datetime) :
  0 <= w ->
  let r := Quality.dedup_loop w seen events in
  (forall g last, seen !! g = Some last ->
                  exists last', r.2 !! g = Some last' /\ last <= last')
  /\ (forall e, e ∈ r.1 ->
                exists last, r.2 !! Quality._event_signature e = Some last
                             /\ timestamp e <= last).
Proof.
  intros Hw. revert seen. induction events as [|e rest IH]; intros seen.
  - simpl. split.
    + intros g last Hg. exists last. split; [done | lia].
    + intros e He. by apply elem_of_nil in He.
  - cbv zeta. rewrite dedup_loop_cons.
    destruct (is_duplicate w seen e) eqn:Edup.
    + apply IH.
    + destruct (IH (<[Quality._event_signature e := timestamp e]> seen)) as [Hmono Hkept].
      cbn [fst snd]. split.
      * intros g last Hg.
        destruct (decide (Quality._event_signature e = g)) as [<-|Hne].
        -- destruct (Hmono (Quality._event_signature e) (timestamp e)) as (l' & Hl' & Hle).
           { apply lookup_insert_eq. }
           exists l'. split; [done|]. unfold is_duplicate in Edup.
           rewrite Hg in Edup. apply Z.ltb_ge in Edup. lia.
        -- apply Hmono. by rewrite lookup_insert_ne.
      * intros x [->|Hx]%elem_of_cons; [|by apply Hkept].
        apply Hmono, lookup_insert_eq.
Qed.

(** A batch every event of which is a duplicate is dropped whole. *)
Lemma dedup_loop_all_duplicates (w : timedelta) (events : list RiskEvent)
    (seen : gmap string datetime) :
  (forall e, e ∈ events ->
             exists last, seen !! Quality._event_signature e = Some last
                          /\ timestamp e - last < w) ->
  Quality.dedup_loop w seen events = ([], seen).
Proof.
  induction events as [|e rest IH]; intros H; [done|].
  rewrite dedup_loop_cons.
  destruct (H e) as (last & Hl & Hlt); [apply elem_of_cons; by left|].
  unfold is_duplicate. rewrite Hl. apply Z.ltb_lt in Hlt. rewrite Hlt.
  apply IH. intros x Hx. apply H, elem_of_cons. by right.
Qed.

(** ** The pipeline applied to its own output (C7) *)

Lemma dedup_loop_subset (w : timedelta) (events : list RiskEvent)
    (seen : gmap string datetime) (e : RiskEvent) :
  e ∈ (Quality.dedup_loop w seen events).1 -> e ∈ events.
Proof.
  revert seen. induction events as [|x rest IH]; intros seen; [done|].
  rewrite dedup_loop_cons. destruct (is_duplicate w seen x).
  - intros H. apply elem_of_cons. right. by eapply IH.
  - cbn [fst]. rewrite !elem_of_cons. intros [->|H]; [by left|]. right. by eapply IH.
Qed.

Section Reapply.
Variable self : Quality.DataQualityPipeline.
Hypothesis bounds_ordered : (Quality.price_min self <= Quality.price_max self)%Q.
Hypothesis window_positive : 0 < Quality.dedup_window_sec self.

Variable now : datetime.
Variable events : list RiskEvent.

(** The batch after normalization and deduplication in the first
    application, and the output of the first application. *)
Let kept : list RiskEvent :=
  (Quality._deduplicate_events self now (Quality._normalize_events self events)).1.
Let seen1 : gmap string datetime :=
  (Quality._deduplicate_events self now (Quality._normalize_events self events)).2.
Let out1 : list RiskEvent := Quality._detect_outliers self kept.

Lemma process_events_first :
  Quality.process_events self now events
  = match events with
    | [] => ([], self)
    | _ => (out1, Quality.with_seen_events seen1 self)
    end.
Proof.
  unfold Quality.process_events, out1, kept, seen1. destruct events; [done|].
  by destruct (Quality._deduplicate_events self now _).
Qed.

Lemma kept_normalized (a : RiskEvent) :
  a ∈ kept -> Quality.normalize_event self a = a.
Proof.
  intros Ha. apply dedup_loop_subset in Ha.
  apply list_elem_of_fmap in Ha as (x & -> & _). by apply normalize_event_idem.
Qed.

Lemma out1_retains :
  Forall2 (fun a b => Stated.erase b = Stated.erase a
                      /\ (is_outlier a = true -> is_outlier b = true)) kept out1.
Proof.
  destruct (detect_outliers_retains self kept) as [Hl H].
  apply Forall2_same_length_lookup. split; [done|].
  intros i a b Ha Hb. by apply (H i).
Qed.

(** The second application normalizes the output of the first: only the
    quality scores are reset. *)
Lemma renormalized :
  Quality._normalize_events self out1 = set_quality_score (1 # 1)%Q <$> out1.
Proof.
  unfold Quality._normalize_events. apply list_eq. intros i.
  rewrite !list_lookup_fmap.
  destruct (out1 !! i) as [b|] eqn:Eb; [|done]. cbn. f_equal.
  destruct (Forall2_lookup_r _ _ _ _ _ out1_retains Eb) as (a & Ha & He & _).
  apply (normalize_event_of_normalized self a b); [|done].
  apply kept_normalized. by eapply list_elem_of_lookup_2.
Qed.

Lemma renormalized_same_signatures :
  Forall2 (fun a b => Quality._event_signature a = Quality._event_signature b
                      /\ timestamp a = timestamp b)
    kept (Quality._normalize_events self out1).
Proof.
  rewrite renormalized. apply Forall2_fmap_r.
  eapply Forall2_impl; [exact out1_retains|].
  intros a b [He _]. cbn beta.
  rewrite <- (signature_erase a), <- He. split; [reflexivity|].
  exact (f_equal timestamp (eq_sym He)).
Qed.

(** The outlier stage on the renormalized output gives the output. *)
Lemma detect_renormalized :
  Quality._detect_outliers self (Quality._normalize_events self out1) = out1.
Proof.
  set (cs := is_outlier <$> out1).
  assert (lockstep cs kept (Quality._normalize_events self out1)) as H0.
  { rewrite renormalized. split.
    - rewrite length_fmap. symmetry. apply detect_outliers_length.
    - intros i a b Ha Hb. rewrite list_lookup_fmap in Hb.
      destruct (out1 !! i) as [x|] eqn:Ex; [|done]. injection Hb as <-.
      destruct (Forall2_lookup_lr _ _ _ _ _ _ out1_retains Ha Ex) as [He Ho].
      split; [by rewrite <- He|]. split.
      + cbn. pose proof (kept_normalized a (list_elem_of_lookup_2 _ _ _ Ha)) as Hn.
        rewrite normalize_event_fields in Hn.
        exact (eq_sym (f_equal quality_score Hn)).
      + unfold cs. rewrite list_lookup_fmap, Ex. cbn.
        destruct (is_outlier a); [by rewrite Ho | done]. }
  pose proof (detect_outliers_lockstep self cs _ _ H0) as [Hl H]. fold out1 in Hl, H.
  symmetry. apply list_eq_same_length with (length out1); [by rewrite <- Hl | done |].
  intros i a b _ Ha Hb. destruct (H i a b Ha Hb) as (He & Hq & Ho).
  apply erase_inj; [done | done |].
  unfold cs in Ho. rewrite list_lookup_fmap, Ha in Ho. cbn in Ho.
  rewrite Ho. by destruct (is_outlier a).
Qed.

(** With a fresh dictionary of signatures the second application
    returns the output of the first. *)
Lemma reapply_fresh (now' : datetime) :
  (Quality.process_events (Quality.with_seen_events ∅ self) now' out1).1 = out1.
Proof.
  unfold Quality.process_events. destruct out1 as [|b bs] eqn:Eo; [done|].
  rewrite <- Eo.
  change (Quality._normalize_events (Quality.with_seen_events ∅ self) out1)
    with (Quality._normalize_events self out1).
  assert ((Quality._deduplicate_events (Quality.with_seen_events ∅ self) now'
             (Quality._normalize_events self out1)).1
          = Quality._normalize_events self out1) as Hd.
  { unfold Quality._deduplicate_events. cbn [Quality.seen_events Quality.with_seen_events
      Quality.dedup_window_sec].
    rewrite map_filter_empty.
    apply (dedup_loop_keeps_all _ kept); [apply renormalized_same_signatures|].
    unfold kept, Quality._deduplicate_events. apply dedup_loop_refeed.
    intros g. left. apply lookup_empty. }
  destruct (Quality._deduplicate_events _ now' _) as [k s]. cbn [fst] in *. subst k.
  change (Quality._detect_outliers (Quality.with_seen_events ∅ self))
    with (Quality._detect_outliers self).
  apply detect_renormalized.
Qed.

(** With the dictionary carried over and the clock unchanged, a recent
    output is dropped whole by the second application. *)
Lemma reapply_carried_over :
  Stated.recent (timedelta_seconds (Quality.dedup_window_sec self)) now out1 ->
  (Quality.process_events (Quality.with_seen_events seen1 self) now out1).1 = [].
Proof.
  intros Hrecent. unfold Quality.process_events.
  destruct out1 as [|b bs] eqn:Eo; [done|]. rewrite <- Eo in *.
  change (Quality._normalize_events (Quality.with_seen_events seen1 self) out1)
    with (Quality._normalize_events self out1).
  assert (Quality._deduplicate_events (Quality.with_seen_events seen1 self) now
            (Quality._normalize_events self out1)
          = ([], filter (fun '(_, ts) =>
                           now - timedelta_seconds (Quality.dedup_window_sec self) < ts)
                   seen1)) as Hd.
  { unfold Quality._deduplicate_events. cbn [Quality.seen_events Quality.with_seen_events
      Quality.dedup_window_sec].
    apply dedup_loop_all_duplicates. intros e He.
    apply list_elem_of_lookup in He as [i Hi].
    destruct (Forall2_lookup_r _ _ _ _ _ renormalized_same_signatures Hi)
      as (a & Ha & Hs & Ht).
    pose proof (dedup_loop_last_seen
                  (timedelta_seconds (Quality.dedup_window_sec self))
                  (Quality._normalize_events self events)
                  (filter (fun '(_, ts) =>
                     now - timedelta_seconds (Quality.dedup_window_sec self) < ts)
                     (Quality.seen_events self))) as Hlast.
    destruct Hlast as [_ Hlast]; [unfold timedelta_seconds; lia|].
    destruct (Hlast a) as (last & Hl & Hle).
    { apply (list_elem_of_lookup_2 _ i). exact Ha. }
    fold seen1 in Hl. exists last. rewrite <- Hs, <- Ht.
    assert (now - timedelta_seconds (Quality.dedup_window_sec self) < timestamp e) as Hr.
    { unfold Stated.recent in Hrecent. rewrite Forall_forall in Hrecent.
      rewrite renormalized, list_lookup_fmap in Hi.
      destruct (out1 !! i) as [x|] eqn:Ex; [|done]. injection Hi as <-.
      apply (Hrecent x). eapply list_elem_of_lookup_2. exact Ex. }
    rewrite <- Ht in Hr. split.
    - apply map_lookup_filter_Some. split; [done|]. cbn. lia.
    - unfold timedelta_seconds in *. lia. }
  rewrite Hd. reflexivity.
Qed.

End Reapply.

(** C7, as stated, fails: one recent price observation is returned by
    the first application and dropped by the second, which finds the
    signature the first one recorded. *)
Lemma pipeline_not_idempotent_with_carried_state :
  ~ (forall (self : Quality.DataQualityPipeline) (now : datetime)
       (events : list RiskEvent),
       let first := Quality.process_events self now events in
       (Quality.process_events first.2 now first.1).1 = first.1).
Proof.
  intros H.
  specialize (H Quality.quality_pipeline 0 [Sample.price_event "A" 0 "tier1" (1 # 1)%Q]).
  vm_compute in H. discriminate H.
Qed.

(** C7, amended.  For every dedup state and every batch, applying the
    pipeline (normalize, deduplicate, outlier-flag) to its own output
    yields that output again when the second application starts from an
    empty dedup state; with the dedup state carried over from the first
    application and the clock unchanged, the second application drops
    the whole output as duplicates whenever every event of it was
    observed within the dedup window before the clock. *)
Theorem pipeline_reapplied (seen : gmap string datetime) (now : datetime)
    (events : list RiskEvent) :
  let self := Quality.with_seen_events seen Quality.quality_pipeline in
  let first := Quality.process_events self now events in
  (forall now' : datetime,
     (Quality.process_events (Quality.with_seen_events ∅ first.2) now' first.1).1
     = first.1)
  /\ (Stated.recent (timedelta_seconds Config.dedup_window_sec) now first.1 ->
      (Quality.process_events first.2 now first.1).1 = []).
Proof.
  intros self first.
  assert ((Quality.price_min self <= Quality.price_max self)%Q) as Hb
    by (vm_compute; discriminate).
  assert (0 < Quality.dedup_window_sec self) as Hw by reflexivity.
  subst first. rewrite process_events_first. destruct events as [|e es]; [done|].
  cbn [fst snd]. split.
  - intros now'. apply (reapply_fresh self Hb now (e :: es) now').
  - intros Hr. by apply (reapply_carried_over self Hb Hw now (e :: es)).
Qed.

(** The five observations of scenario S2, made at the clock reading. *)
Lemma pipeline_reapplied_witness :
  let first := Quality.process_events Quality.quality_pipeline 0 (Sample.five_sources 0) in
  length first.1 = 5%nat
  /\ (Quality.process_events first.2 0 first.1).1 = [].
Proof.
  intros first. split; [reflexivity|].
  apply (pipeline_reapplied ∅ 0 (Sample.five_sources 0)).
  vm_compute. repeat constructor.
Defined.

(** ** Outlier flagging (C8) *)

(** C8 fails on the code.  In a market of eleven events whose volumes
    are ten times 1 and once 1000, the last volume lies more than 3.0
    standard deviations from the mean, yet the outlier stage returns
    the batch as it was: no event has [is_outlier] set and every
    [quality_score] is untouched, because only price and liquidity are
    screened.  The same eleven values carried as prices get the last
    event flagged and its [quality_score] halved. *)
Theorem volume_outlier_is_not_flagged :
  let self := Quality.quality_pipeline in
  let volumes := omap volume Sample.volume_batch in
  (3 <= length volumes)%nat
  /\ Quality.stdev_positive volumes = true
  /\ Quality.z_score_exceeds volumes (1000 # 1)%Q (Quality.outlier_threshold self) = true
  /\ Quality._detect_outliers self Sample.volume_batch = Sample.volume_batch
  /\ Forall (fun e => is_outlier e = false /\ quality_score e = (1 # 1)%Q)
       (Quality._detect_outliers self Sample.volume_batch)
  /\ is_outlier <$> Quality._detect_outliers self Sample.price_batch
     = replicate 10 false ++ [true]
  /\ (quality_score <$> Quality._detect_outliers self Sample.price_batch) !! 10%nat
     = Some ((1 # 1) * (5 # 10))%Q.
Proof.
  intros self volumes.
  split; [vm_compute; lia|].
  split; [vm_compute; reflexivity|].
  split; [vm_compute; reflexivity|].
  assert (Quality._detect_outliers self Sample.volume_batch = Sample.volume_batch) as H
    by (vm_compute; reflexivity).
  split; [exact H|].
  split; [rewrite H; vm_compute; repeat constructor|].
  split; vm_compute; reflexivity.
Qed.

(** ** Events handed to the reorg handler on a fork (C9) *)

Lemma backtrack_spec (live : Monitor.Chain) (self : Monitor.BlockMonitor) (n : nat)
    (height : Z) :
  match Monitor.backtrack live self n height with
  | Some h =>
      height - Z.of_nat n < h <= height
      /\ Monitor.is_common_ancestor live self h = true
      /\ forall h', h < h' <= height -> Monitor.is_common_ancestor live self h' = false
  | None =>
      forall h', height - Z.of_nat n < h' <= height ->
                 Monitor.is_common_ancestor live self h' = false
  end.
Proof.
  revert height. induction n as [|n IH]; intros height.
  - simpl. intros h' Hh'. lia.
  - cbn [Monitor.backtrack].
    destruct (Monitor.is_common_ancestor live self height) eqn:E.
    + split; [lia|]. split; [done|]. intros h' Hh'. lia.
    + specialize (IH (height - 1)).
      destruct (Monitor.backtrack live self n (height - 1)) as [h|].
      * destruct IH as (Hr & Ha & Hn). split; [lia|]. split; [done|].
        intros h' Hh'. destruct (decide (h' = height)) as [->|]; [done|].
        apply Hn. lia.
      * intros h' Hh'. destruct (decide (h' = height)) as [->|]; [done|].
        apply IH. lia.
Qed.

(** The fork point is the highest cached height, among the (at most)
    100 heights from the mismatch height downwards, whose cached hash
    is the live hash, and the height 100 below (not below 0) when there
    is none. *)
Lemma find_fork_point_spec (live : Monitor.Chain) (self : Monitor.BlockMonitor)
    (start_height : Z) :
  0 <= start_height ->
  let fork_point := Monitor._find_fork_point live self start_height in
  let stop := Z.max 0 (start_height - 100) in
  (forall h, fork_point < h <= start_height ->
             Monitor.is_common_ancestor live self h = false)
  /\ ((stop < fork_point <= start_height
       /\ Monitor.is_common_ancestor live self fork_point = true)
      \/ fork_point = stop).
Proof.
  intros H0 fork_point stop. subst fork_point. unfold Monitor._find_fork_point.
  fold stop.
  pose proof (backtrack_spec live self (Z.to_nat (start_height - stop)) start_height) as H.
  assert (Z.of_nat (Z.to_nat (start_height - stop)) = start_height - stop) as Hn by lia.
  rewrite Hn in H.
  destruct (Monitor.backtrack live self _ start_height) as [h|].
  - destruct H as (Hr & Ha & Hnone). split; [done|]. left. split; [lia | done].
  - split; [|by right]. intros h Hh. apply H. lia.
Qed.

(** What is handed to the handler: the registered events of the chain
    with a block in [[fork_point, fork_height]], both ends included. *)
Lemma fork_affected_events_range (live : Monitor.Chain) (self : Monitor.BlockMonitor)
    (fork_height : Z) (e : RiskEvent) :
  e ∈ Monitor.fork_affected_events live self fork_height <->
  e ∈ Monitor._event_store self
  /\ chain e = Monitor.chain self
  /\ exists bn, block_number e = Some bn
                /\ Monitor._find_fork_point live self fork_height <= bn <= fork_height.
Proof.
  unfold Monitor.fork_affected_events, Monitor._get_events_in_range.
  rewrite list_elem_of_In, filter_In, <- list_elem_of_In. unfold Monitor.in_range.
  destruct (block_number e) as [bn|].
  - rewrite !andb_true_iff, bool_decide_eq_true, !Z.leb_le. split.
    + intros (? & (? & ?) & ?). repeat split; try done. exists bn. split; [done | lia].
    + intros (? & ? & bn' & [= <-] & ?). repeat split; try done; lia.
  - split; [intros [_ ?]; done | intros (_ & _ & bn & ? & _); done].
Qed.

(** C9 fails on the code.  On the fork of [Sample.forked_chain], detected
    at height 100, the fork point is block 99, whose cached hash is
    still the live hash; the handler is nevertheless handed the event
    anchored in block 99 along with the one in block 100, whereas the
    affected range [[fork_point + 1, detected_height]] holds only the
    latter; the event of the common ancestor ends up invalidated. *)
Theorem fork_point_event_is_handed_over :
  let self := Sample.forked_monitor in
  let live := Sample.forked_chain in
  let e99 := Sample.onchain_event "e99" 0 "ethereum" 99 (1 # 1)%Q in
  let e100 := Sample.onchain_event "e100" 0 "ethereum" 100 (1 # 1)%Q in
  Monitor._find_fork_point live self 100 = 99
  /\ Monitor.is_common_ancestor live self 99 = true
  /\ Monitor.fork_affected_events live self 100 = [e99; e100]
  /\ Stated.events_in_affected_range self 99 100 = [e100]
  /\ (invalidated <$>
        Monitor._event_store
          (Monitor._handle_fork live self Reorg.reorg_handler 0 100 None).1.1)
     = [false; true; true].
Proof. repeat split; vm_compute; reflexivity. Qed.

(** * Further properties of the code *)

(** ** Attestation of single events *)

Lemma completeness_single (e : RiskEvent) :
  (TCS._calculate_completeness TCS.tcs_calculator [e] <= 1 # 5)%Q.
Proof.
  unfold TCS._calculate_completeness. simpl fold_left.
  assert (size (TCS.present_sources_step ∅ e) <= 1)%nat as H.
  { unfold TCS.present_sources_step.
    destruct (TCS._infer_source_type e) as [s|]; [|rewrite size_empty; lia].
    destruct (truthy s); [|rewrite size_empty; lia].
    rewrite (left_id_L ∅ (∪)), size_singleton. lia. }
  change (size (TCS.expected_sources TCS.tcs_calculator)) with 5%nat.
  apply Qle_shift_div_r; [reflexivity|].
  unfold Qle. simpl. lia.
Qed.

(** X1.  The TCS that [update_event_tcs] writes on an event is at most
    0.3, whatever the event and the clock: the completeness of a single
    event is at most 1/5 and the staleness penalty at least 0.7, and
    their quotient, 0.2857..., stays below 0.3 however it is rounded.
    So an event scored on its own never passes the attestation
    threshold of 0.8, neither through [TCSCalculator.should_attest]
    nor through [RiskEvent.should_attest] with its default threshold. *)
Theorem update_event_tcs_never_attestable (now : datetime) (e : RiskEvent) :
  let e' := (Calculator.update_event_tcs TCS.tcs_calculator now e).1 in
  (temporal_confidence e' <= 3 # 10)%Q
  /\ Calculator.should_attest (temporal_confidence e') = false
  /\ Event.should_attest e' (8 # 10) = false.
Proof.
  intros e'.
  assert (temporal_confidence e' <= 3 # 10)%Q as H.
  { subst e'. unfold Calculator.update_event_tcs.
    cbv beta iota zeta delta [TCS.calculate_tcs]. cbn [fst].
    destruct e; cbn [set_temporal_confidence temporal_confidence cb_temporal_confidence].
    match goal with |- context [TCS._calculate_finality_weight _ [?x]] => set (ev := x) end.
    pose proof (finality_weight_range [ev]) as Hf.
    pose proof (chain_confidence_range [ev]) as Hc.
    pose proof (completeness_nonneg [ev]) as Hk.
    pose proof (completeness_single ev) as Hk1.
    pose proof (staleness_penalty_cases [ev] (default now None)) as Hs.
    cbv zeta in Hs.
    set (f := TCS._calculate_finality_weight _ _) in *.
    set (c := TCS._calculate_chain_confidence _) in *.
    set (k := TCS._calculate_completeness _ _) in *.
    set (s := TCS._calculate_staleness_penalty _ _ _) in *.
    clearbody f c k s.
    assert (0 <= f * c)%Q as Hfc by (apply Qmult_le_0_compat; lra).
    assert (f * c <= 1)%Q as Hfc1 by nra.
    assert (f * c * k <= 1 # 5)%Q as Hp by nra.
    assert (0 <= f * c * k)%Q as Hp0 by (apply Qmult_le_0_compat; lra).
    assert (f * c * k / s <= 3 # 10)%Q as Hq.
    { generalize dependent (f * c * k)%Q. intros p ? ?. unfold Qdiv.
      destruct Hs as [-> | [-> | ->]];
        [change (/ 1)%Q with 1%Q
        |change (/ (9 # 10))%Q with (10 # 9)%Q
        |change (/ (7 # 10))%Q with (10 # 7)%Q]; lra. }
    revert Hq. generalize (f * c * k / s)%Q. intros q Hq. clamp_cases; lra. }
  split; [exact H|]. split.
  - unfold Calculator.should_attest. apply not_true_iff_false.
    rewrite Qleb_le. unfold Config.attestation_threshold. lra.
  - unfold Event.should_attest.
    assert (Qleb (8 # 10) (temporal_confidence e') = false) as ->; [|done].
    apply not_true_iff_false. rewrite Qleb_le. lra.
Qed.

(** X2.  The attestation decision and the status label agree: a TCS is
    attested exactly when its status is EXCELLENT or GOOD. *)
Theorem should_attest_iff_status_good (tcs : Q) :
  Calculator.should_attest tcs = true
  <-> TCS.get_tcs_status tcs = "EXCELLENT" \/ TCS.get_tcs_status tcs = "GOOD".
Proof.
  unfold Calculator.should_attest, TCS.get_tcs_status, Config.attestation_threshold.
  destruct (Qleb (9 # 10) tcs) eqn:E9.
  - apply Qleb_le in E9. split; [by left|]. intros _. apply Qleb_le. lra.
  - destruct (Qleb (8 # 10) tcs) eqn:E8; [split; [by right | done]|].
    split; [done|]. intros [H|H]; repeat case_match; discriminate.
Qed.

(** ** Completeness *)

Lemma present_sources_fold_subseteq (events : list RiskEvent) (acc X : gset string) :
  acc ⊆ X ->
  Forall (fun e => forall s, TCS._infer_source_type e = Some s -> s ∈ X) events ->
  fold_left TCS.present_sources_step events acc ⊆ X.
Proof.
  revert acc. induction events as [|e es IH]; intros acc Hacc Hall; [done|].
  apply Forall_cons in Hall as [He Hall]. simpl. apply IH; [|done].
  unfold TCS.present_sources_step.
  destruct (TCS._infer_source_type e) as [s|]; [|done].
  destruct (truthy s); [|done].
  specialize (He s eq_refl). apply union_subseteq. split; [done|].
  by apply singleton_subseteq_l.
Qed.

(** X3.  When the source type inferred for every event is one of the
    five expected sources (as it is for every event that carries a
    payload field), the completeness lies in [0,1]. *)
Theorem completeness_at_most_one (events : list RiskEvent) :
  Forall (fun e => forall s, TCS._infer_source_type e = Some s ->
                             s ∈ Config.expected_sources) events ->
  (0 <= TCS._calculate_completeness TCS.tcs_calculator events <= 1)%Q.
Proof.
  intros Hall. split; [apply completeness_nonneg|].
  unfold TCS._calculate_completeness. destruct events as [|e es]; [lra|].
  set (present := fold_left _ _ _).
  assert (present ⊆ TCS.expected_sources TCS.tcs_calculator) as Hsub.
  { apply present_sources_fold_subseteq; [set_solver|].
    eapply Forall_impl; [exact Hall|]. intros x Hx s Hs.
    change (s ∈ (list_to_set Config.expected_sources : gset string)).
    apply elem_of_list_to_set. by apply Hx. }
  apply subseteq_size in Hsub.
  change (size (TCS.expected_sources TCS.tcs_calculator)) with 5%nat in *.
  apply Qle_shift_div_r; [reflexivity|].
  unfold Qle. simpl. lia.
Qed.

Lemma completeness_at_most_one_witness :
  (0 <= TCS._calculate_completeness TCS.tcs_calculator (Sample.five_sources 0) <= 1)%Q.
Proof.
  apply (completeness_at_most_one (Sample.five_sources 0)).
  unfold Sample.five_sources.
  repeat (apply Forall_cons; split; [intros s Hs; vm_compute in Hs; injection Hs as <-;
    unfold Config.expected_sources; set_solver|]).
  constructor.
Defined.

(** ** Staleness *)

Lemma oldest_of_le_head (e : RiskEvent) (es : list RiskEvent) :
  timestamp (TCS.oldest_of e es) <= timestamp e.
Proof.
  unfold TCS.oldest_of. revert e. induction es as [|x xs IH]; intros e; simpl; [lia|].
  destruct (timestamp x <? timestamp e) eqn:E.
  - apply Z.ltb_lt in E. specialize (IH x). lia.
  - apply IH.
Qed.

Lemma oldest_of_le (e : RiskEvent) (es : list RiskEvent) (x : RiskEvent) :
  x ∈ e :: es -> timestamp (TCS.oldest_of e es) <= timestamp x.
Proof.
  intros [->|Hx]%elem_of_cons; [apply oldest_of_le_head|].
  unfold TCS.oldest_of. revert e. induction es as [|y ys IH]; intros e.
  - by apply elem_of_nil in Hx.
  - simpl. apply elem_of_cons in Hx as [->|Hx]; [|by apply IH].
    pose proof (oldest_of_le_head (if timestamp y <? timestamp e then y else e) ys) as H.
    unfold TCS.oldest_of in H.
    destruct (timestamp y <? timestamp e) eqn:E; [done|].
    apply Z.ltb_ge in E. lia.
Qed.

(** X4.  A batch that holds an event which [is_stale] reports stale,
    for a maximal age of 600 s (the default) or more, gets the full
    staleness penalty 0.7 at the same clock reading. *)
Theorem stale_event_gives_full_penalty (events : list RiskEvent) (e : RiskEvent)
    (now : datetime) (max_age_sec : Z) :
  e ∈ events ->
  600 <= max_age_sec ->
  Event.is_stale now e max_age_sec = true ->
  TCS._calculate_staleness_penalty TCS.tcs_calculator events now = (7 # 10)%Q.
Proof.
  intros He Hm Hs. destruct events as [|e0 es]; [by apply elem_of_nil in He|].
  unfold TCS._calculate_staleness_penalty.
  pose proof (oldest_of_le e0 es e He) as Hold.
  unfold Event.is_stale in Hs. apply Qltb_lt in Hs.
  assert (inject_Z 600 < total_seconds (now - timestamp (TCS.oldest_of e0 es)))%Q as Hage.
  { eapply Qle_lt_trans; [|eapply Qlt_le_trans; [exact Hs|]].
    - rewrite <- Zle_Qle. exact Hm.
    - apply total_seconds_mono. lia. }
  change (TCS.staleness_fresh TCS.tcs_calculator) with (300 # 1)%Q.
  change (TCS.staleness_acceptable TCS.tcs_calculator) with (600 # 1)%Q.
  change (inject_Z 600) with (600 # 1)%Q in Hage.
  cbv zeta.
  rewrite (proj2 (Qltb_ge _ _)) by lra.
  rewrite (proj2 (Qltb_ge _ _)) by lra.
  reflexivity.
Qed.

Lemma stale_event_gives_full_penalty_witness :
  TCS._calculate_staleness_penalty TCS.tcs_calculator
    (Sample.five_sources 0) (timedelta_seconds 601) = (7 # 10)%Q.
Proof.
  apply (stale_event_gives_full_penalty (Sample.five_sources 0)
           (Sample.price_event "A" 0 "tier3" (10003 # 10000)%Q)
           (timedelta_seconds 601) 600);
    [unfold Sample.five_sources; set_solver | lia | reflexivity].
Defined.

(** ** Attestation after a finality refresh *)

(** X5.  After a refresh of an on-chain event whose block the chain
    still serves, the event passes [should_attest] (threshold 0.8)
    exactly when it is not invalidated and its confirmations, counted
    as [max(0, head - block + 1)], reach the TIER2 or the TIER3
    threshold of the chain. *)
Theorem refreshed_event_attestable (tracker : Finality.FinalityTracker)
    (rpc : Finality.Rpc) (now : datetime) (e : RiskEvent) (bn h : Z) :
  block_number e = Some bn ->
  Finality.get_current_block_number rpc = Some h ->
  Finality.check_block_exists rpc bn = Some true ->
  let confirmations := Z.max 0 (h - bn + 1) in
  Event.should_attest (Finality.update_event_finality tracker rpc now e) (8 # 10) = true
  <-> invalidated e = false
      /\ (tier3_confirmations (Finality.chain_config tracker) <= confirmations
          \/ tier2_confirmations (Finality.chain_config tracker) <= confirmations).
Proof.
  intros Hbn Hh Hex confirmations.
  unfold Finality.update_event_finality. rewrite Hbn, Hh, Hex. fold confirmations.
  unfold Finality.calculate_finality_tier.
  set (tier := Finality.calculate_finality_tier tracker confirmations).
  assert (forall e', (let e1 := set_temporal_confidence (Finality.get_finality_confidence tier)
                        (set_finality_tier (FinalityTier_value tier)
                           (set_confirmation_count confirmations e)) in
                      if bool_decide (tier = TIER3) && negb (is_finalized e1)
                      then set_finality_timestamp (Some now) (set_is_finalized true e1)
                      else e1) = e' ->
            Event.should_attest e' (8 # 10)
            = Qleb (8 # 10) (Finality.get_finality_confidence tier)
              && bool_decide (FinalityTier_value tier ∈ ["tier2"; "tier3"])
              && negb (invalidated e)) as Hshape.
  { intros e' <-. cbv zeta. unfold Event.should_attest. by case_match. }
  match goal with
  | |- Event.should_attest ?x _ = true <-> _ => rewrite (Hshape x eq_refl)
  end.
  clear Hshape.
  subst tier. unfold Finality.calculate_finality_tier.
  destruct (tier3_confirmations _ <=? confirmations) eqn:E3;
    [apply Z.leb_le in E3 | apply Z.leb_gt in E3].
  - destruct (invalidated e); cbn;
      (split; [intros; first [done | split; [done | by left]] | by intros [? _]]).
  - destruct (tier2_confirmations _ <=? confirmations) eqn:E2;
      [apply Z.leb_le in E2 | apply Z.leb_gt in E2].
    + destruct (invalidated e); cbn;
        (split; [intros; first [done | split; [done | by right]] | by intros [? _]]).
    + cbn. split; [done|]. intros [_ [?|?]]; lia.
Qed.

Lemma refreshed_event_attestable_witness :
  Event.should_attest
    (Finality.update_event_finality Sample.ethereum_tracker (Sample.chain_at 131) 0 Sample.E1)
    (8 # 10) = true.
Proof.
  apply (refreshed_event_attestable Sample.ethereum_tracker (Sample.chain_at 131) 0
           Sample.E1 100 131); [reflexivity | reflexivity | reflexivity |].
  split; [reflexivity | right; vm_compute; discriminate].
Defined.

(** ** Windows that cannot finalize *)

Lemma unsettleable_refresh (now : datetime) (e : RiskEvent) :
  unsettleable e ->
  Finality.registry_update_event_finality not_implemented_world now e = e.
Proof.
  intros (_ & _ & H). unfold Finality.registry_update_event_finality.
  destruct H as [[bn Hbn]|H].
  - destruct (Finality.trackers !! chain e); [|done].
    unfold Finality.update_event_finality. by rewrite Hbn.
  - unfold Registry.get_tracker in H. by rewrite H.
Qed.

Lemma unsettleable_window_state (s : string) (e : RiskEvent) :
  unsettleable e -> unsettleable (set_window_state s e).
Proof. by intros (? & ? & ?). Qed.

Lemma unsettleable_not_all_finalized (w : Window.TimeWindow) :
  Exists unsettleable (Window.events w) -> Window.all_events_finalized w = false.
Proof.
  intros H. apply not_true_iff_false. rewrite all_events_finalized_settled.
  intros Hall. apply Exists_exists in H as (e & He & (Hf & Hi & _)).
  rewrite Forall_forall in Hall. destruct (Hall e He) as [?|?]; congruence.
Qed.

Lemma unsettleable_update (now : datetime) (w : Window.TimeWindow) :
  Exists unsettleable (Window.events w) ->
  Exists unsettleable
    (Window.events (Window._update_window_finality not_implemented_world now w)).
Proof.
  intros H. simpl. apply Exists_fmap. eapply Exists_impl; [exact H|].
  intros e He. simpl. destruct He as (Hf & Hi & Hc) eqn:E. rewrite Hf, Hi. simpl.
  by rewrite unsettleable_refresh.
Qed.

Lemma unsettleable_tick (now t : datetime) (w : Window.TimeWindow) :
  Window.state w <> FINAL ->
  Exists unsettleable (Window.events w) ->
  let w' := Window._process_window not_implemented_world now w t in
  Window.state w' <> FINAL /\ Exists unsettleable (Window.events w').
Proof.
  assert (forall v, Window.state v = PROVISIONAL ->
            Exists unsettleable (Window.events v) ->
            let v' := Window._process_window not_implemented_world now v t in
            Window.state v' <> FINAL /\ Exists unsettleable (Window.events v')) as Hprov.
  { intros v Hv Hex v'. subst v'. rewrite (process_window_provisional _ _ _ _ Hv).
    pose proof (unsettleable_update now v Hex) as Hex'.
    rewrite (unsettleable_not_all_finalized _ Hex'), andb_false_r.
    split; [|done]. simpl. rewrite Hv. discriminate. }
  intros Hs Hex w'. subst w'. destruct (Window.state w) eqn:E; [| |done].
  - rewrite (process_window_open _ _ _ _ E).
    destruct (Window.can_transition_to_provisional w t); [|by rewrite E].
    apply Hprov; [done|]. simpl. apply Exists_fmap.
    eapply Exists_impl; [exact Hex|]. intros e He. by apply unsettleable_window_state.
  - by apply Hprov.
Qed.

(** X6.  The RPC methods of the three finality trackers of the
    repository raise [NotImplementedError], which the refresh swallows;
    an event of a chain without tracker is returned as it is.  So a
    window that holds an event which is neither finalized nor
    invalidated, and which is anchored in a block or belongs to an
    unknown chain, never becomes FINAL, however often and at whatever
    times it is processed. *)
Theorem unsettleable_event_blocks_final (ticks : list (datetime * datetime))
    (w : Window.TimeWindow) :
  Window.state w <> FINAL ->
  Exists unsettleable (Window.events w) ->
  Window.state
    (fold_left (fun w tick => Window._process_window not_implemented_world tick.1 w tick.2)
       ticks w) <> FINAL.
Proof.
  revert w. induction ticks as [|[now t] ticks IH]; intros w Hs Hex; [done|].
  simpl. destruct (unsettleable_tick now t w Hs Hex) as [Hs' Hex']. by apply IH.
Qed.

Lemma unsettleable_event_blocks_final_witness :
  Window.state
    (fold_left (fun w tick => Window._process_window not_implemented_world tick.1 w tick.2)
       [(timedelta_seconds 400, timedelta_seconds 400);
        (timedelta_seconds 2000, timedelta_seconds 2000)]
       (Window.add_event
          (Window.new_window "1970-01-01T00:00:00" 0 (timedelta_seconds 300) 0)
          Sample.E1)) <> FINAL.
Proof.
  apply unsettleable_event_blocks_final; [discriminate|].
  apply Exists_cons_hd. split; [reflexivity|]. split; [reflexivity|].
  left. by eexists.
Defined.

(** ** The finality monitor *)

Lemma unsettleable_unfinalized (e : RiskEvent) :
  unsettleable e -> Registry.unfinalized e = true.
Proof. intros (Hf & Hi & _). unfold Registry.unfinalized. by rewrite Hf, Hi. Qed.

Lemma filter_unfinalized_nil (events : list RiskEvent) :
  List.filter Registry.unfinalized events = [] <-> Forall Stated.settled events.
Proof.
  induction events as [|e es IH]; simpl; [split; [constructor | done]|].
  rewrite Forall_cons, <- IH. unfold Registry.unfinalized, Stated.settled.
  destruct (is_finalized e), (invalidated e); simpl;
    first [ split; [intros Hx; split; [auto | exact Hx] | by intros [_ Hx]]
          | split; [done | intros [[?|?] _]; done] ].
Qed.

(** X7.  With the trackers of the repository the finality monitor never
    ends while it watches an event that is neither finalized nor
    invalidated and is anchored in a block (or belongs to a chain
    without tracker): however many rounds it is given, it is still
    running. *)
Theorem monitor_never_ends_on_unsettleable (clock : list datetime)
    (events : list RiskEvent) :
  Exists unsettleable events ->
  Registry.monitor_finality_upgrades
    ((fun now => (not_implemented_world, now)) <$> clock) events = None.
Proof.
  revert events. induction clock as [|now clock IH]; intros events Hex.
  - simpl. destruct (List.filter Registry.unfinalized events) eqn:E; [|done].
    apply filter_unfinalized_nil in E. apply Exists_exists in Hex as (e & He & Hu).
    rewrite Forall_forall in E. destruct (E e He), Hu as (? & ? & _); congruence.
  - cbn [fmap list_fmap Registry.monitor_finality_upgrades].
    destruct (List.filter Registry.unfinalized events) eqn:E.
    { apply filter_unfinalized_nil in E. apply Exists_exists in Hex as (e & He & Hu).
      rewrite Forall_forall in E. destruct (E e He), Hu as (? & ? & _); congruence. }
    apply IH. unfold Registry.refresh_unfinalized. apply Exists_fmap.
    eapply Exists_impl; [exact Hex|]. intros e He. simpl.
    rewrite (unsettleable_unfinalized e He). by rewrite unsettleable_refresh.
Qed.

Lemma monitor_never_ends_on_unsettleable_witness :
  Registry.monitor_finality_upgrades
    ((fun now => (not_implemented_world, now)) <$> [0; timedelta_seconds 10])
    [Sample.E1] = None.
Proof.
  apply (monitor_never_ends_on_unsettleable [0; timedelta_seconds 10] [Sample.E1]).
  apply Exists_cons_hd. split; [reflexivity|]. split; [reflexivity|].
  left. by eexists.
Defined.

(** An off-chain event of a chain with a tracker, old enough for the
    TIER3 time of that chain at the clock reading [now]. *)
Lemma offchain_refresh_finalizes (world : string -> Finality.Rpc) (now : datetime)
    (e : RiskEvent) (tracker : Finality.FinalityTracker) :
  block_number e = None ->
  Registry.get_tracker (chain e) = Some tracker ->
  timestamp e + timedelta_seconds (tier3_time_sec (Finality.chain_config tracker)) <= now ->
  is_finalized (Finality.registry_update_event_finality world now e) = true.
Proof.
  intros Hbn Ht Hage. unfold Finality.registry_update_event_finality.
  unfold Registry.get_tracker in Ht. rewrite Ht.
  unfold Finality.update_event_finality. rewrite Hbn.
  unfold Finality._update_offchain_finality.
  assert (Qleb (inject_Z (tier3_time_sec (Finality.chain_config tracker)))
               (total_seconds (now - timestamp e)) = true) as ->.
  { apply Qleb_le. unfold total_seconds, timedelta_seconds in *.
    unfold Qle, inject_Z. simpl. lia. }
  by case_match.
Qed.

(** X8.  When every event the monitor still watches is an off-chain
    event of a chain with a tracker and is older than the TIER3 time of
    its chain, one round ends the monitor: it returns the events, as
    many as it was given, each finalized or invalidated. *)
Theorem monitor_ends_on_ripe_events (world : string -> Finality.Rpc) (now : datetime)
    (rounds : list ((string -> Finality.Rpc) * datetime)) (events : list RiskEvent) :
  Forall (fun e => Registry.unfinalized e = true -> ripe now e) events ->
  exists events',
    Registry.monitor_finality_upgrades ((world, now) :: rounds) events = Some events'
    /\ length events' = length events
    /\ Forall Stated.settled events'.
Proof.
  intros Hall.
  assert (Forall Stated.settled (Registry.refresh_unfinalized world now events)) as Hdone.
  { unfold Registry.refresh_unfinalized. apply Forall_fmap.
    eapply Forall_impl; [exact Hall|]. intros e He. simpl.
    destruct (Registry.unfinalized e) eqn:E.
    - destruct (He E) as (Hbn & tracker & Ht & Hage). left.
      by eapply offchain_refresh_finalizes.
    - unfold Registry.unfinalized in E. unfold Stated.settled.
      destruct (is_finalized e), (invalidated e); simpl in E; auto; discriminate. }
  cbn [Registry.monitor_finality_upgrades].
  destruct (List.filter Registry.unfinalized events) eqn:E.
  - exists events. split; [done|]. split; [done|]. by apply filter_unfinalized_nil.
  - exists (Registry.refresh_unfinalized world now events).
    split; [|split; [|done]].
    + destruct rounds as [|[w n] rounds]; simpl;
        by rewrite (proj2 (filter_unfinalized_nil _) Hdone).
    + unfold Registry.refresh_unfinalized. by rewrite length_fmap.
Qed.

Lemma monitor_ends_on_ripe_events_witness :
  exists events',
    Registry.monitor_finality_upgrades [(not_implemented_world, timedelta_seconds 800)]
      (Sample.five_sources 0) = Some events'
    /\ length events' = length (Sample.five_sources 0)
    /\ Forall Stated.settled events'.
Proof.
  apply (monitor_ends_on_ripe_events not_implemented_world (timedelta_seconds 800) []
           (Sample.five_sources 0)).
  unfold Sample.five_sources.
  repeat (apply Forall_cons; split;
          [intros _; split; [reflexivity|];
           exists (Finality.mkFinalityTracker Config.ethereum);
           split; [reflexivity | vm_compute; discriminate]|]).
  constructor.
Defined.

(** ** Reorg handling without replacements, and on failure *)

Lemma handle_one_history (now : datetime) (news : option (list RiskEvent))
    (self : Reorg.ReorgHandler) (old_event : RiskEvent) :
  Reorg.reorg_history (Reorg.handle_one now news self old_event).1.1
  = Reorg.reorg_history self.
Proof.
  unfold Reorg.handle_one. cbv zeta.
  destruct (match news with | Some (_ :: _ as l) => _ | _ => None end); done.
Qed.

Lemma handle_loop_history (now : datetime) (news : option (list RiskEvent))
    (affected : list RiskEvent) (self : Reorg.ReorgHandler) :
  Reorg.reorg_history (Reorg.handle_loop now news self affected).1.1
  = Reorg.reorg_history self.
Proof.
  revert self. induction affected as [|o rest IH]; intros self; [done|].
  destruct (Reorg.handle_one now news self o) as [[s1 o'] c] eqn:H1.
  rewrite (handle_loop_cons _ _ _ _ _ _ _ _ H1).
  specialize (IH s1).
  destruct (Reorg.handle_loop now news s1 rest) as [[s2 m2] c2]. simpl in *.
  rewrite IH. pose proof (handle_one_history now news self o) as H. by rewrite H1 in H.
Qed.

(** What the loop does to every affected event, matched or not. *)
Lemma handle_one_invalidates (now : datetime) (news : option (list RiskEvent))
    (self : Reorg.ReorgHandler) (old_event : RiskEvent) :
  let old' := (Reorg.handle_one now news self old_event).1.2 in
  invalidated old' = true /\ reorg_detected_at old' = Some now
  /\ event_id old' = event_id old_event /\ block_number old' = block_number old_event.
Proof.
  unfold Reorg.handle_one. cbv zeta.
  destruct (match news with | Some (_ :: _ as l) => _ | _ => None end); done.
Qed.

Lemma handle_loop_invalidates (now : datetime) (news : option (list RiskEvent))
    (affected : list RiskEvent) (self : Reorg.ReorgHandler) :
  let mutated := (Reorg.handle_loop now news self affected).1.2 in
  length mutated = length affected
  /\ forall (i : nat) (e : RiskEvent),
       affected !! i = Some e ->
       exists e', mutated !! i = Some e'
                  /\ invalidated e' = true /\ reorg_detected_at e' = Some now
                  /\ event_id e' = event_id e /\ block_number e' = block_number e.
Proof.
  revert self. induction affected as [|o rest IH]; intros self.
  - split; [done|]. intros i e Hi. by rewrite lookup_nil in Hi.
  - destruct (Reorg.handle_one now news self o) as [[s1 o'] c] eqn:H1.
    rewrite (handle_loop_cons _ _ _ _ _ _ _ _ H1).
    specialize (IH s1).
    destruct (Reorg.handle_loop now news s1 rest) as [[s2 m2] c2]. simpl in *.
    destruct IH as [Hl IH]. split; [by rewrite Hl|].
    intros [|i] e Hi.
    + injection Hi as <-. exists o'. split; [done|].
      pose proof (handle_one_invalidates now news self o) as H. by rewrite H1 in H.
    + by apply IH.
Qed.

(** X9.  [handle_reorg] marks the affected events before it touches its
    log: whatever the replacement events, every affected event ends
    invalidated, with the detection time set and its id and block kept,
    also when the call then fails.  The call returns if and only if the
    handler keeps a log for the chain; for any other chain it is left by
    a [KeyError] with the events already marked and the log untouched. *)
Theorem handle_reorg_invalidates_first (self : Reorg.ReorgHandler) (now : datetime)
    (chain_name : string) (affected : list RiskEvent)
    (new_events : option (list RiskEvent)) :
  let r := Reorg.handle_reorg self now chain_name affected new_events in
  (is_Some (Reorg.returned r) <-> is_Some (Reorg.reorg_history self !! chain_name))
  /\ (Reorg.returned r = None ->
      Reorg.reorg_history (Reorg.handler r) = Reorg.reorg_history self)
  /\ length (Reorg.mutated r) = length affected
  /\ forall (i : nat) (e : RiskEvent),
       affected !! i = Some e ->
       exists e', Reorg.mutated r !! i = Some e'
                  /\ invalidated e' = true /\ reorg_detected_at e' = Some now
                  /\ event_id e' = event_id e /\ block_number e' = block_number e.
Proof.
  intros r. subst r. unfold Reorg.handle_reorg.
  pose proof (handle_loop_history now new_events affected self) as Hh.
  pose proof (handle_loop_invalidates now new_events affected self) as Hi.
  destruct (Reorg.handle_loop now new_events self affected) as [[s m] c].
  simpl in Hh, Hi. rewrite Hh.
  destruct (Reorg.reorg_history self !! chain_name) as [history|] eqn:E;
    cbn [Reorg.returned Reorg.mutated Reorg.handler].
  - split; [split; by eexists|]. split; [done|]. exact Hi.
  - split; [split; by intros [? ?]|]. split; [done|]. exact Hi.
Qed.

Lemma find_replacement_none (old_event : RiskEvent) (new_events : list RiskEvent) :
  (forall r, r ∈ new_events -> ~ Stated.matches old_event r) ->
  Reorg._find_replacement_event old_event new_events = None.
Proof.
  intros H. unfold Reorg._find_replacement_event.
  destruct (List.find _ new_events) as [r|] eqn:E; [|done].
  apply find_some in E as [Hin Hm]. apply list_elem_of_In in Hin.
  apply is_replacement_of_matches in Hm. by destruct (H r Hin).
Qed.

Lemma handle_one_unmatched (now : datetime) (news : option (list RiskEvent))
    (self : Reorg.ReorgHandler) (old_event : RiskEvent) :
  (forall l r, news = Some l -> r ∈ l -> ~ Stated.matches old_event r) ->
  Reorg.handle_one now news self old_event
  = (self, set_reorg_detected_at (Some now) (set_invalidated true old_event), None).
Proof.
  intros H. unfold Reorg.handle_one. cbv zeta.
  destruct news as [[|n ns]|]; [done| |done].
  rewrite find_replacement_none; [done|].
  intros r Hr Hm. apply (H (n :: ns) r eq_refl Hr).
  destruct Hm as (? & ? & ?). by repeat split.
Qed.

Lemma handle_loop_unmatched (now : datetime) (news : option (list RiskEvent))
    (affected : list RiskEvent) (self : Reorg.ReorgHandler) :
  (forall l o r, news = Some l -> o ∈ affected -> r ∈ l -> ~ Stated.matches o r) ->
  Reorg.handle_loop now news self affected
  = (self,
     (fun e => set_reorg_detected_at (Some now) (set_invalidated true e)) <$> affected,
     []).
Proof.
  induction affected as [|o rest IH]; intros H; [done|].
  assert (forall l r, news = Some l -> r ∈ l -> ~ Stated.matches o r) as Ho.
  { intros l r Hl. apply (H l o r Hl). by left. }
  rewrite (handle_loop_cons _ _ _ _ _ _ _ _ (handle_one_unmatched now news self o Ho)).
  rewrite IH; [done|]. intros l o' r Hl Ho'. apply (H l o' r Hl). by right.
Qed.

(** X10.  Without a replacement (no replacement events passed, as the
    block monitor does, an empty list, or a list in which no event
    matches an affected one) [handle_reorg] only invalidates: the
    affected events get [invalidated] and the detection time and
    nothing else, no correction is returned, and the recorded versions
    stay as they were. *)
Theorem handle_reorg_without_replacement (self : Reorg.ReorgHandler) (now : datetime)
    (chain_name : string) (affected : list RiskEvent)
    (new_events : option (list RiskEvent)) :
  (forall l o r, new_events = Some l -> o ∈ affected -> r ∈ l -> ~ Stated.matches o r) ->
  let r := Reorg.handle_reorg self now chain_name affected new_events in
  Reorg.mutated r
  = (fun e => set_reorg_detected_at (Some now) (set_invalidated true e)) <$> affected
  /\ Reorg.event_versions (Reorg.handler r) = Reorg.event_versions self
  /\ (is_Some (Reorg.reorg_history self !! chain_name) -> Reorg.returned r = Some []).
Proof.
  intros H r. subst r. unfold Reorg.handle_reorg.
  rewrite (handle_loop_unmatched now new_events affected self H).
  destruct (Reorg.reorg_history self !! chain_name) as [history|];
    cbn [Reorg.returned Reorg.mutated Reorg.handler Reorg.event_versions].
  - done.
  - split; [done|]. split; [done|]. by intros [? ?].
Qed.

Lemma handle_reorg_without_replacement_witness :
  let r := Reorg.handle_reorg Reorg.reorg_handler 0 "ethereum" [Sample.E1] None in
  Reorg.mutated r
  = (fun e => set_reorg_detected_at (Some 0) (set_invalidated true e)) <$> [Sample.E1]
  /\ Reorg.event_versions (Reorg.handler r) = Reorg.event_versions Reorg.reorg_handler
  /\ (is_Some (Reorg.reorg_history Reorg.reorg_handler !! "ethereum") ->
      Reorg.returned r = Some []).
Proof.
  apply (handle_reorg_without_replacement Reorg.reorg_handler 0 "ethereum"
           [Sample.E1] None).
  intros l o r Hl. discriminate Hl.
Defined.

(** ** Reorg statistics *)

Lemma sum_Z_snoc (xs : list Z) (x : Z) : Stats.sum_Z (xs ++ [x]) = Stats.sum_Z xs + x.
Proof. unfold Stats.sum_Z. by rewrite fold_left_app. Qed.

Lemma max_Z_snoc (x0 : Z) (xs : list Z) (x : Z) :
  Stats.max_Z x0 (xs ++ [x]) = Z.max (Stats.max_Z x0 xs) x.
Proof. unfold Stats.max_Z. by rewrite fold_left_app. Qed.

(** The record that [handle_reorg] appends to the log of a chain. *)
Lemma handle_reorg_history (self : Reorg.ReorgHandler) (now : datetime)
    (chain_name : string) (affected : list RiskEvent)
    (new_events : option (list RiskEvent)) (history : list Reorg.ReorgEvent) :
  Reorg.reorg_history self !! chain_name = Some history ->
  exists record,
    Reorg.reorg_history
      (Reorg.handler (Reorg.handle_reorg self now chain_name affected new_events))
    = <[chain_name := history ++ [record]]> (Reorg.reorg_history self)
    /\ Reorg.timestamp record = now
    /\ Reorg.depth record = Z.of_nat (length affected)
    /\ length (Reorg.affected_events record) = length affected.
Proof.
  intros Hh. unfold Reorg.handle_reorg.
  pose proof (handle_loop_history now new_events affected self) as Hs.
  pose proof (handle_loop_invalidates now new_events affected self) as [Hl _].
  destruct (Reorg.handle_loop now new_events self affected) as [[s m] c].
  simpl in Hs, Hl. rewrite Hs, Hh. eexists. split; [reflexivity|].
  cbn. by rewrite length_fmap.
Qed.

(** X11.  Each reorg handled for a chain the handler keeps a log of
    shows in the statistics of that chain: the count grows by one, the
    total of affected events by the number of events passed, the
    maximal depth becomes the larger of the old one and that number,
    and the latest reorg is the clock reading of the call; the
    statistics of the other chains do not change. *)
Theorem reorg_stats_after_handle_reorg (self : Reorg.ReorgHandler) (now : datetime)
    (chain_name : string) (affected : list RiskEvent)
    (new_events : option (list RiskEvent)) :
  is_Some (Reorg.reorg_history self !! chain_name) ->
  let r := Reorg.handle_reorg self now chain_name affected new_events in
  let before := Stats.get_reorg_stats self chain_name in
  let after := Stats.get_reorg_stats (Reorg.handler r) chain_name in
  Stats.reorg_count after = Stats.reorg_count before + 1
  /\ Stats.total_affected_events after
     = Stats.total_affected_events before + Z.of_nat (length affected)
  /\ Stats.max_depth after = Z.max (Stats.max_depth before) (Z.of_nat (length affected))
  /\ Stats.latest_reorg after = Some (isoformat now)
  /\ forall other, other <> chain_name ->
       Stats.get_reorg_stats (Reorg.handler r) other = Stats.get_reorg_stats self other.
Proof.
  intros [history Hh] r before after.
  destruct (handle_reorg_history self now chain_name affected new_events history Hh)
    as (record & Hr & Hts & Hd & Hn).
  fold r in Hr.
  assert (forall other, other <> chain_name ->
            Stats.get_reorg_stats (Reorg.handler r) other
            = Stats.get_reorg_stats self other) as Hother.
  { intros other Hne. unfold Stats.get_reorg_stats. by rewrite Hr, lookup_insert_ne. }
  cut (Stats.reorg_count after = Stats.reorg_count before + 1
       /\ Stats.total_affected_events after
          = Stats.total_affected_events before + Z.of_nat (length affected)
       /\ Stats.max_depth after
          = Z.max (Stats.max_depth before) (Z.of_nat (length affected))
       /\ Stats.latest_reorg after = Some (isoformat now)).
  { intros (? & ? & ? & ?). done. }
  clear Hother. subst before after. unfold Stats.get_reorg_stats.
  rewrite Hr, lookup_insert_eq, Hh. cbn [default from_option id].
  destruct history as [|r0 rs].
  - cbn. rewrite Hts, Hd, Hn. repeat split; lia.
  - cbn [app Stats.reorg_count Stats.total_affected_events Stats.max_depth
         Stats.latest_reorg].
    split; [rewrite !length_cons, length_app; simpl; lia|].
    split.
    { rewrite app_comm_cons, fmap_app. cbn [fmap list_fmap].
      rewrite sum_Z_snoc, Hn. done. }
    split.
    { rewrite fmap_app. cbn [fmap list_fmap]. by rewrite max_Z_snoc, Hd. }
    rewrite app_comm_cons, last_snoc. cbn. by rewrite Hts.
Qed.

Lemma reorg_stats_after_handle_reorg_witness :
  let r := Reorg.handle_reorg Reorg.reorg_handler 0 "ethereum" [Sample.E1] None in
  Stats.reorg_count (Stats.get_reorg_stats (Reorg.handler r) "ethereum")
  = Stats.reorg_count (Stats.get_reorg_stats Reorg.reorg_handler "ethereum") + 1.
Proof.
  apply (reorg_stats_after_handle_reorg Reorg.reorg_handler 0 "ethereum"
           [Sample.E1] None).
  by eexists.
Defined.

(** ** What handling a fork does to the monitor *)

Lemma write_back_fmap (p : RiskEvent -> bool) (f : RiskEvent -> RiskEvent)
    (store : list RiskEvent) :
  Monitor.write_back p store (f <$> List.filter p store)
  = (fun e => if p e then f e else e) <$> store.
Proof.
  induction store as [|e store IH]; [done|].
  cbn [Monitor.write_back List.filter fmap list_fmap].
  destruct (p e) eqn:E.
  - cbn [fmap list_fmap]. change (list_fmap RiskEvent RiskEvent f) with (fmap f).
    by rewrite IH.
  - by rewrite IH.
Qed.

Lemma clear_cache_range_lookup (cache : gmap Z Monitor.BlockHeader) (start end_ h : Z) :
  Monitor._clear_cache_range cache start end_ !! h
  = if bool_decide (start <= h <= end_) then None else cache !! h.
Proof.
  unfold Monitor._clear_cache_range.
  assert (forall (hs : list Z) (c : gmap Z Monitor.BlockHeader),
            fold_left (fun c h => delete h c) hs c !! h
            = if bool_decide (h ∈ hs) then None else c !! h) as Hfold.
  { induction hs as [|x hs IH]; intros c; [done|].
    cbn [fold_left]. rewrite IH.
    destruct (decide (h = x)) as [->|Hne].
    - rewrite lookup_delete_eq. rewrite (bool_decide_eq_true_2 (x ∈ x :: hs)) by set_solver.
      by case_bool_decide.
    - rewrite lookup_delete_ne by done.
      by rewrite (bool_decide_ext (h ∈ x :: hs) (h ∈ hs)) by set_solver. }
  rewrite Hfold.
  by rewrite (bool_decide_ext (h ∈ seqZ start (end_ + 1 - start)) (start <= h <= end_))
    by (rewrite elem_of_seqZ; lia).
Qed.

(** The events and the handler after [_handle_fork], for a chain the
    handler keeps a log of. *)
Lemma handle_fork_store (live : Monitor.Chain) (self : Monitor.BlockMonitor)
    (handler : Reorg.ReorgHandler) (now : datetime) (fork_height : Z)
    (new_block : option Monitor.BlockHeader) :
  is_Some (Reorg.reorg_history handler !! Monitor.chain self) ->
  let fork_point := Monitor._find_fork_point live self fork_height in
  let r := Monitor._handle_fork live self handler now fork_height new_block in
  r.2 = true
  /\ Monitor._event_store r.1.1
     = (fun e => if Monitor.in_range self fork_point fork_height e
                 then set_reorg_detected_at (Some now) (set_invalidated true e)
                 else e) <$> Monitor._event_store self
  /\ Reorg.event_versions r.1.2 = Reorg.event_versions handler.
Proof.
  intros Hknown fork_point r. subst r. unfold Monitor._handle_fork.
  fold fork_point.
  set (p := Monitor.in_range self fork_point fork_height).
  set (f := fun e => set_reorg_detected_at (Some now) (set_invalidated true e)).
  unfold Monitor._get_events_in_range. fold p.
  destruct (List.filter p (Monitor._event_store self)) as [|a affected] eqn:E.
  - cbn. split; [done|]. split; [|done].
    rewrite <- (write_back_fmap p f), E. cbn.
    clear E. induction (Monitor._event_store self) as [|e store IH]; [done|].
    cbn. destruct (p e); by rewrite <- IH.
  - destruct Hknown as [history Hh].
    unfold Reorg.handle_reorg.
    rewrite (handle_loop_unmatched now None (a :: affected) handler)
      by (by intros l o r0 Hl).
    rewrite Hh. cbn [Reorg.handler Reorg.mutated Reorg.returned is_not_None fst snd].
    by rewrite <- E, write_back_fmap.
Qed.

(** X12.  What [_handle_fork] leaves behind when the handler keeps a
    log for the chain of the monitor: the call completes; the registered
    events with a block in [[fork_point, fork_height]] are invalidated,
    with the detection time set, and the other registered events are
    untouched; no correction is created and no version recorded, the
    monitor passing no replacement events; the reorg counter grows by
    one; and the cached headers of exactly the heights of that range
    are dropped. *)
Theorem handle_fork_effect (live : Monitor.Chain) (self : Monitor.BlockMonitor)
    (handler : Reorg.ReorgHandler) (now : datetime) (fork_height : Z)
    (new_block : option Monitor.BlockHeader) :
  is_Some (Reorg.reorg_history handler !! Monitor.chain self) ->
  let fork_point := Monitor._find_fork_point live self fork_height in
  let r := Monitor._handle_fork live self handler now fork_height new_block in
  r.2 = true
  /\ Monitor._event_store r.1.1
     = (fun e => if Monitor.in_range self fork_point fork_height e
                 then set_reorg_detected_at (Some now) (set_invalidated true e)
                 else e) <$> Monitor._event_store self
  /\ Reorg.event_versions r.1.2 = Reorg.event_versions handler
  /\ Monitor.reorgs_detected r.1.1 = Monitor.reorgs_detected self + 1
  /\ Monitor.last_reorg_time r.1.1 = Some now
  /\ forall h, Monitor.block_cache r.1.1 !! h
               = if bool_decide (fork_point <= h <= fork_height) then None
                 else Monitor.block_cache self !! h.
Proof.
  intros Hknown fork_point r.
  destruct (handle_fork_store live self handler now fork_height new_block Hknown)
    as (Hdone & Hstore & Hver).
  fold fork_point r in Hdone, Hstore, Hver.
  split; [done|]. split; [done|]. split; [done|].
  subst r. unfold Monitor._handle_fork in *. fold fork_point in Hdone |- *.
  destruct (match Monitor._get_events_in_range self fork_point fork_height with
            | [] => _ | _ => _ end) as [[h' store] completed].
  cbn in Hdone. destruct completed; [|done]. cbn.
  split; [done|]. split; [done|]. intros h. apply clear_cache_range_lookup.
Qed.

Lemma handle_fork_effect_witness :
  let r := Monitor._handle_fork Sample.forked_chain Sample.forked_monitor
             Reorg.reorg_handler 0 100 None in
  r.2 = true /\ Monitor.reorgs_detected r.1.1 = 1.
Proof.
  destruct (handle_fork_effect Sample.forked_chain Sample.forked_monitor
              Reorg.reorg_handler 0 100 None) as (H1 & _ & _ & H4 & _).
  - by eexists.
  - split; [exact H1 | exact H4].
Defined.

(** ** The header cache *)

Lemma setitem_keys (key : Z) (value : Monitor.BlockHeader) (cache : Cache.OrderedDict) :
  (Cache.setitem key value cache).*1
  = if bool_decide (key ∈ cache.*1) then cache.*1 else cache.*1 ++ [key].
Proof.
  induction cache as [|[k v] rest IH]; [done|].
  cbn [Cache.setitem]. destruct (decide (k = key)) as [->|Hne].
  - cbn. by rewrite (bool_decide_eq_true_2 (key ∈ key :: rest.*1)) by set_solver.
  - cbn [fmap list_fmap fst]. change (list_fmap _ _ fst) with (fmap (M:=list) (@fst Z Monitor.BlockHeader)).
    rewrite IH.
    rewrite (bool_decide_ext (key ∈ k :: rest.*1) (key ∈ rest.*1)) by set_solver.
    by case_bool_decide.
Qed.

Lemma setitem_elem (key : Z) (value : Monitor.BlockHeader) (cache : Cache.OrderedDict) :
  (key, value) ∈ Cache.setitem key value cache.
Proof.
  induction cache as [|[k v] rest IH]; [set_solver|].
  cbn [Cache.setitem]. destruct (decide (k = key)); set_solver.
Qed.

Lemma setitem_last (key : Z) (value : Monitor.BlockHeader) (cache : Cache.OrderedDict) :
  key ∉ cache.*1 -> Cache.setitem key value cache = cache ++ [(key, value)].
Proof.
  induction cache as [|[k v] rest IH]; intros Hk; [done|].
  cbn [Cache.setitem]. cbn in Hk. apply not_elem_of_cons in Hk as [Hne Hk].
  destruct (decide (k = key)); [congruence|]. by rewrite IH.
Qed.

Lemma evict_fits (max_cache_size : Z) (cache : Cache.OrderedDict) :
  Z.of_nat (length cache) <= max_cache_size -> Cache.evict max_cache_size cache = Some cache.
Proof.
  intros H. destruct cache; cbn [Cache.evict];
    by rewrite (proj2 (Z.ltb_ge _ _)) by done.
Qed.

(** X13.  [_add_to_cache] keeps the cache within its capacity and never
    loses the header it adds.  For a capacity of at least one and a
    cache within it, the call succeeds; afterwards the cache is within
    the capacity, still has one entry per height, and serves the new
    header at its height; what it holds is the old cache with the
    header written, less at most one entry, the oldest, and no entry
    is dropped when the height was cached before. *)
Theorem add_to_cache_bounded (max_cache_size : Z) (cache : Cache.OrderedDict)
    (header : Monitor.BlockHeader) :
  1 <= max_cache_size ->
  Z.of_nat (length cache) <= max_cache_size ->
  NoDup cache.*1 ->
  exists cache' dropped,
    Cache._add_to_cache max_cache_size cache header = Some cache'
    /\ Z.of_nat (length cache') <= max_cache_size
    /\ NoDup cache'.*1
    /\ Cache.by_height cache' !! Monitor.number header = Some header
    /\ Cache.setitem (Monitor.number header) header cache = dropped ++ cache'
    /\ (length dropped <= 1)%nat
    /\ (Monitor.number header ∈ cache.*1 -> dropped = []).
Proof.
  intros Hmax Hlen Hnd. unfold Cache._add_to_cache.
  set (key := Monitor.number header).
  pose proof (setitem_keys key header cache) as Hkeys.
  pose proof (setitem_elem key header cache) as Helem.
  destruct (decide (key ∈ cache.*1)) as [Hin|Hnin].
  - rewrite (bool_decide_eq_true_2 _ Hin) in Hkeys.
    assert (length (Cache.setitem key header cache) = length cache) as Hl.
    { by rewrite <- (length_fmap fst), Hkeys, length_fmap. }
    exists (Cache.setitem key header cache), [].
    rewrite evict_fits by lia.
    split; [done|]. split; [lia|]. split; [by rewrite Hkeys|].
    split; [|split; [done|split; [simpl; lia|done]]].
    apply elem_of_list_to_map; [by rewrite Hkeys | done].
  - rewrite (bool_decide_eq_false_2 _ Hnin) in Hkeys.
    rewrite (setitem_last key header cache Hnin) in *.
    assert (NoDup (cache ++ [(key, header)]).*1) as Hnd'.
    { rewrite Hkeys. apply NoDup_app. split; [done|]. split; [|apply NoDup_singleton].
      intros x Hx Hx'. apply list_elem_of_singleton in Hx'. by subst. }
    destruct (decide (Z.of_nat (length cache) + 1 <= max_cache_size)) as [Hfit|Hfull].
    + exists (cache ++ [(key, header)]), [].
      rewrite evict_fits by (rewrite length_app; simpl; lia).
      split; [done|]. split; [rewrite length_app; simpl; lia|]. split; [done|].
      split; [|split; [done|split; [simpl; lia|done]]]. by apply elem_of_list_to_map.
    + destruct cache as [|[k v] rest]; [simpl in *; lia|].
      exists (rest ++ [(key, header)]), [(k, v)].
      cbn [app Cache.evict]. cbn [length] in *.
      rewrite length_app in *. cbn [length] in *.
      rewrite (proj2 (Z.ltb_lt _ _)) by lia.
      rewrite evict_fits by (rewrite length_app; cbn [length]; lia).
      split; [done|]. split; [lia|].
      cbn in Hnd'. apply NoDup_cons in Hnd' as [_ Hnd'].
      split; [done|]. split; [|split; [done|split; [simpl; lia|done]]].
      apply elem_of_list_to_map; [done|]. set_solver.
Qed.

Lemma add_to_cache_bounded_witness :
  exists cache' dropped,
    Cache._add_to_cache 2 [(97, Sample.header 97 "0xa97"); (98, Sample.header 98 "0xa98")]
      (Sample.header 99 "0xa99") = Some cache'
    /\ Z.of_nat (length cache') <= 2
    /\ NoDup cache'.*1
    /\ Cache.by_height cache' !! 99 = Some (Sample.header 99 "0xa99")
    /\ Cache.setitem 99 (Sample.header 99 "0xa99")
         [(97, Sample.header 97 "0xa97"); (98, Sample.header 98 "0xa98")]
       = dropped ++ cache'
    /\ (length dropped <= 1)%nat
    /\ (99 ∈ [(97, Sample.header 97 "0xa97"); (98, Sample.header 98 "0xa98")].*1 ->
        dropped = []).
Proof.
  apply (add_to_cache_bounded 2
           [(97, Sample.header 97 "0xa97"); (98, Sample.header 98 "0xa98")]
           (Sample.header 99 "0xa99")); [lia | simpl; lia |].
  cbn. apply NoDup_cons. split; [set_solver|]. apply NoDup_singleton.
Defined.

(** ** Polling for reorgs *)

Lemma first_mismatch_none (live : Monitor.Chain) (self : Monitor.BlockMonitor)
    (heights : list Z) :
  Cache.first_mismatch live self heights = None <->
  forall h, h ∈ heights -> is_Some (Monitor.block_cache self !! h) ->
            Monitor.is_common_ancestor live self h = true.
Proof.
  induction heights as [|x hs IH]; [split; [by intros _ h ?%elem_of_nil | done]|].
  cbn [Cache.first_mismatch]. unfold Monitor.is_common_ancestor in *.
  destruct (Monitor.block_cache self !! x) as [c|] eqn:Ec.
  - destruct (live x) as [a|] eqn:Ea.
    + case_bool_decide as Eh.
      * rewrite IH. split.
        -- intros H h [->|Hh]%elem_of_cons Hc; [|by apply H].
           rewrite Ec, Ea. by apply bool_decide_eq_true_2.
        -- intros H h Hh. apply H. by right.
      * split; [done|]. intros H. specialize (H x (list_elem_of_here _ _)).
        rewrite Ec, Ea in H. rewrite (bool_decide_eq_false_2 _ Eh) in H.
        by specialize (H (mk_is_Some _ _ eq_refl)).
    + split; [done|]. intros H. specialize (H x (list_elem_of_here _ _)).
      rewrite Ec, Ea in H. by specialize (H (mk_is_Some _ _ eq_refl)).
  - rewrite IH. split.
    + intros H h [->|Hh]%elem_of_cons Hc; [|by apply H].
      rewrite Ec in Hc. by destruct Hc.
    + intros H h Hh. apply H. by right.
Qed.

Lemma first_mismatch_some (live : Monitor.Chain) (self : Monitor.BlockMonitor)
    (heights : list Z) (h : Z) (actual : option Monitor.BlockHeader) :
  Cache.first_mismatch live self heights = Some (h, actual) ->
  exists before after,
    heights = before ++ h :: after
    /\ Cache.first_mismatch live self before = None
    /\ is_Some (Monitor.block_cache self !! h)
    /\ Monitor.is_common_ancestor live self h = false
    /\ actual = live h.
Proof.
  induction heights as [|x hs IH]; [done|].
  cbn [Cache.first_mismatch]. unfold Monitor.is_common_ancestor in *.
  destruct (Monitor.block_cache self !! x) as [c|] eqn:Ec.
  - destruct (live x) as [a|] eqn:Ea.
    + case_bool_decide as Eh.
      * intros H. destruct (IH H) as (b & a' & -> & Hb & Hc & Hm & Ha).
        exists (x :: b), a'. split; [done|]. split; [|done].
        cbn [Cache.first_mismatch]. rewrite Ec, Ea.
        by rewrite (bool_decide_eq_true_2 _ Eh).
      * intros [= <- <-]. exists [], hs. rewrite Ec, Ea.
        rewrite (bool_decide_eq_false_2 _ Eh). by repeat split.
    + intros [= <- <-]. exists [], hs. rewrite Ec, Ea. by repeat split.
  - intros H. destruct (IH H) as (b & a' & -> & Hb & Hc & Hm & Ha).
    exists (x :: b), a'. split; [done|]. split; [|done].
    cbn [Cache.first_mismatch]. by rewrite Ec.
Qed.

(** X14.  A poll that finds every cached header of the heights it
    checks (the last [min(10, cache size)] heights below the current
    one) still served with the cached hash changes nothing: the
    monitor, its events and the handler are left as they are. *)
Theorem check_for_reorg_quiet (live : Monitor.Chain) (self : Monitor.BlockMonitor)
    (handler : Reorg.ReorgHandler) (now : datetime) (current_height : Z) :
  (forall h, h ∈ Cache.checked_heights self current_height ->
             is_Some (Monitor.block_cache self !! h) ->
             Monitor.is_common_ancestor live self h = true) ->
  Cache._check_for_reorg live self handler now current_height = (self, handler, true).
Proof.
  intros H. apply first_mismatch_none in H. unfold Cache._check_for_reorg. by rewrite H.
Qed.

Lemma check_for_reorg_quiet_witness :
  Cache._check_for_reorg Sample.forked_chain Sample.forked_monitor Reorg.reorg_handler
    0 100
  = (Sample.forked_monitor, Reorg.reorg_handler, true).
Proof.
  apply (check_for_reorg_quiet Sample.forked_chain Sample.forked_monitor
           Reorg.reorg_handler 0 100).
  intros h Hh Hc.
  change (Cache.checked_heights Sample.forked_monitor 100) with (seqZ 96 4) in Hh.
  apply elem_of_seqZ in Hh.
  assert (h = 96 \/ h = 97 \/ h = 98 \/ h = 99) as [-> | [-> | [-> | ->]]] by lia;
    [|reflexivity..].
  vm_compute in Hc. by destruct Hc.
Defined.

(** The heights a poll checks come in increasing order. *)
Lemma seqZ_split (start len h : Z) (before after : list Z) :
  seqZ start len = before ++ h :: after ->
  h = start + Z.of_nat (length before)
  /\ (forall x, x ∈ seqZ start len -> x < h -> x ∈ before).
Proof.
  intros H.
  assert (seqZ start len !! length before = Some h) as Hh.
  { rewrite H. by rewrite list_lookup_middle. }
  apply lookup_seqZ in Hh as [Hh Hlen]. split; [lia|].
  intros x Hx Hlt. apply list_elem_of_lookup in Hx as [i Hi].
  pose proof Hi as Hi'. apply lookup_seqZ in Hi' as [Hx _].
  rewrite H in Hi. rewrite lookup_app_l in Hi by lia.
  by eapply list_elem_of_lookup_2.
Qed.

(** X15.  A poll that meets a mismatch handles one fork, at the lowest
    checked height whose cached header is no longer served with its
    hash; that height is below the current one.  The registered events
    anchored in blocks above that height, up to the current height, are
    left as they are by this poll. *)
Theorem check_for_reorg_first_mismatch (live : Monitor.Chain)
    (self : Monitor.BlockMonitor) (handler : Reorg.ReorgHandler) (now : datetime)
    (current_height h : Z) (actual : option Monitor.BlockHeader) :
  is_Some (Reorg.reorg_history handler !! Monitor.chain self) ->
  Cache.first_mismatch live self (Cache.checked_heights self current_height)
  = Some (h, actual) ->
  let r := Cache._check_for_reorg live self handler now current_height in
  r = Monitor._handle_fork live self handler now h (live h)
  /\ h < current_height
  /\ Monitor.is_common_ancestor live self h = false
  /\ (forall h', h' ∈ Cache.checked_heights self current_height -> h' < h ->
                 is_Some (Monitor.block_cache self !! h') ->
                 Monitor.is_common_ancestor live self h' = true)
  /\ forall (i : nat) (e : RiskEvent),
       Monitor._event_store self !! i = Some e ->
       (forall bn, block_number e = Some bn -> h < bn) ->
       Monitor._event_store r.1.1 !! i = Some e.
Proof.
  intros Hknown Hfm r. subst r. unfold Cache._check_for_reorg. rewrite Hfm.
  destruct (first_mismatch_some live self _ h actual Hfm)
    as (before & after & Hsplit & Hbefore & Hc & Hm & ->).
  split; [done|].
  assert (h ∈ Cache.checked_heights self current_height) as Hin.
  { rewrite Hsplit. set_solver. }
  unfold Cache.checked_heights in Hin, Hsplit. apply elem_of_seqZ in Hin.
  split; [lia|]. split; [done|]. split.
  - intros h' Hh' Hlt Hc'. unfold Cache.checked_heights in Hh'.
    destruct (seqZ_split _ _ _ _ _ Hsplit) as [_ Hb].
    by apply (proj1 (first_mismatch_none live self before) Hbefore h' (Hb h' Hh' Hlt)).
  - intros i e Hi Habove.
    destruct (handle_fork_store live self handler now h (live h) Hknown)
      as (_ & Hstore & _).
    rewrite Hstore, list_lookup_fmap, Hi. cbn. f_equal.
    unfold Monitor.in_range. destruct (block_number e) as [bn|] eqn:Eb; [|done].
    specialize (Habove bn eq_refl).
    by rewrite (proj2 (Z.leb_gt bn h)), andb_false_r by lia.
Qed.

Lemma check_for_reorg_first_mismatch_witness :
  let r := Cache._check_for_reorg Sample.forked_chain Sample.forked_monitor
             Reorg.reorg_handler 0 101 in
  r = Monitor._handle_fork Sample.forked_chain Sample.forked_monitor Reorg.reorg_handler
        0 100 (Sample.forked_chain 100)
  /\ 100 < 101.
Proof.
  destruct (check_for_reorg_first_mismatch Sample.forked_chain Sample.forked_monitor
              Reorg.reorg_handler 0 101 100 (Some (Sample.header 100 "0xb100")))
    as (H1 & H2 & _).
  - by eexists.
  - reflexivity.
  - split; [exact H1 | exact H2].
Defined.

(** ** Readiness of a cross-chain aggregation *)

Lemma str_min_tier1 (t : string) (ts : list string) :
  Forall (fun x => x = "tier1" \/ x = "tier2" \/ x = "tier3") (t :: ts) ->
  (CrossChain.str_min t ts = "tier1" <-> "tier1" ∈ t :: ts)
  /\ (CrossChain.str_min t ts = "tier1" \/ CrossChain.str_min t ts = "tier2"
      \/ CrossChain.str_min t ts = "tier3").
Proof.
  unfold CrossChain.str_min. revert t. induction ts as [|y ys IH]; intros t Hall.
  - apply Forall_cons in Hall as [Ht _]. simpl. split; [|done].
    split; [intros ->; set_solver | by intros ->%list_elem_of_singleton].
  - apply Forall_cons in Hall as [Ht Hall]. pose proof Hall as Hall'.
    apply Forall_cons in Hall' as [Hy Hys]. cbn [fold_left].
    assert (forall b, (b = "tier1" \/ b = "tier2" \/ b = "tier3") ->
              Forall (fun x => x = "tier1" \/ x = "tier2" \/ x = "tier3") (b :: ys)) as Hb.
    { intros b Hb. by apply Forall_cons. }
    destruct Ht as [-> | [-> | ->]], Hy as [-> | [-> | ->]]; cbn;
      match goal with
      | |- context [fold_left _ ys ?b] =>
          destruct (IH b (Hb b ltac:(auto))) as [IH1 IH2]
      end;
      (split; [rewrite IH1; set_solver | exact IH2]).
Qed.

Lemma chain_ready_no_tier1 (events : list RiskEvent) :
  Forall valid_tier events ->
  CrossChain.chain_ready events = true ->
  Forall (fun e => finality_tier e = "tier2" \/ finality_tier e = "tier3") events.
Proof.
  intros Hv Hr. unfold CrossChain.chain_ready in Hr.
  destruct events as [|e es]; [constructor|].
  change (finality_tier <$> e :: es)
    with (finality_tier e :: (finality_tier <$> es)) in Hr.
  cbv beta iota in Hr. apply negb_true_iff, bool_decide_eq_false in Hr.
  assert (Forall (fun x => x = "tier1" \/ x = "tier2" \/ x = "tier3")
                 (finality_tier e :: (finality_tier <$> es))) as Hall.
  { change (Forall (fun x => x = "tier1" \/ x = "tier2" \/ x = "tier3")
                   (finality_tier <$> e :: es)).
    apply Forall_fmap. exact Hv. }
  destruct (str_min_tier1 _ _ Hall) as [Hiff _].
  rewrite Hiff in Hr.
  rewrite Forall_forall in Hv |- *. intros x Hx.
  destruct (Hv x Hx) as [H1|H]; [|done].
  exfalso. apply Hr. rewrite <- H1.
  change (finality_tier x ∈ finality_tier <$> e :: es).
  by apply (list_elem_of_fmap_2 finality_tier).
Qed.

(** X16.  When every event carries one of the three tiers of the
    schema and at least one chain has an event, a positive readiness
    check means that the grace period after the end of the window has
    passed, that no event is still at TIER1, and that the cross-chain
    confidence the aggregator computes for the same events is at
    least 0.8. *)
Theorem ready_means_confident (events_by_chain : gmap string (list RiskEvent))
    (window_end now : datetime) :
  (forall c events e, events_by_chain !! c = Some events -> e ∈ events -> valid_tier e) ->
  (exists c events, events_by_chain !! c = Some events /\ events <> []) ->
  CrossChain.check_cross_chain_readiness events_by_chain window_end now = true ->
  window_end + timedelta_seconds 900 <= now
  /\ (forall c events e, events_by_chain !! c = Some events -> e ∈ events ->
                         finality_tier e <> "tier1")
  /\ (8 # 10 <= Aggregator._calculate_chain_confidence events_by_chain)%Q.
Proof.
  intros Hvalid (c0 & evs0 & Hc0 & Hne) Hready.
  unfold CrossChain.check_cross_chain_readiness in Hready. cbv zeta in Hready.
  destruct (_ <=? now) eqn:Eg; [|done]. apply Z.leb_le in Eg. cbn [negb] in Hready.
  split; [exact Eg|].
  assert (forall c events e, events_by_chain !! c = Some events -> e ∈ events ->
            finality_tier e = "tier2" \/ finality_tier e = "tier3") as Hhigh.
  { intros c events e Hc He.
    rewrite forallb_forall in Hready.
    assert (CrossChain.chain_ready events = true) as Hr.
    { apply (Hready (c, events)). apply list_elem_of_In.
      unfold Aggregator.items. by apply elem_of_map_to_list. }
    assert (Forall valid_tier events) as Hv.
    { apply Forall_forall. intros x Hx. by eapply Hvalid. }
    pose proof (chain_ready_no_tier1 events Hv Hr) as H.
    rewrite Forall_forall in H. by apply H. }
  split.
  { intros c events e Hc He. destruct (Hhigh c events e Hc He) as [-> | ->]; done. }
  unfold Aggregator._calculate_chain_confidence.
  set (per_chain := fun kv : string * list RiskEvent =>
         match get_confidence_tier_value <$> kv.2 with
         | [] => None
         | c :: cs => Some (py_min c cs)
         end).
  assert (forall q, q ∈ omap per_chain (Aggregator.items events_by_chain) ->
                    (8 # 10 <= q)%Q) as Hq.
  { intros q Hin. apply list_elem_of_omap in Hin as ([c events] & Hin & Hp).
    unfold Aggregator.items in Hin. apply elem_of_map_to_list in Hin.
    unfold per_chain in Hp. cbn [snd] in Hp.
    destruct (get_confidence_tier_value <$> events) as [|v vs] eqn:Ev; [done|].
    injection Hp as <-. pose proof (py_min_elem v vs) as Hm. rewrite <- Ev in Hm.
    apply list_elem_of_fmap in Hm as (e & -> & He).
    unfold get_confidence_tier_value.
    destruct (Hhigh c events e Hin He) as [-> | ->];
      repeat case_decide; try congruence; lra. }
  destruct (omap per_chain (Aggregator.items events_by_chain)) as [|q qs] eqn:Eo.
  - exfalso. destruct evs0 as [|e0 es0]; [done|].
    assert (py_min (get_confidence_tier_value e0) (get_confidence_tier_value <$> es0)
            ∈ omap per_chain (Aggregator.items events_by_chain)) as Hin.
    { apply list_elem_of_omap. exists (c0, e0 :: es0). split; [|done].
      unfold Aggregator.items. by apply elem_of_map_to_list. }
    rewrite Eo in Hin. by apply elem_of_nil in Hin.
  - apply Hq. apply py_min_elem.
Qed.

Lemma ready_means_confident_witness :
  (8 # 10 <= Aggregator._calculate_chain_confidence
               (<["ethereum" := Sample.ethereum_events]>
                  (<["arbitrum" := Sample.arbitrum_events]> ∅)))%Q.
Proof.
  apply (ready_means_confident
           (<["ethereum" := Sample.ethereum_events]>
              (<["arbitrum" := Sample.arbitrum_events]> ∅))
           (timedelta_seconds 300) (timedelta_seconds 1200)).
  - intros c events e Hc He.
    apply lookup_insert_Some in Hc as [[_ <-]|[_ Hc]];
      [|apply lookup_insert_Some in Hc as [[_ <-]|[_ Hc]]; [|done]];
      apply list_elem_of_singleton in He as ->; right; right; reflexivity.
  - exists "ethereum", Sample.ethereum_events. split; [reflexivity | discriminate].
  - vm_compute. reflexivity.
Defined.

(** ** The slowest chain and the grace period *)

Lemma slowest_fold (c : string) (cs : list string) :
  let best := fold_left (fun best x => if CrossChain.finality_time best
                                            <? CrossChain.finality_time x
                                       then x else best) cs c in
  best ∈ c :: cs
  /\ CrossChain.finality_time best
     = Stats.max_Z (CrossChain.finality_time c) (CrossChain.finality_time <$> cs)
  /\ forall x, x ∈ c :: cs -> CrossChain.finality_time x <= CrossChain.finality_time best.
Proof.
  revert c. induction cs as [|y ys IH]; intros c.
  - cbn. split; [set_solver|]. split; [done|].
    intros x ->%list_elem_of_singleton. lia.
  - cbn [fold_left fmap list_fmap]. unfold Stats.max_Z. cbn [fold_left].
    destruct (CrossChain.finality_time c <? CrossChain.finality_time y) eqn:E;
      [apply Z.ltb_lt in E | apply Z.ltb_ge in E].
    + destruct (IH y) as (Hin & Hmax & Hle). split; [set_solver|]. split.
      * rewrite Hmax. unfold Stats.max_Z. f_equal. lia.
      * intros x [->|Hx]%elem_of_cons; [|by apply Hle].
        specialize (Hle y (list_elem_of_here _ _)). lia.
    + destruct (IH c) as (Hin & Hmax & Hle). split; [set_solver|]. split.
      * rewrite Hmax. unfold Stats.max_Z. f_equal. lia.
      * intros x [->|[->|Hx]%elem_of_cons]%elem_of_cons.
        -- apply Hle. set_solver.
        -- specialize (Hle c (list_elem_of_here _ _)). lia.
        -- apply Hle. set_solver.
Qed.

(** X17.  The grace period computed for a list of chains is the TIER3
    time of the chain [get_slowest_chain] returns; that chain is one of
    the list and no chain of the list has a longer TIER3 time, a chain
    the aggregator does not know counting as 0.  On the empty list both
    calls raise. *)
Theorem grace_period_is_slowest_finality (chains : list string) :
  (chains = [] ->
   CrossChain.get_slowest_chain chains = None
   /\ CrossChain.calculate_cross_chain_grace_period chains = None)
  /\ (chains <> [] ->
      exists slowest,
        CrossChain.get_slowest_chain chains = Some slowest
        /\ slowest ∈ chains
        /\ CrossChain.calculate_cross_chain_grace_period chains
           = Some (CrossChain.finality_time slowest)
        /\ forall c, c ∈ chains ->
                     CrossChain.finality_time c <= CrossChain.finality_time slowest).
Proof.
  split; [by intros ->|]. intros Hne. destruct chains as [|c cs]; [done|].
  destruct (slowest_fold c cs) as (Hin & Hmax & Hle).
  eexists. split; [reflexivity|]. split; [exact Hin|]. split; [|exact Hle].
  unfold CrossChain.calculate_cross_chain_grace_period.
  change (CrossChain.finality_time <$> c :: cs)
    with (CrossChain.finality_time c :: (CrossChain.finality_time <$> cs)).
  cbv beta iota. by rewrite Hmax.
Qed.

(** ** Price divergence across chains *)

Lemma compare_pair_positive (threshold : Q) (c1 c2 : string * Q) :
  (0 < c1.2)%Q -> (0 < c2.2)%Q ->
  exists here,
    CrossChain.compare_pair threshold c1 c2 = Some here
    /\ (here <> [] <-> (threshold < Qabs (c1.2 - c2.2))%Q)
    /\ Forall (fun d => (threshold < CrossChain.difference d)%Q) here.
Proof.
  intros H1 H2. unfold CrossChain.compare_pair. cbv zeta.
  destruct (Qltb threshold (Qabs (c1.2 - c2.2))) eqn:E.
  - apply Qltb_lt in E.
    assert (Qeq_bool ((c1.2 + c2.2) / (2 # 1)) (0 # 1) = false) as ->.
    { apply not_true_iff_false. intros H. apply Qeq_bool_eq in H.
      unfold Qdiv in H. change (/ (2 # 1))%Q with (1 # 2)%Q in H. lra. }
    assert (Qeq_bool c1.2 (0 # 1) = false) as ->.
    { apply not_true_iff_false. intros H. apply Qeq_bool_eq in H. lra. }
    eexists. split; [reflexivity|]. split; [by split|].
    by repeat constructor.
  - apply Qltb_ge in E. exists []. split; [done|]. split; [|constructor].
    split; [done|]. intros H. lra.
Qed.

Lemma compare_row_positive (threshold : Q) (c1 : string * Q) (rest : list (string * Q)) :
  (0 < c1.2)%Q -> Forall (fun cp => (0 < cp.2)%Q) rest ->
  exists here,
    mapM (CrossChain.compare_pair threshold c1) rest = Some here
    /\ (concat here <> [] <->
        exists (j : nat) (c2 : string * Q),
          rest !! j = Some c2 /\ (threshold < Qabs (c1.2 - c2.2))%Q)
    /\ Forall (fun d => (threshold < CrossChain.difference d)%Q) (concat here).
Proof.
  intros H1 Hall. induction Hall as [|c2 rest H2 Hall IH].
  - exists []. split; [done|]. split; [|constructor].
    split; [done|]. by intros (j & c2 & Hj & _).
  - destruct IH as (here & Hm & Hiff & Hd).
    destruct (compare_pair_positive threshold c1 c2 H1 H2) as (h & Hp & Hh & Hhd).
    exists (h :: here). split.
    { apply mapM_Some. constructor; [done|]. by apply mapM_Some. }
    cbn [concat]. split; [|by apply Forall_app].
    split.
    + intros Hne. destruct h as [|d h'].
      * cbn in Hne. apply Hiff in Hne as (j & c & Hj & Hlt). by exists (S j), c.
      * exists 0%nat, c2. split; [done|]. by apply Hh.
    + intros (j & c & Hj & Hlt). destruct j as [|j].
      * injection Hj as <-. apply Hh in Hlt. by destruct h.
      * assert (concat here <> []) as Hne by (apply Hiff; by exists j, c).
        intros Happ. apply app_eq_nil in Happ as [_ ?]. done.
Qed.

Lemma compare_all_positive (threshold : Q) (chains : list (string * Q)) :
  Forall (fun cp => (0 < cp.2)%Q) chains ->
  exists divergences,
    CrossChain.compare_all threshold chains = Some divergences
    /\ (divergences <> [] <-> diverging threshold chains)
    /\ Forall (fun d => (threshold < CrossChain.difference d)%Q) divergences.
Proof.
  intros Hall. induction Hall as [|c1 rest H1 Hall IH].
  - exists []. split; [done|]. split; [|constructor].
    split; [done|]. intros (i & j & c1 & c2 & _ & Hi & _). by rewrite lookup_nil in Hi.
  - destruct IH as (later & Hl & Hiff & Hd).
    destruct (compare_row_positive threshold c1 rest H1 Hall) as (here & Hm & Hh & Hhd).
    exists (concat here ++ later). split.
    { cbn [CrossChain.compare_all]. rewrite Hm, Hl. done. }
    split; [|by apply Forall_app].
    split.
    + intros Hne. destruct (concat here) as [|d ds] eqn:Ec.
      * cbn in Hne. apply Hiff in Hne as (i & j & a & b & Hij & Hi & Hj & Hlt).
        exists (S i), (S j), a, b. repeat split; try done. lia.
      * destruct Hh as [Hh _]. destruct (Hh ltac:(done)) as (j & c2 & Hj & Hlt).
        exists 0%nat, (S j), c1, c2. repeat split; try done. lia.
    + intros (i & j & a & b & Hij & Hi & Hj & Hlt). destruct j as [|j]; [lia|].
      destruct i as [|i].
      * injection Hi as <-. cbn in Hj.
        assert (concat here <> []) as Hne by (apply Hh; by exists j, b).
        intros Happ. apply app_eq_nil in Happ as [? _]. done.
      * cbn in Hi, Hj.
        assert (later <> []) as Hne.
        { apply Hiff. exists i, j, a, b. repeat split; try done. lia. }
        intros Happ. apply app_eq_nil in Happ as [_ ?]. done.
Qed.

(** X18.  With positive average prices the divergence check of two or
    more priced chains returns a full report, whose list of divergences
    is not empty, and which says [divergence_detected], exactly when
    two of the chains differ in average price by more than the
    threshold; every entry of the list has a difference above the
    threshold, and the count is the length of the list.  With fewer
    than two priced chains the report is the bare
    [{"divergence_detected": False}]. *)
Theorem divergence_detected_iff (events_by_chain : gmap string (list RiskEvent))
    (threshold : Q) :
  let prices := CrossChain.chain_prices_of events_by_chain in
  Forall (fun cp => (0 < cp.2)%Q) prices ->
  ((length prices < 2)%nat ->
   CrossChain.detect_cross_chain_divergence events_by_chain threshold
   = Some CrossChain.NoComparison)
  /\ ((2 <= length prices)%nat ->
      exists detected divergences,
        CrossChain.detect_cross_chain_divergence events_by_chain threshold
        = Some (CrossChain.Report detected (Z.of_nat (length divergences))
                  divergences prices)
        /\ (detected = true <-> diverging threshold prices)
        /\ (detected = true <-> divergences <> [])
        /\ Forall (fun d => (threshold < CrossChain.difference d)%Q) divergences).
Proof.
  intros prices Hpos. unfold CrossChain.detect_cross_chain_divergence. fold prices.
  split.
  - intros Hlen. by rewrite (proj2 (Nat.ltb_lt _ _)) by done.
  - intros Hlen. rewrite (proj2 (Nat.ltb_ge _ _)) by done.
    destruct (compare_all_positive threshold prices Hpos) as (divs & Hc & Hiff & Hd).
    rewrite Hc. cbn. exists (0 <? length divs)%nat, divs.
    split; [done|].
    assert ((0 <? length divs)%nat = true <-> divs <> []) as Hne.
    { destruct divs; cbn; split; done. }
    split; [by rewrite Hne|]. split; done.
Qed.

Lemma divergence_detected_iff_witness :
  exists detected divergences,
    CrossChain.detect_cross_chain_divergence Sample.three_chains (1 # 100)
    = Some (CrossChain.Report detected (Z.of_nat (length divergences)) divergences
              (CrossChain.chain_prices_of Sample.three_chains))
    /\ (detected = true
        <-> diverging (1 # 100) (CrossChain.chain_prices_of Sample.three_chains))
    /\ (detected = true <-> divergences <> [])
    /\ Forall (fun d => (1 # 100 < CrossChain.difference d)%Q) divergences.
Proof.
  apply (divergence_detected_iff Sample.three_chains (1 # 100)).
  - vm_compute. repeat constructor.
  - vm_compute. lia.
Defined.

(** ** The weakest chain in a cross-chain snapshot *)

Lemma tier_value_eq (a b : RiskEvent) :
  (get_confidence_tier_value a == get_confidence_tier_value b)%Q ->
  get_confidence_tier_value a = get_confidence_tier_value b.
Proof.
  unfold get_confidence_tier_value. intros Heq. repeat case_decide; try done; lra.
Qed.

Lemma chain_finalities_fold_attained (events : list RiskEvent) (m : gmap string Q)
    (P : Q -> Prop) :
  map_Forall (fun _ v => P v) m ->
  Forall (fun e => P (get_confidence_tier_value e)) events ->
  map_Forall (fun _ v => P v) (fold_left TCS.chain_finalities_step events m).
Proof.
  revert m. induction events as [|e es IH]; intros m Hm Hall; [done|].
  apply Forall_cons in Hall as [He Hall]. simpl. apply IH; [|done].
  unfold TCS.chain_finalities_step. destruct (m !! chain e) as [cur|] eqn:E.
  - apply map_Forall_insert_2; [|done]. specialize (Hm _ _ E). simpl in Hm.
    destruct (py_min2_cases cur (get_confidence_tier_value e)) as [[-> _]|[-> _]]; done.
  - by apply map_Forall_insert_2.
Qed.

Lemma tcs_chain_confidence_attained (events : list RiskEvent) :
  events <> [] ->
  exists e, e ∈ events
            /\ TCS._calculate_chain_confidence events = get_confidence_tier_value e.
Proof.
  intros Hne. unfold TCS._calculate_chain_confidence.
  destruct events as [|x xs]; [done|].
  pose proof (chain_finalities_fold_attained (x :: xs) ∅
                (fun v => exists e, e ∈ x :: xs /\ v = get_confidence_tier_value e)
                (map_Forall_empty _)) as H.
  assert (Forall (fun e => exists e', e' ∈ x :: xs
                    /\ get_confidence_tier_value e = get_confidence_tier_value e')
                 (x :: xs)) as Hall.
  { apply Forall_forall. intros e He. by exists e. }
  specialize (H Hall).
  destruct (chain_finalities_fold_covers (x :: xs) ∅ x (list_elem_of_here _ _))
    as (v0 & Hv0 & _).
  destruct ((map_to_list _).*2) as [|v vs] eqn:E.
  - apply elem_of_map_to_list, (list_elem_of_fmap_2 snd) in Hv0.
    rewrite E in Hv0. by apply elem_of_nil in Hv0.
  - pose proof (py_min_elem v vs) as Hin. rewrite <- E in Hin.
    apply list_elem_of_fmap in Hin as ([k w] & -> & Hin).
    apply elem_of_map_to_list in Hin. exact (H _ _ Hin).
Qed.

Lemma aggregator_chain_confidence_attained
    (events_by_chain : gmap string (list RiskEvent)) :
  concat ((Aggregator.items events_by_chain).*2) <> [] ->
  exists e, e ∈ concat ((Aggregator.items events_by_chain).*2)
            /\ Aggregator._calculate_chain_confidence events_by_chain
               = get_confidence_tier_value e.
Proof.
  intros Hne. unfold Aggregator._calculate_chain_confidence.
  set (f := fun kv : string * list RiskEvent =>
              match get_confidence_tier_value <$> kv.2 with
              | [] => None
              | c :: cs => Some (py_min c cs)
              end).
  assert (forall q, q ∈ omap f (Aggregator.items events_by_chain) ->
            exists e, e ∈ concat ((Aggregator.items events_by_chain).*2)
                      /\ q = get_confidence_tier_value e) as Hq.
  { intros q Hin. apply list_elem_of_omap in Hin as ([c events] & Hin & Hp).
    unfold f in Hp. cbn [snd] in Hp.
    destruct (get_confidence_tier_value <$> events) as [|v vs] eqn:Ev; [done|].
    injection Hp as <-. pose proof (py_min_elem v vs) as Hm. rewrite <- Ev in Hm.
    apply list_elem_of_fmap in Hm as (e & -> & He). exists e. split; [|done].
    apply list_elem_of_In, in_concat. exists events.
    split; apply list_elem_of_In; [|done].
    by apply (list_elem_of_fmap_2 snd) in Hin. }
  destruct (omap f (Aggregator.items events_by_chain)) as [|q qs] eqn:Eo.
  - exfalso. apply Hne. clear Hne Hq.
    induction (Aggregator.items events_by_chain) as [|[c events] l IH]; [done|].
    cbn [omap list_omap] in Eo. unfold f at 1 in Eo. cbn [snd] in Eo.
    destruct events as [|e es]; [|done].
    cbn. apply IH. exact Eo.
  - apply Hq. apply py_min_elem.
Qed.

(** X19.  The cross-chain confidence of the aggregator and the chain
    confidence inside the TCS of the same events are the same number,
    however the events are grouped: both are the least tier confidence
    of any event.  So in a cross-chain snapshot the weakest chain enters
    the adjusted TCS twice, once inside the clamped TCS and once as the
    factor the aggregator multiplies it by. *)
Theorem cross_chain_confidence_counted_twice
    (events_by_chain : gmap string (list RiskEvent)) (window_id coin : string)
    (now : datetime) (snapshot : Snapshot.AggregatedRiskSnapshot) :
  Aggregator.aggregate_cross_chain events_by_chain window_id coin now = Some snapshot ->
  let all_events := concat ((Aggregator.items events_by_chain).*2) in
  let tcs := TCS.calculate_tcs TCS.tcs_calculator all_events None now in
  Aggregator._calculate_chain_confidence events_by_chain = cb_chain_confidence tcs
  /\ Snapshot.temporal_confidence snapshot
     = (cb_temporal_confidence tcs * cb_chain_confidence tcs)%Q.
Proof.
  intros Hs all_events tcs.
  assert (all_events <> []) as Hne.
  { intros Hnil. unfold Aggregator.aggregate_cross_chain in Hs.
    change (concat ((Aggregator.items events_by_chain).*2)) with all_events in Hs.
    rewrite Hnil in Hs. by destruct (Aggregator.items events_by_chain). }
  assert (Aggregator._calculate_chain_confidence events_by_chain
          = TCS._calculate_chain_confidence all_events) as Hsame.
  { destruct (aggregator_chain_confidence_attained events_by_chain Hne)
      as (a & Ha & Hav).
    destruct (tcs_chain_confidence_attained all_events Hne) as (b & Hb & Hbv).
    pose proof (aggregator_chain_confidence_le events_by_chain b Hb) as H1.
    pose proof (tcs_chain_confidence_le all_events a Ha) as H2.
    rewrite Hav, Hbv in *. apply tier_value_eq. lra. }
  assert (cb_chain_confidence tcs = TCS._calculate_chain_confidence all_events) as Hcc.
  { subst tcs. by destruct all_events. }
  split; [by rewrite Hcc|].
  rewrite Hcc, <- Hsame. clear Hsame Hcc.
  unfold Aggregator.aggregate_cross_chain in Hs.
  change (concat ((Aggregator.items events_by_chain).*2)) with all_events in Hs.
  fold tcs in Hs.
  destruct (Aggregator.items events_by_chain) as [|kv kvs]; [done|].
  destruct all_events as [|e0 es0]; [done|].
  match type of Hs with
  | (let '(_, _) := ?d in _) = _ => destruct d
  end.
  injection Hs as <-. reflexivity.
Qed.

Lemma cross_chain_confidence_counted_twice_witness :
  exists snapshot,
    Aggregator.aggregate_cross_chain Sample.three_chains "w" "USDC" 0 = Some snapshot
    /\ Snapshot.temporal_confidence snapshot
       = (cb_temporal_confidence
            (TCS.calculate_tcs TCS.tcs_calculator
               (concat ((Aggregator.items Sample.three_chains).*2)) None 0)
          * cb_chain_confidence
              (TCS.calculate_tcs TCS.tcs_calculator
                 (concat ((Aggregator.items Sample.three_chains).*2)) None 0))%Q.
Proof.
  destruct (Aggregator.aggregate_cross_chain Sample.three_chains "w" "USDC" 0)
    as [snapshot|] eqn:E; [|vm_compute in E; discriminate].
  exists snapshot. split; [reflexivity|].
  exact (proj2 (cross_chain_confidence_counted_twice Sample.three_chains "w" "USDC" 0
                  snapshot E)).
Defined.

(** ** Markets whose sources agree *)

Lemma fold_Qplus_acc (xs : list Q) (a : Q) :
  (fold_left Qplus xs a == a + py_sum xs)%Q.
Proof.
  unfold py_sum. revert a. induction xs as [|x xs IH]; intros a; simpl.
  - lra.
  - rewrite (IH (a + x)%Q), (IH (0 + x)%Q). lra.
Qed.

Lemma py_sum_cons (x : Q) (xs : list Q) : (py_sum (x :: xs) == x + py_sum xs)%Q.
Proof. unfold py_sum at 1. simpl. rewrite fold_Qplus_acc. lra. Qed.

Lemma py_sum_constant (x0 : Q) (xs : list Q) :
  Forall (fun x => (x == x0)%Q) xs ->
  (py_sum xs == inject_Z (Z.of_nat (length xs)) * x0)%Q.
Proof.
  induction 1 as [|x xs Hx _ IH].
  - change (0 == 0 * x0)%Q. lra.
  - rewrite py_sum_cons, IH, Hx. cbn [length].
    rewrite Nat2Z.inj_succ. unfold Z.succ. rewrite inject_Z_plus.
    change (inject_Z 1) with 1%Q. lra.
Qed.

Lemma py_sum_zero (ys : list Q) :
  Forall (fun y => (y == 0)%Q) ys -> (py_sum ys == 0)%Q.
Proof.
  intros H. rewrite (py_sum_constant 0 ys H). lra.
Qed.

(** The standard deviation of values that are all the same is 0, which
    the guard [stdev > 0] of the outlier stage lets pass no further. *)
Lemma stdev_of_constant (x0 : Q) (xs : list Q) :
  Forall (fun x => (x == x0)%Q) xs -> Quality.stdev_positive xs = false.
Proof.
  intros Hall. unfold Quality.stdev_positive. apply Qltb_ge.
  unfold Quality.variance. cbv zeta.
  destruct xs as [|x xs']; [vm_compute; discriminate|].
  set (xs := x :: xs') in *.
  assert (Quality.mean xs == x0)%Q as Hmean.
  { unfold Quality.mean. rewrite (py_sum_constant x0 xs Hall).
    assert (0 < inject_Z (Z.of_nat (length xs)))%Q as Hn.
    { change 0%Q with (inject_Z 0). rewrite <- Zlt_Qlt. cbn [length xs]. lia. }
    field. lra. }
  rewrite py_sum_zero; [unfold Qdiv; lra|].
  apply Forall_fmap. eapply Forall_impl; [exact Hall|].
  intros y Hy. cbn. rewrite Hy, Hmean. lra.
Qed.

Section AgreeingMarkets.
Variable self : Quality.DataQualityPipeline.
Variable events : list RiskEvent.

Lemma metric_pass_agreeing (metric : RiskEvent -> option Q) (key : string * string)
    (idxs : list nat) :
  agree metric events -> in_market events key idxs ->
  Quality.metric_pass self metric events idxs = events.
Proof.
  intros Hagree Hin. unfold Quality.metric_pass. cbv zeta.
  destruct (3 <=? length _)%nat; [|done].
  destruct (Quality.values_at metric events idxs) as [|x0 rest] eqn:Evalues;
    [by rewrite (stdev_of_constant 0 [])|].
  rewrite (stdev_of_constant x0); [done|].
  assert (forall x, x ∈ Quality.values_at metric events idxs ->
                    exists e, e ∈ events /\ (coin e, chain e) = key
                              /\ metric e = Some x) as Hvalue.
  { intros x Hx. unfold Quality.values_at in Hx.
    apply list_elem_of_omap in Hx as (i & Hi & Hix).
    destruct (Hin i Hi) as (e & He & Hkey). rewrite He in Hix.
    exists e. split; [by eapply list_elem_of_lookup_2|done]. }
  rewrite Evalues in Hvalue.
  destruct (Hvalue x0 (list_elem_of_here _ _)) as (e0 & He0 & Hk0 & Hm0).
  apply Forall_forall. intros x Hx.
  destruct (Hvalue x Hx) as (e & He & Hk & Hm).
  apply (Hagree e e0 x x0); try done; congruence.
Qed.

Lemma detect_in_market_agreeing (key : string * string) (idxs : list nat) :
  agree price events -> agree liquidity_depth events -> in_market events key idxs ->
  Quality._detect_outliers_in_market self events idxs = events.
Proof.
  intros Hp Hl Hin. unfold Quality._detect_outliers_in_market.
  destruct (length idxs <? 3)%nat; [done|]. cbv zeta.
  rewrite (metric_pass_agreeing price key) by done.
  by rewrite (metric_pass_agreeing liquidity_depth key).
Qed.

(** The markets that [_detect_outliers] forms hold positions of the
    batch, each under the coin and chain of its event. *)
Lemma markets_fold_in_market (l : list (nat * RiskEvent))
    (markets : gmap (string * string) (list nat)) :
  (forall ie, ie ∈ l -> events !! ie.1 = Some ie.2) ->
  (forall key idxs, markets !! key = Some idxs -> in_market events key idxs) ->
  forall key idxs,
    fold_left Quality.markets_step l markets !! key = Some idxs -> in_market events key idxs.
Proof.
  revert markets. induction l as [|[i e] l IH]; intros markets Hl Hm; [done|].
  cbn [fold_left]. apply IH.
  - intros ie Hie. apply Hl. by apply list_elem_of_further.
  - intros key idxs. unfold Quality.markets_step. cbn [fst snd].
    destruct (decide ((coin e, chain e) = key)) as [<-|Hne].
    + rewrite lookup_insert_eq. intros [= <-] j [Hj|Hj]%elem_of_app.
      * destruct (markets !! (coin e, chain e)) as [old|] eqn:Eold;
          [by apply (Hm _ old)|by apply elem_of_nil in Hj].
      * apply list_elem_of_singleton in Hj as ->. exists e. split; [|done].
        apply (Hl (i, e)), list_elem_of_here.
    + rewrite lookup_insert_ne by done. apply Hm.
Qed.

Lemma detect_outliers_agreeing :
  agree price events -> agree liquidity_depth events ->
  Quality._detect_outliers self events = events.
Proof.
  intros Hp Hl. unfold Quality._detect_outliers.
  destruct (length events <? 3)%nat; [done|].
  set (markets := fold_left Quality.markets_step (imap pair events) ∅).
  assert (forall kv, kv ∈ map_to_list markets -> in_market events kv.1 kv.2) as Hgroups.
  { intros [key idxs] Hin. apply elem_of_map_to_list in Hin. cbn [fst snd].
    apply (markets_fold_in_market (imap pair events) ∅); [| |exact Hin].
    - intros [i e] Hie. apply elem_of_lookup_imap in Hie as (j & y & [= -> ->] & Hy).
      exact Hy.
    - intros key' idxs' Hempty. by rewrite lookup_empty in Hempty. }
  induction (map_to_list markets) as [|kv kvs IH]; [done|].
  cbn [fold_left]. rewrite (detect_in_market_agreeing kv.1); [|done|done|].
  - apply IH. intros kv' Hkv'. apply Hgroups. by apply list_elem_of_further.
  - apply Hgroups, list_elem_of_here.
Qed.

End AgreeingMarkets.

(** X20.  A batch in which the sources of every market (coin and
    chain) agree, all the prices of a market being the same and all its
    liquidity depths being the same, comes back from the outlier stage
    as it is, whatever the threshold and however many events it holds:
    the standard deviation of such values is 0, and the guard
    [stdev > 0] keeps the stage from dividing by it. *)
Theorem agreeing_markets_are_never_flagged (self : Quality.DataQualityPipeline)
    (events : list RiskEvent) :
  agree price events -> agree liquidity_depth events ->
  Quality._detect_outliers self events = events.
Proof.
  intros Hprice Hliquidity.
  destruct (decide (length events < 3)%nat) as [Hshort|Hlong].
  - unfold Quality._detect_outliers.
    by rewrite (proj2 (Nat.ltb_lt _ _) Hshort).
  - by apply detect_outliers_agreeing.
Qed.

Lemma agreeing_markets_are_never_flagged_witness :
  let quote := fun id => Sample.price_event id 0 "tier1" (105 # 100)%Q in
  let events := [quote "A"; quote "B"; quote "C"; quote "D"] in
  Quality._detect_outliers Quality.quality_pipeline events = events.
Proof.
  intros quote events.
  apply (agreeing_markets_are_never_flagged Quality.quality_pipeline events).
  - intros e1 e2 x1 x2 H1 H2 _ _ Hx1 Hx2.
    assert (forall e, e ∈ events -> price e = Some (105 # 100)%Q) as Hall.
    { intros e He. repeat (apply elem_of_cons in He as [->|He]; [reflexivity|]).
      by apply elem_of_nil in He. }
    rewrite (Hall e1 H1) in Hx1. rewrite (Hall e2 H2) in Hx2.
    injection Hx1 as <-. injection Hx2 as <-. reflexivity.
  - intros e1 e2 x1 x2 H1 H2 _ _ Hx1 Hx2.
    assert (forall e, e ∈ events -> liquidity_depth e = None) as Hall.
    { intros e He. repeat (apply elem_of_cons in He as [->|He]; [reflexivity|]).
      by apply elem_of_nil in He. }
    rewrite (Hall e1 H1) in Hx1. discriminate Hx1.
Defined.

(** *** The backpressure handler *)

Lemma frame_refl (source_id : string) (self : Backpressure.BackpressureHandler) :
  frame source_id self self.
Proof. unfold frame. by split_and!. Qed.

Lemma frame_trans (source_id : string) (a b c : Backpressure.BackpressureHandler) :
  frame source_id a b -> frame source_id b c -> frame source_id a c.
Proof.
  intros (Hm & Hb & Ht & Ho) (Hm' & Hb' & Ht' & Ho').
  unfold frame. split_and!; try congruence.
  intros other Hother. destruct (Ho' other Hother) as [-> ->]. by apply Ho.
Qed.

Lemma frame_counts (source_id : string) (self : Backpressure.BackpressureHandler)
    (n : Z) :
  frame source_id self
    (Backpressure.with_state (<[source_id := n]> (Backpressure.failure_counts self))
       (Backpressure.circuit_open self) self).
Proof.
  unfold frame. split_and!; try done.
  intros other Hother. cbn. by rewrite lookup_insert_ne.
Qed.

Lemma frame_open_circuit (source_id : string)
    (self : Backpressure.BackpressureHandler) (now : datetime) :
  frame source_id self (Backpressure._open_circuit self now source_id).
Proof.
  unfold frame. split_and!; try done.
  intros other Hother. cbn. by rewrite lookup_insert_ne.
Qed.

Lemma frame_is_circuit_open (source_id : string)
    (self : Backpressure.BackpressureHandler) (now : datetime) :
  frame source_id self (Backpressure._is_circuit_open self now source_id).1.
Proof.
  unfold Backpressure._is_circuit_open.
  destruct (Backpressure.circuit_open self !! source_id); [|apply frame_refl].
  cbv zeta. case_match; [|apply frame_refl].
  unfold frame. split_and!; try done.
  intros other Hother. cbn. by rewrite lookup_insert_ne, lookup_delete_ne.
Qed.

Lemma failures_counted (source_id : string) (self : Backpressure.BackpressureHandler)
    (n : Z) (circuits : gmap string datetime) :
  Backpressure.failures
    (Backpressure.with_state (<[source_id := n]> (Backpressure.failure_counts self))
       circuits self) source_id = n.
Proof. unfold Backpressure.failures. cbn. by rewrite lookup_insert_eq. Qed.

Lemma seqZ_cons_shift (f : Z -> Z) (a n : Z) :
  0 <= n -> f a :: (f <$> seqZ (a + 1) n) = f <$> seqZ a (n + 1).
Proof.
  intros Hn. rewrite (seqZ_cons a (n + 1)) by lia. rewrite fmap_cons.
  do 3 f_equal; lia.
Qed.

Lemma attempts_S {A : Type} (coro_func : Z -> option A) (clock : Z -> datetime)
    (source_id : string) (n : nat) (attempt : Z)
    (self : Backpressure.BackpressureHandler) :
  Backpressure.attempts coro_func clock source_id (S n) attempt self
  = match coro_func attempt with
    | Some result =>
        Backpressure.mkRun
          (Backpressure.with_state (<[source_id := 0]> (Backpressure.failure_counts self))
             (Backpressure.circuit_open self) self)
          (Backpressure.Returned result) 1 []
    | None =>
        let self :=
          Backpressure.with_state
            (<[source_id := Backpressure.failures self source_id + 1]>
               (Backpressure.failure_counts self))
            (Backpressure.circuit_open self) self in
        if Backpressure.circuit_breaker_threshold self
           <=? Backpressure.failures self source_id then
          Backpressure.mkRun
            (Backpressure._open_circuit self (clock attempt) source_id)
            Backpressure.CircuitBreakerOpen 1 []
        else if decide (attempt = Backpressure.max_retries self - 1) then
          Backpressure.mkRun self Backpressure.ReturnedNone 1 []
        else
          let r := Backpressure.attempts coro_func clock source_id n (attempt + 1) self in
          Backpressure.mkRun (Backpressure.handler r) (Backpressure.outcome r)
            (S (Backpressure.calls r))
            (Backpressure.backoff_base self ^ attempt :: Backpressure.slept r)
    end.
Proof. reflexivity. Qed.

Section Attempts.
Context {A : Type}.
Variable coro_func : Z -> option A.
Variable clock : Z -> datetime.
Variable source_id : string.

(** The first success after [j] failed attempts. *)
Lemma attempts_success (n j : nat) (attempt : Z)
    (self : Backpressure.BackpressureHandler) (result : A) :
  attempt + Z.of_nat n = Backpressure.max_retries self ->
  (j < n)%nat ->
  (forall k, attempt <= k < attempt + Z.of_nat j -> coro_func k = None) ->
  coro_func (attempt + Z.of_nat j) = Some result ->
  Backpressure.failures self source_id + Z.of_nat j
  < Backpressure.circuit_breaker_threshold self ->
  let r := Backpressure.attempts coro_func clock source_id n attempt self in
  Backpressure.outcome r = Backpressure.Returned result
  /\ Backpressure.calls r = S j
  /\ Backpressure.slept r
     = (fun k => Backpressure.backoff_base self ^ k) <$> seqZ attempt (Z.of_nat j)
  /\ Backpressure.failures (Backpressure.handler r) source_id = 0
  /\ Backpressure.circuit_open (Backpressure.handler r) = Backpressure.circuit_open self
  /\ frame source_id self (Backpressure.handler r).
Proof.
  revert j attempt self.
  induction n as [|n IH]; intros j attempt self Hmax Hj Hfail Hok Hroom; [lia|].
  cbn [Backpressure.attempts].
  destruct j as [|j].
  - rewrite Z.add_0_r in Hok. rewrite Hok. cbn.
    split_and!; try done.
    + unfold Backpressure.failures. cbn. by rewrite lookup_insert_eq.
    + apply frame_counts.
  - rewrite (Hfail attempt) by lia. cbv zeta.
    set (self1 := Backpressure.with_state _ _ self).
    assert (Backpressure.failures self1 source_id
            = Backpressure.failures self source_id + 1) as Hf1
      by apply failures_counted.
    rewrite Hf1.
    change (Backpressure.circuit_breaker_threshold self1)
      with (Backpressure.circuit_breaker_threshold self).
    change (Backpressure.max_retries self1) with (Backpressure.max_retries self).
    change (Backpressure.backoff_base self1) with (Backpressure.backoff_base self).
    rewrite (proj2 (Z.leb_gt _ _)) by lia.
    destruct (decide (attempt = Backpressure.max_retries self - 1)) as [?|_]; [lia|].
    destruct (IH j (attempt + 1) self1) as (Ho & Hc & Hs & Hz & Hci & Hfr).
    + change (Backpressure.max_retries self1) with (Backpressure.max_retries self). lia.
    + lia.
    + intros k Hk. apply Hfail. lia.
    + rewrite <- Hok. f_equal. lia.
    + rewrite Hf1.
      change (Backpressure.circuit_breaker_threshold self1)
        with (Backpressure.circuit_breaker_threshold self). lia.
    + cbn [Backpressure.outcome Backpressure.calls Backpressure.slept
           Backpressure.handler].
      split_and!.
      * done.
      * by rewrite Hc.
      * rewrite Hs.
        rewrite (seqZ_cons_shift (fun k => Backpressure.backoff_base self ^ k))
          by lia.
        do 2 f_equal. lia.
      * done.
      * by rewrite Hci.
      * apply (frame_trans source_id self self1); [apply frame_counts|done].
Qed.

End Attempts.

Section Failing.
Context {A : Type}.
Variable coro_func : Z -> option A.
Variable clock : Z -> datetime.
Variable source_id : string.

(** Every attempt fails and the threshold is not reached. *)
Lemma attempts_exhausted (m : nat) (attempt : Z)
    (self : Backpressure.BackpressureHandler) :
  attempt + Z.of_nat (S m) = Backpressure.max_retries self ->
  (forall k, attempt <= k < Backpressure.max_retries self -> coro_func k = None) ->
  Backpressure.failures self source_id + Z.of_nat (S m)
  < Backpressure.circuit_breaker_threshold self ->
  let r := Backpressure.attempts coro_func clock source_id (S m) attempt self in
  Backpressure.outcome r = Backpressure.ReturnedNone
  /\ Backpressure.calls r = S m
  /\ Backpressure.slept r
     = (fun k => Backpressure.backoff_base self ^ k) <$> seqZ attempt (Z.of_nat m)
  /\ Backpressure.failures (Backpressure.handler r) source_id
     = Backpressure.failures self source_id + Z.of_nat (S m)
  /\ Backpressure.circuit_open (Backpressure.handler r) = Backpressure.circuit_open self
  /\ frame source_id self (Backpressure.handler r).
Proof.
  revert attempt self.
  induction m as [|m IH]; intros attempt self Hmax Hfail Hroom;
    rewrite attempts_S; rewrite (Hfail attempt) by lia; cbv zeta;
    set (self1 := Backpressure.with_state _ _ self);
    assert (Backpressure.failures self1 source_id
            = Backpressure.failures self source_id + 1) as Hf1
      by apply failures_counted;
    rewrite Hf1;
    change (Backpressure.circuit_breaker_threshold self1)
      with (Backpressure.circuit_breaker_threshold self);
    change (Backpressure.max_retries self1) with (Backpressure.max_retries self);
    change (Backpressure.backoff_base self1) with (Backpressure.backoff_base self);
    rewrite (proj2 (Z.leb_gt _ _)) by lia;
    destruct (decide (attempt = Backpressure.max_retries self - 1)) as [Hlast|Hmore];
    try lia.
  - cbn [Backpressure.outcome Backpressure.calls Backpressure.slept
         Backpressure.handler].
    split_and!; try done. apply frame_counts.
  - destruct (IH (attempt + 1) self1) as (Ho & Hc & Hs & Hn & Hci & Hfr).
    + change (Backpressure.max_retries self1) with (Backpressure.max_retries self). lia.
    + intros k Hk. apply Hfail.
      change (Backpressure.max_retries self1) with (Backpressure.max_retries self) in Hk.
      lia.
    + rewrite Hf1.
      change (Backpressure.circuit_breaker_threshold self1)
        with (Backpressure.circuit_breaker_threshold self). lia.
    + cbn [Backpressure.outcome Backpressure.calls Backpressure.slept
           Backpressure.handler].
      split_and!.
      * done.
      * by rewrite Hc.
      * rewrite Hs.
        rewrite (seqZ_cons_shift (fun k => Backpressure.backoff_base self ^ k))
          by lia.
        do 2 f_equal. lia.
      * rewrite Hn, Hf1. lia.
      * by rewrite Hci.
      * apply (frame_trans source_id self self1); [apply frame_counts|done].
Qed.

(** Every attempt fails and the threshold is reached. *)
Lemma attempts_trip (m : nat) (attempt : Z)
    (self : Backpressure.BackpressureHandler) :
  attempt + Z.of_nat (S m) = Backpressure.max_retries self ->
  (forall k, attempt <= k < Backpressure.max_retries self -> coro_func k = None) ->
  Backpressure.circuit_breaker_threshold self
  <= Backpressure.failures self source_id + Z.of_nat (S m) ->
  let r := Backpressure.attempts coro_func clock source_id (S m) attempt self in
  let j := Z.max 1 (Backpressure.circuit_breaker_threshold self
                    - Backpressure.failures self source_id) in
  Backpressure.outcome r = Backpressure.CircuitBreakerOpen
  /\ Backpressure.calls r = Z.to_nat j
  /\ Backpressure.slept r
     = (fun k => Backpressure.backoff_base self ^ k) <$> seqZ attempt (j - 1)
  /\ Backpressure.failures (Backpressure.handler r) source_id
     = Backpressure.failures self source_id + j
  /\ Backpressure.circuit_open (Backpressure.handler r)
     = <[source_id := clock (attempt + j - 1)]> (Backpressure.circuit_open self)
  /\ frame source_id self (Backpressure.handler r).
Proof.
  revert attempt self.
  induction m as [|m IH]; intros attempt self Hmax Hfail Hroom;
    rewrite attempts_S; rewrite (Hfail attempt) by lia; cbv zeta;
    set (self1 := Backpressure.with_state _ _ self);
    assert (Backpressure.failures self1 source_id
            = Backpressure.failures self source_id + 1) as Hf1
      by apply failures_counted;
    rewrite Hf1;
    change (Backpressure.circuit_breaker_threshold self1)
      with (Backpressure.circuit_breaker_threshold self);
    change (Backpressure.max_retries self1) with (Backpressure.max_retries self);
    change (Backpressure.backoff_base self1) with (Backpressure.backoff_base self);
    destruct (Z.leb_spec (Backpressure.circuit_breaker_threshold self)
                (Backpressure.failures self source_id + 1)) as [Hopen|Hbelow];
    try lia.
  1,2: cbn [Backpressure.outcome Backpressure.calls Backpressure.slept
            Backpressure.handler];
    rewrite Z.max_l by lia;
    (split_and!;
     [ done | done | done
     | unfold Backpressure.failures; cbn; by rewrite lookup_insert_eq
     | cbn; do 2 f_equal; lia
     | apply (frame_trans source_id self self1);
       [apply frame_counts|apply frame_open_circuit] ]).
  destruct (decide (attempt = Backpressure.max_retries self - 1)) as [Hlast|Hmore];
    [lia|].
  destruct (IH (attempt + 1) self1) as (Ho & Hc & Hs & Hn & Hci & Hfr).
  - change (Backpressure.max_retries self1) with (Backpressure.max_retries self). lia.
  - intros k Hk. apply Hfail.
    change (Backpressure.max_retries self1) with (Backpressure.max_retries self) in Hk.
    lia.
  - rewrite Hf1.
    change (Backpressure.circuit_breaker_threshold self1)
      with (Backpressure.circuit_breaker_threshold self). lia.
  - rewrite Hf1 in Hs, Hn, Hci, Hc.
    change (Backpressure.circuit_breaker_threshold self1)
      with (Backpressure.circuit_breaker_threshold self) in Hs, Hn, Hci, Hc.
    change (Backpressure.backoff_base self1)
      with (Backpressure.backoff_base self) in Hs.
    rewrite Z.max_r in Hs, Hn, Hci, Hc by lia.
    rewrite Z.max_r by lia.
    cbn [Backpressure.outcome Backpressure.calls Backpressure.slept
         Backpressure.handler].
    split_and!.
    + done.
    + rewrite Hc. lia.
    + rewrite Hs.
      rewrite (seqZ_cons_shift (fun k => Backpressure.backoff_base self ^ k))
        by lia.
      do 2 f_equal. lia.
    + rewrite Hn. lia.
    + rewrite Hci. cbn. do 2 f_equal. lia.
    + apply (frame_trans source_id self self1); [apply frame_counts|done].
Qed.

(** A run that ends with the exception leaves the circuit open. *)
Lemma attempts_open (n : nat) (attempt : Z) (self : Backpressure.BackpressureHandler) :
  let r := Backpressure.attempts coro_func clock source_id n attempt self in
  Backpressure.outcome r = Backpressure.CircuitBreakerOpen ->
  is_Some (Backpressure.circuit_open (Backpressure.handler r) !! source_id).
Proof.
  revert attempt self. induction n as [|n IH]; intros attempt self; [done|].
  rewrite attempts_S. destruct (coro_func attempt); [done|]. cbv zeta.
  case_match.
  - intros _. cbn. rewrite lookup_insert_eq. by eexists.
  - case_match; [done|]. cbn [Backpressure.outcome Backpressure.handler]. apply IH.
Qed.

(** The count of a source below the threshold stays below it, or
    reaches it with the circuit opened. *)
Lemma attempts_bounded (n : nat) (attempt : Z) (self : Backpressure.BackpressureHandler) :
  0 < Backpressure.circuit_breaker_threshold self ->
  Backpressure.failures self source_id < Backpressure.circuit_breaker_threshold self ->
  let r := Backpressure.attempts coro_func clock source_id n attempt self in
  frame source_id self (Backpressure.handler r)
  /\ Backpressure.failures (Backpressure.handler r) source_id
     <= Backpressure.circuit_breaker_threshold self
  /\ (Backpressure.failures (Backpressure.handler r) source_id
      = Backpressure.circuit_breaker_threshold self ->
      is_Some (Backpressure.circuit_open (Backpressure.handler r) !! source_id)).
Proof.
  revert attempt self. induction n as [|n IH]; intros attempt self Hpos Hlt.
  - cbn. split_and!; [apply frame_refl|lia|lia].
  - rewrite attempts_S. destruct (coro_func attempt).
    + cbn [Backpressure.handler]. rewrite failures_counted.
      split_and!; [apply frame_counts|lia|lia].
    + cbv zeta. set (self1 := Backpressure.with_state _ _ self).
      assert (Backpressure.failures self1 source_id
              = Backpressure.failures self source_id + 1) as Hf1
        by apply failures_counted.
      rewrite Hf1.
      change (Backpressure.circuit_breaker_threshold self1)
        with (Backpressure.circuit_breaker_threshold self).
      destruct (Z.leb_spec (Backpressure.circuit_breaker_threshold self)
                  (Backpressure.failures self source_id + 1)) as [Hopen|Hbelow].
      * cbn [Backpressure.handler]. split_and!.
        -- apply (frame_trans source_id self self1);
             [apply frame_counts|apply frame_open_circuit].
        -- unfold Backpressure.failures. cbn. rewrite lookup_insert_eq. cbn. lia.
        -- intros _. cbn. rewrite lookup_insert_eq. by eexists.
      * case_match.
        -- cbn [Backpressure.handler]. rewrite Hf1.
           split_and!; [apply frame_counts|lia|lia].
        -- cbn [Backpressure.handler].
           destruct (IH (attempt + 1) self1) as (Hfr & Hle & Hsome).
           ++ done.
           ++ rewrite Hf1. done.
           ++ split_and!; [|done|done].
              apply (frame_trans source_id self self1); [apply frame_counts|done].
Qed.

End Failing.

(** A run changes nothing but the record of its source. *)
Lemma attempts_bounded_frame {A : Type} (coro_func : Z -> option A)
    (clock : Z -> datetime) (source_id : string) (n : nat) (attempt : Z)
    (self : Backpressure.BackpressureHandler) :
  frame source_id self
    (Backpressure.handler
       (Backpressure.attempts coro_func clock source_id n attempt self)).
Proof.
  revert attempt self. induction n as [|n IH]; intros attempt self.
  - apply frame_refl.
  - rewrite attempts_S. destruct (coro_func attempt); [apply frame_counts|].
    cbv zeta. set (self1 := Backpressure.with_state _ _ self).
    assert (frame source_id self self1) as Hfr1 by apply frame_counts.
    repeat case_match; cbn [Backpressure.handler].
    + apply (frame_trans source_id self self1); [done|apply frame_open_circuit].
    + done.
    + apply (frame_trans source_id self self1); [done|apply IH].
Qed.

(** X21.  A call that finds the circuit of its source not open, fails
    [j] times and then succeeds, with retries and threshold leaving room
    for that, returns the result of the successful attempt after
    [j + 1] calls of [coro_func], having slept
    [backoff_base ** 0, .., backoff_base ** (j - 1)] seconds between
    them; it resets the failure count of the source to 0 and leaves the
    circuits and everything recorded for other sources as they were. *)
Theorem retry_until_success {A : Type} (coro_func : Z -> option A)
    (clock : Z -> datetime) (source_id : string)
    (self self0 : Backpressure.BackpressureHandler) (now : datetime)
    (j : nat) (result : A) :
  Backpressure._is_circuit_open self now source_id = (self0, false) ->
  Z.of_nat j < Backpressure.max_retries self ->
  (forall k, 0 <= k < Z.of_nat j -> coro_func k = None) ->
  coro_func (Z.of_nat j) = Some result ->
  Backpressure.failures self0 source_id + Z.of_nat j
  < Backpressure.circuit_breaker_threshold self ->
  let r := Backpressure.execute_with_backoff coro_func clock source_id self now in
  Backpressure.outcome r = Backpressure.Returned result
  /\ Backpressure.calls r = S j
  /\ Backpressure.slept r = backoffs self (Z.of_nat j)
  /\ Backpressure.failures (Backpressure.handler r) source_id = 0
  /\ Backpressure.circuit_open (Backpressure.handler r)
     = Backpressure.circuit_open self0
  /\ frame source_id self (Backpressure.handler r).
Proof.
  intros Hclosed Hj Hfail Hok Hroom.
  pose proof (frame_is_circuit_open source_id self now) as Hfr0.
  unfold Backpressure.execute_with_backoff. rewrite Hclosed in *. cbn [fst] in Hfr0.
  destruct Hfr0 as (Hm & Hb & Ht & Ho).
  destruct (attempts_success coro_func clock source_id
              (Z.to_nat (Backpressure.max_retries self0)) j 0 self0 result)
    as (H1 & H2 & H3 & H4 & H5 & H6).
  - lia.
  - lia.
  - intros k Hk. apply Hfail. lia.
  - done.
  - lia.
  - split_and!; try done.
    + rewrite H3. unfold backoffs. by rewrite Hb.
    + apply (frame_trans source_id self self0); [|done].
      unfold frame. by split_and!.
Qed.

Lemma retry_until_success_witness :
  let r := Backpressure.execute_with_backoff
             (fun k => if k <? 2 then None else Some "quote") (fun _ => 0) "coingecko"
             Backpressure.backpressure_handler 0 in
  Backpressure.outcome r = Backpressure.Returned "quote"
  /\ Backpressure.calls r = 3%nat
  /\ Backpressure.slept r = [1; 2].
Proof.
  destruct (retry_until_success (fun k => if k <? 2 then None else Some "quote")
              (fun _ => 0) "coingecko" Backpressure.backpressure_handler
              Backpressure.backpressure_handler 0 2 "quote")
    as (H1 & H2 & H3 & _).
  - reflexivity.
  - reflexivity.
  - intros k Hk. destruct (Z.ltb_spec k 2); [done|]. simpl in Hk. lia.
  - reflexivity.
  - reflexivity.
  - split_and!; [exact H1|exact H2|exact H3].
Defined.

(** X22.  A call that finds the circuit of its source not open and
    whose every attempt fails adds its failures to the count the source
    already has.  While the count stays below the threshold it returns
    [None] after [max_retries] calls; otherwise it stops at the call
    that brings the count to the threshold (the first call if the count
    was there already), opens the circuit at the clock reading of that
    attempt and raises [CircuitBreakerOpen].  It sleeps between the
    calls it makes and never after the last one. *)
Theorem persistent_failure {A : Type} (coro_func : Z -> option A)
    (clock : Z -> datetime) (source_id : string)
    (self self0 : Backpressure.BackpressureHandler) (now : datetime) :
  Backpressure._is_circuit_open self now source_id = (self0, false) ->
  1 <= Backpressure.max_retries self ->
  (forall k, 0 <= k < Backpressure.max_retries self -> coro_func k = None) ->
  let r := Backpressure.execute_with_backoff coro_func clock source_id self now in
  let count := Backpressure.failures self0 source_id in
  let retries := Backpressure.max_retries self in
  let threshold := Backpressure.circuit_breaker_threshold self in
  (count + retries < threshold ->
   Backpressure.outcome r = Backpressure.ReturnedNone
   /\ Backpressure.calls r = Z.to_nat retries
   /\ Backpressure.slept r = backoffs self (retries - 1)
   /\ Backpressure.failures (Backpressure.handler r) source_id = count + retries
   /\ Backpressure.circuit_open (Backpressure.handler r)
      = Backpressure.circuit_open self0)
  /\ (threshold <= count + retries ->
      let j := Z.max 1 (threshold - count) in
      Backpressure.outcome r = Backpressure.CircuitBreakerOpen
      /\ Backpressure.calls r = Z.to_nat j
      /\ Backpressure.slept r = backoffs self (j - 1)
      /\ Backpressure.failures (Backpressure.handler r) source_id = count + j
      /\ Backpressure.circuit_open (Backpressure.handler r)
         = <[source_id := clock (j - 1)]> (Backpressure.circuit_open self0)).
Proof.
  intros Hclosed Hretries Hfail.
  pose proof (frame_is_circuit_open source_id self now) as Hfr0.
  unfold Backpressure.execute_with_backoff. rewrite Hclosed in *. cbn [fst] in Hfr0.
  destruct Hfr0 as (Hm & Hb & Ht & Ho).
  cbv zeta. rewrite <- Hm, <- Ht. unfold backoffs. rewrite <- Hb.
  rewrite <- Hm in Hretries, Hfail.
  assert (exists m, Z.to_nat (Backpressure.max_retries self0) = S m
                    /\ Backpressure.max_retries self0 = Z.of_nat (S m))
    as (m & Hn & Hz).
  { exists (Z.to_nat (Backpressure.max_retries self0 - 1)). split; lia. }
  rewrite Hn. split.
  - intros Hroom.
    destruct (attempts_exhausted coro_func clock source_id m 0 self0)
      as (H1 & H2 & H3 & H4 & H5 & _); [lia|done|lia|].
    split_and!; try done.
    + rewrite H3. do 2 f_equal. lia.
    + rewrite H4. lia.
  - intros Hroom.
    destruct (attempts_trip coro_func clock source_id m 0 self0)
      as (H1 & H2 & H3 & H4 & H5 & _); [lia|done|lia|].
    split_and!; try done.
Qed.

Lemma persistent_failure_witness :
  let failing := fun _ : Z => @None string in
  let r1 := Backpressure.execute_with_backoff failing (fun k => 7 + k) "coingecko"
              Backpressure.backpressure_handler 0 in
  Backpressure.outcome r1 = Backpressure.ReturnedNone
  /\ Backpressure.calls r1 = 3%nat
  /\ Backpressure.slept r1 = [1; 2]
  /\ Backpressure.failures (Backpressure.handler r1) "coingecko" = 3.
Proof.
  intros failing.
  destruct (persistent_failure failing (fun k => 7 + k) "coingecko"
              Backpressure.backpressure_handler Backpressure.backpressure_handler 0)
    as [Hbelow _].
  - reflexivity.
  - vm_compute. discriminate.
  - done.
  - destruct Hbelow as (H1 & H2 & H3 & H4 & _); [reflexivity|].
    split_and!; [exact H1|exact H2|exact H3|exact H4].
Defined.

(** X23.  Once a call has ended with [CircuitBreakerOpen] the handler
    holds an opening time for the source.  Every call for that source
    made no more than five minutes after it is refused without
    [coro_func] being awaited and leaves the handler as it is; the
    first call made later than that (with at least one retry
    configured) awaits [coro_func] again, and if it succeeds at once
    the circuit is closed and the failure count is 0. *)
Theorem open_circuit_refuses_for_five_minutes {A : Type} (coro_func : Z -> option A)
    (clock : Z -> datetime) (source_id : string)
    (self : Backpressure.BackpressureHandler) (now : datetime) :
  let r := Backpressure.execute_with_backoff coro_func clock source_id self now in
  Backpressure.outcome r = Backpressure.CircuitBreakerOpen ->
  exists opened,
    Backpressure.circuit_open (Backpressure.handler r) !! source_id = Some opened
    /\ (forall (coro_func' : Z -> option A) (clock' : Z -> datetime) (now' : datetime),
          now' - opened <= timedelta_minutes 5 ->
          Backpressure.execute_with_backoff coro_func' clock' source_id
            (Backpressure.handler r) now'
          = Backpressure.mkRun (Backpressure.handler r)
              Backpressure.CircuitBreakerOpen 0 [])
    /\ (forall (coro_func' : Z -> option A) (clock' : Z -> datetime) (now' : datetime)
               (result : A),
          timedelta_minutes 5 < now' - opened ->
          1 <= Backpressure.max_retries self ->
          coro_func' 0 = Some result ->
          let r' := Backpressure.execute_with_backoff coro_func' clock' source_id
                      (Backpressure.handler r) now' in
          Backpressure.outcome r' = Backpressure.Returned result
          /\ Backpressure.calls r' = 1%nat
          /\ Backpressure.circuit_open (Backpressure.handler r') !! source_id = None
          /\ Backpressure.failures (Backpressure.handler r') source_id = 0).
Proof.
  intros r Hout.
  assert (is_Some (Backpressure.circuit_open (Backpressure.handler r) !! source_id)
          /\ Backpressure.max_retries (Backpressure.handler r)
             = Backpressure.max_retries self) as [[opened Hopened] Hretries].
  { subst r. unfold Backpressure.execute_with_backoff in *.
    pose proof (frame_is_circuit_open source_id self now) as Hfr0.
    unfold Backpressure._is_circuit_open in *.
    destruct (Backpressure.circuit_open self !! source_id) as [t|] eqn:Ht.
    - cbv zeta in *. destruct (timedelta_minutes 5 <? now - t).
      + split; [by apply attempts_open|].
        destruct (attempts_bounded_frame coro_func clock source_id
                    (Z.to_nat (Backpressure.max_retries
                       (Backpressure.with_state
                          (<[source_id:=0]> (Backpressure.failure_counts self))
                          (delete source_id (Backpressure.circuit_open self)) self)))
                    0 (Backpressure.with_state
                          (<[source_id:=0]> (Backpressure.failure_counts self))
                          (delete source_id (Backpressure.circuit_open self)) self))
          as (Hm & _).
        by rewrite Hm.
      + cbn. by rewrite Ht.
    - split; [by apply attempts_open|].
      destruct (attempts_bounded_frame coro_func clock source_id
                  (Z.to_nat (Backpressure.max_retries self)) 0 self) as (Hm & _).
      by rewrite Hm. }
  exists opened. split; [done|]. split.
  - intros coro_func' clock' now' Hsoon.
    unfold Backpressure.execute_with_backoff, Backpressure._is_circuit_open.
    rewrite Hopened. cbv zeta. by rewrite (proj2 (Z.ltb_ge _ _)) by lia.
  - intros coro_func' clock' now' result Hlate Hone Hok.
    unfold Backpressure.execute_with_backoff, Backpressure._is_circuit_open.
    rewrite Hopened. cbv zeta. rewrite (proj2 (Z.ltb_lt _ _)) by lia.
    set (self1 := Backpressure.with_state _ _ (Backpressure.handler r)).
    change (Backpressure.max_retries self1)
      with (Backpressure.max_retries (Backpressure.handler r)).
    rewrite Hretries.
    destruct (Z.to_nat (Backpressure.max_retries self)) as [|n] eqn:Hn; [lia|].
    cbv zeta. rewrite attempts_S, Hok.
    cbn [Backpressure.outcome Backpressure.calls Backpressure.handler].
    split_and!; try done.
    + cbn. by rewrite lookup_delete_eq.
    + apply failures_counted.
Qed.

Lemma open_circuit_refuses_for_five_minutes_witness :
  let tripped := Backpressure.with_state {[ "coingecko" := 9 ]} ∅
                   Backpressure.backpressure_handler in
  let r := Backpressure.execute_with_backoff (fun _ => @None string) (fun _ => 50)
             "coingecko" tripped 50 in
  Backpressure.execute_with_backoff (fun _ => Some "quote") (fun _ => 0) "coingecko"
    (Backpressure.handler r) 300000050
  = Backpressure.mkRun (Backpressure.handler r) Backpressure.CircuitBreakerOpen 0 [].
Proof.
  intros tripped r.
  destruct (open_circuit_refuses_for_five_minutes (fun _ => @None string)
              (fun _ => 50) "coingecko" tripped 50) as (opened & Hopened & Hsoon & _).
  - reflexivity.
  - apply Hsoon. vm_compute in Hopened. injection Hopened as <-. vm_compute.
    discriminate.
Defined.

(** X24.  Whatever [coro_func] does and whenever the call is made, with
    a positive threshold [execute_with_backoff] keeps the record of
    failures bounded: no source ever has more failures on record than
    the threshold, and a source that has reached it has its circuit
    open. *)
Theorem failure_counts_stay_bounded {A : Type} (coro_func : Z -> option A)
    (clock : Z -> datetime) (source_id : string)
    (self : Backpressure.BackpressureHandler) (now : datetime) :
  0 < Backpressure.circuit_breaker_threshold self ->
  bounded_failures self ->
  bounded_failures
    (Backpressure.handler
       (Backpressure.execute_with_backoff coro_func clock source_id self now)).
Proof.
  intros Hpos Hinv.
  assert (forall self0 after,
            frame source_id self0 after ->
            (forall other, other <> source_id ->
               Backpressure.failures self0 other
               <= Backpressure.circuit_breaker_threshold self0
               /\ (Backpressure.failures self0 other
                   = Backpressure.circuit_breaker_threshold self0 ->
                   is_Some (Backpressure.circuit_open self0 !! other))) ->
            Backpressure.failures after source_id
            <= Backpressure.circuit_breaker_threshold self0 ->
            (Backpressure.failures after source_id
             = Backpressure.circuit_breaker_threshold self0 ->
             is_Some (Backpressure.circuit_open after !! source_id)) ->
            bounded_failures after) as Hframe.
  { intros self0 after (_ & _ & Ht & Ho) Hothers Hle Hsome other.
    rewrite Ht. destruct (decide (other = source_id)) as [->|Hne]; [done|].
    unfold Backpressure.failures in *. destruct (Ho other Hne) as [-> ->].
    by apply Hothers. }
  unfold Backpressure.execute_with_backoff, Backpressure._is_circuit_open.
  destruct (Backpressure.circuit_open self !! source_id) as [opened|] eqn:Hopened.
  - cbv zeta. destruct (timedelta_minutes 5 <? now - opened); [|done].
    set (self0 := Backpressure.with_state _ _ self).
    assert (Backpressure.failures self0 source_id = 0) as Hzero
      by apply failures_counted.
    destruct (attempts_bounded coro_func clock source_id
                (Z.to_nat (Backpressure.max_retries self0)) 0 self0)
      as (Hfr & Hle & Hsome); [done|by rewrite Hzero|].
    apply (Hframe self0); try done.
    intros other Hne. unfold Backpressure.failures. cbn.
    rewrite lookup_insert_ne, lookup_delete_ne by done. apply Hinv.
  - destruct (Hinv source_id) as [Hle0 Hsome0].
    assert (Backpressure.failures self source_id
            < Backpressure.circuit_breaker_threshold self) as Hlt.
    { destruct (decide (Backpressure.failures self source_id
                        = Backpressure.circuit_breaker_threshold self)) as [Heq|Hne];
        [|lia].
      destruct (Hsome0 Heq) as [? ?]. congruence. }
    destruct (attempts_bounded coro_func clock source_id
                (Z.to_nat (Backpressure.max_retries self)) 0 self)
      as (Hfr & Hle & Hsome); [done|done|].
    apply (Hframe self); first [done | intros other _; apply Hinv].
Qed.

Lemma failure_counts_stay_bounded_witness :
  bounded_failures
    (Backpressure.handler
       (Backpressure.execute_with_backoff (fun _ => @None string) (fun _ => 0)
          "coingecko" Backpressure.backpressure_handler 0)).
Proof.
  apply (failure_counts_stay_bounded (fun _ => @None string) (fun _ => 0) "coingecko"
           Backpressure.backpressure_handler 0).
  - reflexivity.
  - intros source_id. unfold Backpressure.failures. cbn. rewrite lookup_empty. cbn.
    split; [lia|discriminate].
Defined.

(** *** What the quality pipeline returns *)

Lemma dedup_loop_spaced (w : timedelta) (events : list RiskEvent)
    (seen : gmap string datetime) :
  0 <= w ->
  let kept := (Quality.dedup_loop w seen events).1 in
  (forall e last, e ∈ kept -> seen !! Quality._event_signature e = Some last ->
                  w <= timestamp e - last)
  /\ (forall (i j : nat) a b,
        (i < j)%nat -> kept !! i = Some a -> kept !! j = Some b ->
        Quality._event_signature a = Quality._event_signature b ->
        w <= timestamp b - timestamp a).
Proof.
  intros Hw. revert seen. induction events as [|e rest IH]; intros seen.
  - cbn. split; [by intros e last ?%elem_of_nil|by intros [|i] [|j]].
  - cbv zeta. rewrite dedup_loop_cons.
    destruct (is_duplicate w seen e) eqn:Edup; [apply IH|].
    destruct (IH (<[Quality._event_signature e := timestamp e]> seen)) as [Hseen Hpair].
    cbn [fst]. unfold is_duplicate in Edup.
    assert (forall x, x ∈ (Quality.dedup_loop w
                             (<[Quality._event_signature e := timestamp e]> seen) rest).1 ->
                      Quality._event_signature x = Quality._event_signature e ->
                      w <= timestamp x - timestamp e) as Hafter.
    { intros x Hx Hsig. apply (Hseen x _ Hx). rewrite Hsig. apply lookup_insert_eq. }
    split.
    + intros x last [->|Hx]%elem_of_cons Hlast.
      * rewrite Hlast in Edup. apply Z.ltb_ge in Edup. lia.
      * destruct (decide (Quality._event_signature x = Quality._event_signature e))
          as [Hsig|Hne].
        -- specialize (Hafter x Hx Hsig). rewrite Hsig in Hlast.
           rewrite Hlast in Edup.
           apply Z.ltb_ge in Edup. lia.
        -- apply (Hseen x last Hx). by rewrite lookup_insert_ne.
    + intros [|i] [|j] a b Hij Ha Hb Hsig; try lia.
      * cbn in Ha, Hb. injection Ha as <-.
        apply Hafter; [by eapply list_elem_of_lookup_2|done].
      * cbn in Ha, Hb. apply (Hpair i j a b); [lia|done..].
Qed.

(** X25.  Among the events the deduplication stage keeps, two with the
    same signature are at least the dedup window apart, the later in
    the batch being the later in time; and a kept event is at least the
    window later than the time the pipeline remembers for its signature
    from earlier batches.  So an event that is not later than a kept or
    remembered event with its signature is dropped as a duplicate,
    however much older it is. *)
Theorem kept_events_are_spaced (self : Quality.DataQualityPipeline) (now : datetime)
    (events : list RiskEvent) :
  0 <= Quality.dedup_window_sec self ->
  let window := timedelta_seconds (Quality.dedup_window_sec self) in
  let kept := (Quality._deduplicate_events self now events).1 in
  (forall (i j : nat) a b,
     (i < j)%nat -> kept !! i = Some a -> kept !! j = Some b ->
     Quality._event_signature a = Quality._event_signature b ->
     window <= timestamp b - timestamp a)
  /\ (forall e last,
        e ∈ kept ->
        Quality.seen_events self !! Quality._event_signature e = Some last ->
        now - window < last ->
        window <= timestamp e - last).
Proof.
  intros Hw window kept.
  assert (0 <= window) as Hwin by (unfold window, timedelta_seconds; lia).
  destruct (dedup_loop_spaced window events
              (filter (fun '(_, ts) => now - window < ts) (Quality.seen_events self)) Hwin)
    as [Hseen Hpair].
  split; [exact Hpair|].
  intros e last He Hlast Hrecent. apply (Hseen e last He).
  by apply map_lookup_filter_Some.
Qed.

Lemma kept_events_are_spaced_witness :
  let events := Sample.five_sources 0 ++ Sample.five_sources 60000000 in
  let kept := (Quality._deduplicate_events Quality.quality_pipeline 60000000 events).1 in
  exists a b,
    kept !! 0%nat = Some a /\ kept !! 5%nat = Some b
    /\ Quality._event_signature a = Quality._event_signature b
    /\ timedelta_seconds 60 <= timestamp b - timestamp a.
Proof.
  intros events kept.
  destruct (kept_events_are_spaced Quality.quality_pipeline 60000000 events)
    as [Hpair _]; [vm_compute; discriminate|].
  destruct (kept !! 0%nat) as [a|] eqn:Ea; [|vm_compute in Ea; discriminate Ea].
  destruct (kept !! 5%nat) as [b|] eqn:Eb; [|vm_compute in Eb; discriminate Eb].
  assert (Quality._event_signature a = Quality._event_signature b) as Hsig.
  { vm_compute in Ea, Eb. injection Ea as <-. injection Eb as <-.
    vm_compute. reflexivity. }
  exists a, b. split_and!; try done.
  apply (Hpair 0%nat 5%nat a b); [lia|exact Ea|exact Eb|exact Hsig].
Defined.

(** X26.  [process_events] invents nothing: it returns at most as many
    events as it was given, and every event it returns is one of the
    given events, normalized, and changed by the outlier stage in
    [is_outlier] and [quality_score] at most.  With ordered price
    bounds the price of a returned event lies within them. *)
Theorem process_events_returns_normalized_inputs (self : Quality.DataQualityPipeline)
    (now : datetime) (events : list RiskEvent) :
  (Quality.price_min self <= Quality.price_max self)%Q ->
  let out := (Quality.process_events self now events).1 in
  (length out <= length events)%nat
  /\ forall b, b ∈ out ->
       (exists a, a ∈ events
                  /\ Stated.erase b = Stated.erase (Quality.normalize_event self a))
       /\ forall p, price b = Some p ->
                    (Quality.price_min self <= p <= Quality.price_max self)%Q.
Proof.
  intros Hbounds out. subst out. unfold Quality.process_events.
  destruct events as [|e0 events0]; [split; [done|by intros b ?%elem_of_nil]|].
  set (events := e0 :: events0).
  unfold Quality._deduplicate_events. cbv zeta.
  set (w := timedelta_seconds _). set (seen := filter _ _).
  pose proof (dedup_loop_length w seen (Quality._normalize_events self events)) as Hlen.
  pose proof (dedup_loop_subset w (Quality._normalize_events self events) seen) as Hsub.
  destruct (Quality.dedup_loop w seen (Quality._normalize_events self events))
    as [kept seen'] eqn:Ekept.
  cbn [fst] in *.
  destruct (detect_outliers_retains self kept) as [Hl Hret].
  split.
  - rewrite Hl. unfold Quality._normalize_events in Hlen.
    by rewrite length_fmap in Hlen.
  - intros b Hb. apply list_elem_of_lookup in Hb as [i Hi].
    destruct (kept !! i) as [a'|] eqn:Ea'.
    2:{ apply lookup_ge_None in Ea'. apply lookup_lt_Some in Hi. lia. }
    destruct (Hret i a' b Ea' Hi) as [Herase _].
    assert (a' ∈ Quality._normalize_events self events) as Hin
      by (apply Hsub; by eapply list_elem_of_lookup_2).
    apply list_elem_of_fmap in Hin as (a & -> & Ha).
    split; [by exists a|].
    intros p Hp.
    assert (price b = price (Quality.normalize_event self a)) as Hprice
      by exact (f_equal price Herase).
    rewrite Hp, normalize_event_fields in Hprice. cbn in Hprice.
    unfold clamp_price in Hprice. destruct (price a) as [x|]; [|done].
    destruct (Qltb x (Quality.price_min self)) eqn:E1.
    { injection Hprice as ->. split; [apply Qle_refl|done]. }
    destruct (Qltb (Quality.price_max self) x) eqn:E2.
    { injection Hprice as ->. split; [done|apply Qle_refl]. }
    injection Hprice as ->. apply Qltb_ge in E1, E2. done.
Qed.

Lemma process_events_returns_normalized_inputs_witness :
  let events := [Sample.price_event "A" 0 "tier3" (2 # 1)%Q] in
  let out := (Quality.process_events Quality.quality_pipeline 0 events).1 in
  exists b p,
    b ∈ out /\ price b = Some p /\ (95 # 100 <= p <= 105 # 100)%Q.
Proof.
  intros events out.
  destruct (process_events_returns_normalized_inputs Quality.quality_pipeline 0 events)
    as [_ Hall]; [vm_compute; discriminate|].
  fold out in Hall.
  destruct out as [|b rest] eqn:Eout; [vm_compute in Eout; discriminate Eout|].
  assert (b ∈ b :: rest) as Hb by apply list_elem_of_here.
  destruct (price b) as [p|] eqn:Ep.
  - exists b, p.
    split; [exact Hb|]. split; [exact Ep|]. exact (proj2 (Hall b Hb) p Ep).
  - vm_compute in Eout. injection Eout as <- _. discriminate Ep.
Defined.

(** *** How often the outlier stage penalizes an event *)

Lemma penalized_refl (store : list RiskEvent) :
  penalized_at_most (fun _ => 0%nat) store store.
Proof. intros p a Ha. by exists 0%nat. Qed.

Lemma penalized_weaken (c c' : nat -> nat) (store store' : list RiskEvent) :
  (forall p, (c p <= c' p)%nat) ->
  penalized_at_most c store store' -> penalized_at_most c' store store'.
Proof.
  intros Hc H p a Ha. destruct (H p a Ha) as (n & Hn & Hp).
  exists n. split; [|done]. specialize (Hc p). lia.
Qed.

Lemma penalized_trans (c1 c2 : nat -> nat) (s1 s2 s3 : list RiskEvent) :
  penalized_at_most c1 s1 s2 -> penalized_at_most c2 s2 s3 ->
  penalized_at_most (fun p => (c1 p + c2 p)%nat) s1 s3.
Proof.
  intros H1 H2 p a Ha. destruct (H1 p a Ha) as (n1 & Hn1 & Hp1).
  destruct (H2 p _ Hp1) as (n2 & Hn2 & Hp2).
  exists (n2 + n1)%nat. split; [lia|]. by rewrite Nat.iter_add.
Qed.

Section Penalties.
Variable self : Quality.DataQualityPipeline.

Lemma flag_step_penalized (metric : RiskEvent -> option Q) (values : list Q)
    (store : list RiskEvent) (i : nat) :
  penalized_at_most (fun p => if decide (p = i) then 1%nat else 0%nat) store
    (Quality.flag_step self metric values store i).
Proof.
  unfold Quality.flag_step.
  assert (penalized_at_most (fun p => if decide (p = i) then 1%nat else 0%nat)
            store store) as Hsame.
  { apply (penalized_weaken (fun _ => 0%nat)); [intros p; lia|apply penalized_refl]. }
  destruct (store !! i) as [e|] eqn:Ee; [|done].
  destruct (metric e); [|done].
  destruct (Quality.z_score_exceeds _ _ _); [|done].
  intros p a Ha. destruct (decide (p = i)) as [->|Hne].
  - exists 1%nat. split; [done|]. rewrite Ee in Ha. injection Ha as <-.
    apply list_lookup_insert_eq. by eapply lookup_lt_Some.
  - exists 0%nat. split; [done|]. by rewrite list_lookup_insert_ne.
Qed.

Lemma flag_fold_penalized (metric : RiskEvent -> option Q) (values : list Q)
    (idxs : list nat) (store : list RiskEvent) :
  penalized_at_most (count_occ Nat.eq_dec idxs) store
    (fold_left (Quality.flag_step self metric values) idxs store).
Proof.
  revert store. induction idxs as [|i idxs IH]; intros store; [apply penalized_refl|].
  cbn [fold_left].
  apply (penalized_weaken
           (fun p => ((if decide (p = i) then 1 else 0)
                      + count_occ Nat.eq_dec idxs p)%nat)).
  - intros p. cbn [count_occ].
    destruct (decide (p = i)) as [Heq|Hne]; destruct (Nat.eq_dec i p);
      first [lia | congruence].
  - exact (penalized_trans _ _ _ _ _
             (flag_step_penalized metric values store i) (IH _)).
Qed.

Lemma metric_pass_penalized (metric : RiskEvent -> option Q)
    (store : list RiskEvent) (idxs : list nat) :
  penalized_at_most (count_occ Nat.eq_dec idxs) store
    (Quality.metric_pass self metric store idxs).
Proof.
  assert (penalized_at_most (count_occ Nat.eq_dec idxs) store store) as Hsame.
  { apply (penalized_weaken (fun _ => 0%nat)); [intros p; lia|apply penalized_refl]. }
  unfold Quality.metric_pass. cbv zeta.
  repeat case_match; try done. apply flag_fold_penalized.
Qed.

Lemma detect_in_market_penalized (store : list RiskEvent) (idxs : list nat) :
  penalized_at_most (fun p => (2 * count_occ Nat.eq_dec idxs p)%nat) store
    (Quality._detect_outliers_in_market self store idxs).
Proof.
  unfold Quality._detect_outliers_in_market. case_match.
  - apply (penalized_weaken (fun _ => 0%nat)); [intros p; lia|apply penalized_refl].
  - cbv zeta.
    apply (penalized_weaken
             (fun p => (count_occ Nat.eq_dec idxs p
                        + count_occ Nat.eq_dec idxs p)%nat)).
    + intros p. lia.
    + exact (penalized_trans _ _ _ _ _
               (metric_pass_penalized price store idxs)
               (metric_pass_penalized liquidity_depth _ idxs)).
Qed.

Lemma detect_markets_penalized (groups : list (string * string * list nat))
    (store : list RiskEvent) :
  penalized_at_most (fun p => (2 * occurrences p groups)%nat) store
    (fold_left (fun st kv => Quality._detect_outliers_in_market self st kv.2)
       groups store).
Proof.
  revert store. induction groups as [|g groups IH]; intros store.
  - apply (penalized_weaken (fun _ => 0%nat)); [intros p; lia|apply penalized_refl].
  - cbn [fold_left].
    apply (penalized_weaken
             (fun p => (2 * count_occ Nat.eq_dec g.2 p
                        + 2 * occurrences p groups)%nat)).
    + intros p. unfold occurrences. cbn [fmap list_fmap concat].
      change (concat (list_fmap _ _ snd groups)) with (concat groups.*2).
      rewrite count_occ_app. lia.
    + exact (penalized_trans _ _ _ _ _
               (detect_in_market_penalized store g.2) (IH _)).
Qed.

End Penalties.

(** The markets hold every position of the batch once. *)
Lemma occurrences_permutation {K : Type} (p : nat) (l1 l2 : list (K * list nat)) :
  l1 ≡ₚ l2 -> occurrences p l1 = occurrences p l2.
Proof.
  unfold occurrences. induction 1 as [|x l1 l2 _ IH|x y l|l1 l2 l3 _ IH1 _ IH2]; cbn.
  - done.
  - rewrite !count_occ_app. lia.
  - rewrite !count_occ_app. lia.
  - congruence.
Qed.

Lemma occurrences_cons {K : Type} (p : nat) (k : K) (idxs : list nat)
    (groups : list (K * list nat)) :
  occurrences p ((k, idxs) :: groups)
  = (count_occ Nat.eq_dec idxs p + occurrences p groups)%nat.
Proof. unfold occurrences. cbn. by rewrite count_occ_app. Qed.

Lemma occurrences_markets_step (p : nat) (markets : gmap (string * string) (list nat))
    (ie : nat * RiskEvent) :
  occurrences p (map_to_list (Quality.markets_step markets ie))
  = (occurrences p (map_to_list markets)
     + count_occ Nat.eq_dec [ie.1] p)%nat.
Proof.
  unfold Quality.markets_step. cbv zeta.
  set (key := (coin ie.2, chain ie.2)).
  destruct (markets !! key) as [old|] eqn:Eold; cbn [default from_option id].
  - assert (map_to_list (<[key := old ++ [ie.1]]> markets)
            ≡ₚ (key, old ++ [ie.1]) :: map_to_list (delete key markets)) as P1.
    { rewrite <- (insert_delete_eq markets key).
      apply map_to_list_insert, lookup_delete_eq. }
    assert (map_to_list markets ≡ₚ (key, old) :: map_to_list (delete key markets))
      as P2.
    { rewrite <- (insert_delete_id markets key old Eold) at 1.
      apply map_to_list_insert, lookup_delete_eq. }
    rewrite (occurrences_permutation p _ _ P1), (occurrences_permutation p _ _ P2).
    rewrite !occurrences_cons, count_occ_app. lia.
  - rewrite (occurrences_permutation p _ _ (map_to_list_insert markets key _ Eold)).
    rewrite occurrences_cons. cbn [app]. lia.
Qed.

Lemma occurrences_markets_fold (p : nat) (l : list (nat * RiskEvent))
    (markets : gmap (string * string) (list nat)) :
  occurrences p (map_to_list (fold_left Quality.markets_step l markets))
  = (occurrences p (map_to_list markets) + count_occ Nat.eq_dec l.*1 p)%nat.
Proof.
  revert markets. induction l as [|ie l IH]; intros markets; [cbn; lia|].
  cbn [fold_left]. rewrite IH, occurrences_markets_step. cbn. 
  destruct (Nat.eq_dec ie.1 p); lia.
Qed.

Lemma imap_positions (g : nat -> nat) (events : list RiskEvent) :
  (imap (fun i e => (g i, e)) events).*1 = g <$> seq 0 (length events).
Proof.
  revert g. induction events as [|e events IH]; intros g; [done|].
  cbn [imap length seq fmap list_fmap]. f_equal.
  change (g <$> seq 1 (length events)) with (g <$> seq 1 (length events)).
  rewrite <- fmap_S_seq, <- list_fmap_compose. apply (IH (g ∘ S)).
Qed.

Lemma detect_outliers_penalized (self : Quality.DataQualityPipeline)
    (events : list RiskEvent) :
  penalized_at_most (fun _ => 2%nat) events (Quality._detect_outliers self events).
Proof.
  unfold Quality._detect_outliers. case_match.
  - apply (penalized_weaken (fun _ => 0%nat)); [intros p; lia|apply penalized_refl].
  - cbv zeta.
    apply (penalized_weaken
             (fun p => (2 * occurrences p
                              (map_to_list (fold_left Quality.markets_step
                                              (imap pair events) ∅)))%nat));
      [|apply detect_markets_penalized].
    intros p. rewrite occurrences_markets_fold.
    change (imap pair events) with (imap (fun i e => (id i, e)) events).
    rewrite imap_positions, list_fmap_id.
    pose proof (proj1 (NoDup_count_occ Nat.eq_dec (seq 0 (length events)))
                  (List.seq_NoDup (length events) 0) p) as Hone.
    unfold occurrences. rewrite map_to_list_empty. cbn. lia.
Qed.

(** X27.  The quality score of an event that [process_events] returns
    is 1, 0.5 or 0.25: normalization sets it to 1 and the outlier stage
    halves it at most twice, once for the price and once for the
    liquidity of the event's market.  An event returned with a score
    below 1 is flagged as an outlier. *)
Theorem quality_score_after_pipeline (self : Quality.DataQualityPipeline)
    (now : datetime) (events : list RiskEvent) (b : RiskEvent) :
  b ∈ (Quality.process_events self now events).1 ->
  (quality_score b == 1 \/ quality_score b == 1 # 2 \/ quality_score b == 1 # 4)%Q
  /\ ((quality_score b < 1)%Q -> is_outlier b = true).
Proof.
  unfold Quality.process_events.
  destruct events as [|e0 events0]; [by intros ?%elem_of_nil|].
  set (events := e0 :: events0).
  unfold Quality._deduplicate_events. cbv zeta.
  set (w := timedelta_seconds _). set (seen := filter _ _).
  pose proof (dedup_loop_subset w (Quality._normalize_events self events) seen) as Hsub.
  destruct (Quality.dedup_loop w seen (Quality._normalize_events self events))
    as [kept seen'] eqn:Ekept.
  cbn [fst] in *. intros Hb.
  apply list_elem_of_lookup in Hb as [i Hi].
  pose proof (detect_outliers_length self kept) as Hl.
  destruct (kept !! i) as [a'|] eqn:Ea'.
  2:{ apply lookup_ge_None in Ea'. apply lookup_lt_Some in Hi. lia. }
  destruct (detect_outliers_penalized self kept i a' Ea') as (n & Hn & Hp).
  rewrite Hi in Hp. injection Hp as ->.
  assert (quality_score a' = (1 # 1)%Q) as Hone.
  { assert (a' ∈ Quality._normalize_events self events) as Hin
      by (apply Hsub; by eapply list_elem_of_lookup_2).
    apply list_elem_of_fmap in Hin as (a & -> & _).
    by rewrite normalize_event_fields. }
  destruct n as [|[|[|n]]]; [| | |lia]; cbn; rewrite Hone.
  - split; [by left|]. intros Hlt. by apply Qlt_irrefl in Hlt.
  - split; [right; left; reflexivity|done].
  - split; [right; right; reflexivity|done].
Qed.

Lemma quality_score_after_pipeline_witness :
  exists b,
    b ∈ (Quality.process_events Quality.quality_pipeline 0 (Sample.five_sources 0)).1
    /\ (quality_score b == 1 \/ quality_score b == 1 # 2 \/ quality_score b == 1 # 4)%Q
    /\ ((quality_score b < 1)%Q -> is_outlier b = true).
Proof.
  destruct (Quality.process_events Quality.quality_pipeline 0
              (Sample.five_sources 0)).1 as [|b rest] eqn:Eout;
    [vm_compute in Eout; discriminate Eout|].
  assert (b ∈ b :: rest) as Hb by apply list_elem_of_here.
  exists b. split; [exact Hb|]. rewrite <- Eout in Hb.
  exact (quality_score_after_pipeline Quality.quality_pipeline 0
           (Sample.five_sources 0) b Hb).
Defined.

(** *** The window manager *)

(** Past the provisional delay a visit of the state machine leaves no
    window OPEN. *)
Lemma process_window_closes (world : string -> Finality.Rpc) (now : datetime)
    (w : Window.TimeWindow) (t : datetime) :
  Window.window_end w + timedelta_seconds Config.provisional_delay_sec <= t ->
  Window.state (Window._process_window world now w t) <> OPEN.
Proof.
  intros Hlate.
  assert (forall p, Window.state p = PROVISIONAL ->
                    Window.state (Window._process_window world now p t) <> OPEN)
    as Hprov.
  { intros p Hp. rewrite process_window_provisional by done. cbv zeta.
    case_match; [done|]. cbn. by rewrite Hp. }
  destruct (Window.state w) eqn:Es.
  - rewrite process_window_open by done.
    assert (Window.can_transition_to_provisional w t = true) as ->.
    { unfold Window.can_transition_to_provisional, Window.is_expired.
      rewrite (bool_decide_eq_true_2 _ Es). cbn [negb].
      unfold timedelta_seconds, Config.provisional_delay_sec in *.
      rewrite (proj2 (Z.leb_le _ _)) by lia. cbn [negb]. cbv zeta.
      apply Z.leb_le. lia. }
    by apply Hprov.
  - by apply Hprov.
  - rewrite process_window_final by done. by rewrite Es.
Qed.

Lemma with_windows_same (self : Manager.WindowManager) :
  Manager.with_windows (Manager.windows self) self = self.
Proof. by destruct self. Qed.

(** X28.  Windows are closed for good: once the state machine has
    visited a window a minute or more (the provisional delay) after its
    end, every event that arrives for that window afterwards is
    discarded; [add_event] returns without a trace of it in the
    manager. *)
Theorem late_events_are_discarded (utc_offset : Z) (world : string -> Finality.Rpc)
    (self : Manager.WindowManager) (current_time : datetime) (id : string)
    (window : Window.TimeWindow) :
  Manager.windows self !! id = Some window ->
  Window.window_end window + timedelta_seconds Config.provisional_delay_sec
  <= current_time ->
  let self' := Manager.run_state_machine_turn world current_time self in
  forall (now : datetime) (event : RiskEvent),
    Manager.get_window_id utc_offset self' (timestamp event) = Some id ->
    Manager.add_event utc_offset self' now event = Some self'.
Proof.
  intros Hw Hlate self' now event Hid.
  assert (Manager.windows self' !! id
          = Some (Window._process_window world current_time window current_time))
    as Hw'.
  { unfold self', Manager.run_state_machine_turn. cbn. by rewrite lookup_fmap, Hw. }
  clearbody self'.
  unfold Manager.add_event, Manager.get_or_create_window. rewrite Hid.
  cbn. rewrite Hw'. cbn. rewrite Hw'. cbn.
  unfold Window.add_event.
  rewrite bool_decide_eq_false_2 by by apply process_window_closes.
  rewrite insert_id by done. by rewrite with_windows_same.
Qed.

Lemma late_events_are_discarded_witness :
  let first := Sample.price_event "A" 10000000 "tier1" (1 # 1)%Q in
  let late := Sample.price_event "B" 20000000 "tier1" (1 # 1)%Q in
  let self := default (Manager.new_manager 300)
                (Manager.add_event 0 (Manager.new_manager 300) 10000000 first) in
  let self' := Manager.run_state_machine_turn not_implemented_world 360000000 self in
  Manager.add_event 0 self' 361000000 late = Some self'.
Proof.
  intros first late self self'.
  destruct (Manager.windows self !! "1970-01-01T00:00:00") as [window|] eqn:Ew;
    [|vm_compute in Ew; discriminate Ew].
  apply (late_events_are_discarded 0 not_implemented_world self 360000000
           "1970-01-01T00:00:00" window Ew).
  - vm_compute in Ew. injection Ew as <-. vm_compute. discriminate.
  - reflexivity.
Defined.

(** X29.  An event whose window does not exist yet opens it: the
    manager then holds, under the identifier of the window, an OPEN
    window with this one event, stamped with the window's identifier
    and bounds, and every other window as before.  The window is
    [window_size_sec] long and, for a time between the epoch and 2^33
    seconds after it (the year 2242), up to which the float that
    [timestamp()] returns resolves microseconds, it contains the
    event's time as UTC reads it, the naive timestamp taken for local
    time; so off UTC the timestamp of the event itself can lie outside
    the bounds it is stamped with. *)
Theorem first_event_opens_its_window (utc_offset : Z) (self : Manager.WindowManager)
    (now : datetime) (event : RiskEvent) (id : string) :
  0 < Manager.window_size_sec self ->
  0 <= timestamp event - utc_offset * 1000000 < 2 ^ 33 * 1000000 ->
  Manager.get_window_id utc_offset self (timestamp event) = Some id ->
  Manager.windows self !! id = None ->
  exists self' window,
    Manager.add_event utc_offset self now event = Some self'
    /\ Manager.windows self' = <[id := window]> (Manager.windows self)
    /\ Window.state window = OPEN
    /\ Window.window_id window = id
    /\ Window.events window
       = [set_window_end (Some (Window.window_end window))
            (set_window_start (Some (Window.window_start window))
               (set_window_state "OPEN" (set_window_id id event)))]
    /\ Window.window_end window - Window.window_start window
       = timedelta_seconds (Manager.window_size_sec self)
    /\ Window.window_start window
       <= timestamp event - utc_offset * 1000000
       < Window.window_end window.
Proof.
  intros Hsize Hpos Hid Hnone.
  assert (id = isoformat (utcfromtimestamp
                            (Manager.window_start_epoch utc_offset self
                               (timestamp event)))) as Hiso.
  { unfold Manager.get_window_id in Hid. case_decide; [lia|]. by injection Hid. }
  unfold Manager.add_event, Manager.get_or_create_window. rewrite Hid.
  cbn. rewrite Hnone. cbn. rewrite lookup_insert_eq. cbn.
  do 2 eexists. split; [reflexivity|].
  rewrite insert_insert_eq.
  split_and!; try reflexivity.
  all: unfold Window.add_event; rewrite bool_decide_eq_true_2 by done;
    cbn [Window.window_start Window.window_end Window.new_window Window.with_state].
  - unfold utcfromtimestamp, timedelta_seconds. lia.
  - unfold utcfromtimestamp, Manager.window_start_epoch, Manager.epoch.
    rewrite Z.quot_div_nonneg by lia.
    pose proof (Z.mul_div_le
                  ((timestamp event - utc_offset * 1000000) / 1000000)
                  (Manager.window_size_sec self) Hsize).
    pose proof (Z.mul_div_le (timestamp event - utc_offset * 1000000) 1000000).
    lia.
  - unfold utcfromtimestamp, timedelta_seconds, Manager.window_start_epoch,
      Manager.epoch.
    rewrite Z.quot_div_nonneg by lia.
    pose proof (Z.mod_pos_bound
                  ((timestamp event - utc_offset * 1000000) / 1000000)
                  (Manager.window_size_sec self) Hsize).
    pose proof (Z.div_mod
                  ((timestamp event - utc_offset * 1000000) / 1000000)
                  (Manager.window_size_sec self)).
    pose proof (Z.mod_pos_bound (timestamp event - utc_offset * 1000000) 1000000).
    pose proof (Z.div_mod (timestamp event - utc_offset * 1000000) 1000000).
    lia.
Qed.

Lemma first_event_opens_its_window_witness :
  let event := Sample.price_event "A" 19810000000 "tier1" (1 # 1)%Q in
  exists self' window,
    Manager.add_event 19800 (Manager.new_manager 300) 0 event = Some self'
    /\ Manager.windows self' = {[ "1970-01-01T00:00:00" := window ]}
    /\ Window.window_start window = 0
    /\ Window.window_end window = 300000000
    /\ Window.window_end window < timestamp event.
Proof.
  intros event.
  destruct (first_event_opens_its_window 19800 (Manager.new_manager 300) 0 event
              "1970-01-01T00:00:00")
    as (self' & window & Hadd & Hwindows & _ & _ & _ & Hlen & Hstart & Hend).
  - reflexivity.
  - split; vm_compute; [discriminate|reflexivity].
  - reflexivity.
  - reflexivity.
  - exists self', window.
    assert (Window.window_start window = 0 /\ Window.window_end window = 300000000)
      as [Hs He].
    { vm_compute in Hadd. injection Hadd as <-. cbn in Hwindows.
      apply (f_equal (fun m => m !! "1970-01-01T00:00:00")) in Hwindows.
      vm_compute in Hwindows. injection Hwindows as <-. by split. }
    split_and!; try done. rewrite He. reflexivity.
Defined.

Lemma mapM_total {A B : Type} (f : A -> option B) (g : A -> B) (l : list A) :
  (forall x, x ∈ l -> f x = Some (g x)) -> mapM f l = Some (g <$> l).
Proof.
  induction l as [|x l IH]; intros Hf; [done|].
  cbn [mapM]. rewrite (Hf x) by apply list_elem_of_here.
  rewrite IH; [done|]. intros y Hy. apply Hf. by apply list_elem_of_further.
Qed.

Lemma elem_of_removed {K A : Type} (test : A -> bool) (k : K) (l : list (K * A)) :
  k ∈ concat ((fun kv : K * A => if test kv.2 then [kv.1] else []) <$> l)
  <-> exists a, (k, a) ∈ l /\ test a = true.
Proof.
  induction l as [|[k' a'] l IH]; cbn [fmap list_fmap concat].
  - split; [by intros ?%elem_of_nil|by intros (a & ?%elem_of_nil & _)].
  - change (list_fmap _ _ ?f l) with (f <$> l). rewrite elem_of_app, IH. cbn [fst snd].
    split.
    + intros [Hhere|(a & Ha & Ht)].
      * destruct (test a') eqn:Et; [|by apply elem_of_nil in Hhere].
        apply list_elem_of_singleton in Hhere as ->. exists a'. split; [by left|done].
      * exists a. split; [by right|done].
    + intros (a & [Heq|Ha]%elem_of_cons & Ht).
      * injection Heq as -> ->. left. rewrite Ht. by apply list_elem_of_singleton.
      * right. by exists a.
Qed.

(** X30.  [cleanup_old_windows] removes the windows that are FINAL and
    were finalized before [now - max_age_hours], and no others: a
    window that has not reached FINAL stays in the manager however old
    it is.  (Every FINAL window has its [finalized_at] set, as
    [transition_to_final] leaves it.) *)
Theorem cleanup_removes_old_final_windows_only (self : Manager.WindowManager)
    (now : datetime) (max_age_hours : Z) :
  (forall id w, Manager.windows self !! id = Some w ->
                Window.state w = FINAL -> is_Some (Window.finalized_at w)) ->
  exists self',
    Manager.cleanup_old_windows self now max_age_hours = Some self'
    /\ Manager.window_size_sec self' = Manager.window_size_sec self
    /\ forall id w,
         Manager.windows self' !! id = Some w
         <-> Manager.windows self !! id = Some w
             /\ ~ (Window.state w = FINAL
                   /\ exists t, Window.finalized_at w = Some t
                                /\ t < now - timedelta_hours max_age_hours).
Proof.
  intros Hset. unfold Manager.cleanup_old_windows. cbv zeta.
  set (cutoff := now - timedelta_hours max_age_hours).
  set (old := fun w : Window.TimeWindow =>
                bool_decide (Window.state w = FINAL)
                && from_option (fun t => t <? cutoff) false (Window.finalized_at w)).
  rewrite (mapM_total _ (fun kv : string * Window.TimeWindow =>
                           if old kv.2 then [kv.1] else [])).
  2:{ intros [id w] Hin. apply elem_of_map_to_list in Hin. cbn [fst snd].
      unfold Manager.is_old, old. case_bool_decide as Hfinal; [|done].
      destruct (Hset id w Hin Hfinal) as [t ->]. done. }
  eexists. split; [reflexivity|]. split; [reflexivity|].
  intros id w. cbn [Manager.windows Manager.with_windows].
  assert (forall w', old w' = true
                     <-> Window.state w' = FINAL
                         /\ exists t, Window.finalized_at w' = Some t /\ t < cutoff)
    as Hold.
  { intros w'. unfold old. rewrite andb_true_iff, bool_decide_eq_true.
    destruct (Window.finalized_at w') as [t|]; cbn.
    - rewrite Z.ltb_lt. split; [intros [? ?]; eauto|].
      intros (? & t' & [= <-] & ?). done.
    - split; [by intros [_ ?]|by intros (_ & t' & ? & _)]. }
  destruct (decide (id ∈ concat ((fun kv : string * Window.TimeWindow =>
                                    if old kv.2 then [kv.1] else [])
                                   <$> map_to_list (Manager.windows self))))
    as [Hin|Hout].
  - rewrite lookup_foldr_delete by done.
    apply elem_of_removed in Hin as (a & Ha & Hta).
    apply elem_of_map_to_list in Ha. split; [done|].
    intros [Hw Hnot]. rewrite Ha in Hw. injection Hw as ->. exfalso. by apply Hnot, Hold.
  - rewrite lookup_foldr_delete_not_elem_of by done.
    split; [|by intros [? _]].
    intros Hw. split; [done|]. intros Hfinal. apply Hout, elem_of_removed.
    exists w. split; [by apply elem_of_map_to_list|by apply Hold].
Qed.

Lemma cleanup_removes_old_final_windows_only_witness :
  let settled := Window.transition_to_final
                   (Window.new_window "settled" 0 300000000 0) 1200000000 in
  let pending := Window.new_window "pending" 0 300000000 0 in
  let self := Manager.with_windows {[ "settled" := settled; "pending" := pending ]}
                (Manager.new_manager 300) in
  exists self',
    Manager.cleanup_old_windows self (timedelta_hours 48) 24 = Some self'
    /\ Manager.windows self' !! "settled" = None
    /\ Manager.windows self' !! "pending" = Some pending.
Proof.
  intros settled pending self.
  destruct (cleanup_removes_old_final_windows_only self (timedelta_hours 48) 24)
    as (self' & Hclean & _ & Hkept).
  - intros id w Hw Hfinal.
    change (Manager.windows self) with
      (<["settled" := settled]> ({["pending" := pending]}
                                  : gmap string Window.TimeWindow)) in Hw.
    apply lookup_insert_Some in Hw as [[_ <-]|[_ Hw]]; [by eexists|].
    apply lookup_singleton_Some in Hw as [_ <-]. discriminate Hfinal.
  - exists self'. split; [exact Hclean|]. split.
    + destruct (Manager.windows self' !! "settled") as [w|] eqn:Ew; [|done].
      apply Hkept in Ew as [Hw Hnot]. exfalso. apply Hnot.
      vm_compute in Hw. injection Hw as <-.
      split; [done|]. exists 1200000000. split; [done|]. vm_compute. reflexivity.
    + apply Hkept. split; [by vm_compute|]. intros [Hfinal _]. discriminate Hfinal.
Defined.
